(** * Sensors module of the flight firmware (flight/modules/Sensors/sensors.c)

    A shallow embedding of the sensor acquisition task: sample accumulation,
    per-cycle averaging, temperature-bias tracking, the channel handlers and
    the periodic scheduler loop, followed by the properties established
    about them.

    C [float] is IEEE-754 binary32 with round-to-nearest-even, taken from the
    standard library's executable specification [SpecFloat] at precision 24
    and maximal exponent 128.  Fixed-width integers are [Z] with the
    wrap-around written out. *)

From Stdlib Require Import ZArith List Bool Lia.
From Stdlib Require Import Floats.SpecFloat.
Import ListNotations.
Open Scope Z_scope.

(* ------------------------------------------------------------------ *)
(** ** binary32 arithmetic *)

Definition float := spec_float.

Definition prec32 : Z := 24.
Definition emax32 : Z := 128.

Definition fadd : float -> float -> float := SFadd prec32 emax32.
Definition fsub : float -> float -> float := SFsub prec32 emax32.
Definition fmul : float -> float -> float := SFmul prec32 emax32.
Definition fdiv : float -> float -> float := SFdiv prec32 emax32.
Definition fabsf : float -> float := SFabs.

(** Conversion of an integer to [float], as the C cast [(float)n]. *)
Definition float_of_Z (n : Z) : float := binary_normalize prec32 emax32 n 0 false.

(** The C comparisons; every comparison with a NaN is false. *)
Definition flt (a b : float) : bool := SFltb a b.
Definition fgt (a b : float) : bool := SFltb b a.

Definition NAN : float := S754_nan.

Definition isnan (a : float) : bool :=
  match a with S754_nan => true | _ => false end.

Definition is_finite (a : float) : bool :=
  match a with S754_zero _ | S754_finite _ _ _ => true | _ => false end.

Definition is_zero (a : float) : bool :=
  match a with S754_zero _ => true | _ => false end.

(** A finite, non-zero, negative number. *)
Definition is_negative (a : float) : bool :=
  match a with S754_finite true _ _ => true | _ => false end.

(** Whether a finite number has an integral value. *)
Definition is_integral (a : float) : bool :=
  match a with
  | S754_zero _ => true
  | S754_finite _ m e => (0 <=? e) || (Zpos m mod 2 ^ (- e) =? 0)
  | _ => false
  end.

(** The C cast [(int)a] (truncation toward zero) of a finite number. *)
Definition Z_of_float (a : float) : Z :=
  match a with
  | S754_finite s m e =>
      let v := if 0 <=? e then Zpos m * 2 ^ e else Zpos m / 2 ^ (- e) in
      if s then - v else v
  | _ => 0
  end.

Declare Scope f32_scope.
Delimit Scope f32_scope with f32.
Bind Scope f32_scope with float.
Infix "+" := fadd : f32_scope.
Infix "-" := fsub : f32_scope.
Infix "*" := fmul : f32_scope.
Infix "/" := fdiv : f32_scope.

(** Decimal literals used by the module.  Numerator and denominator are
    exactly representable, so the correctly rounded quotient is the binary32
    number nearest to the decimal. *)
Definition f_0 : float := float_of_Z 0.
Definition f_1 : float := float_of_Z 1.
Definition f_2 : float := float_of_Z 2.
Definition f_5_255 : float := (float_of_Z 5255 / float_of_Z 1000)%f32.
Definition f_44330 : float := float_of_Z 44330.

(* ------------------------------------------------------------------ *)
(** ** Fixed-width integers *)

Definition wrap_u8 (z : Z) : Z := z mod 256.
Definition wrap_u32 (z : Z) : Z := z mod 2 ^ 32.
Definition wrap_i32 (z : Z) : Z := (z + 2 ^ 31) mod 2 ^ 32 - 2 ^ 31.

(* ------------------------------------------------------------------ *)
(** ** Arithmetic of the averaging step

    The averaging expressions of [processSamples3d], in binary32 as the
    firmware computes them: every conversion, division and product is
    rounded to nearest. *)

(** [float inv_count = 1.0f / (float)sensor_context->count;] *)
Definition inv_count_of (count : Z) : float :=
  fdiv (float_of_Z 1) (float_of_Z count).

(** [(float)accum * t] with [t = inv_count * scale]. *)
Definition mean_axis (accum count : Z) (scale : float) : float :=
  fmul (float_of_Z accum) (fmul (inv_count_of count) scale).

(** [(float)temperature * inv_count * 0.01f] *)
Definition mean_temperature (tsum count : Z) : float :=
  fmul (fmul (float_of_Z tsum) (inv_count_of count))
       (fdiv (float_of_Z 1) (float_of_Z 100)).

(* ------------------------------------------------------------------ *)
(** ** Platform constants and C library functions used by the module *)

(** The board configuration and the C library are not part of the module:
    the sampling rate, the tick length, the binary32 value of pi, the
    standard atmosphere and [powf] are parameters. *)
Class Platform := {
  PIOS_SENSOR_RATE : float;
  portTICK_RATE_MS : Z;
  M_PI_F : float;
  PIOS_CONST_MKS_STD_ATMOSPHERE_F : float;
  powf : float -> float -> float
}.

(** What ISO C (Annex F) guarantees of [powf] at the arguments that matter to
    the barometer handler. *)
Record C99_powf (P : Platform) : Prop := {
  powf_negative_base :
    forall b e, is_negative b = true -> is_finite e = true ->
                is_integral e = false -> powf b e = NAN;
  powf_zero_base :
    forall s e, fgt e f_0 = true -> is_integral e = false ->
                powf (S754_zero s) e = S754_zero false
}.

(* ------------------------------------------------------------------ *)
(** ** Vectors and matrices *)

Record Vector3i16 := mkV16 { x16 : Z; y16 : Z; z16 : Z }.
Record Vector3i32 := mkV32 { x32 : Z; y32 : Z; z32 : Z }.

(** [float v[3]] *)
Record vec3f := mkV3 { v0 : float; v1 : float; v2 : float }.

(** [float m[3][3]], by rows *)
Record mat3f := mkM3 { row0 : vec3f; row1 : vec3f; row2 : vec3f }.

Definition dot3 (r v : vec3f) : float :=
  (v0 r * v0 v + v1 r * v1 v + v2 r * v2 v)%f32.

(** Modelled from the spec: [rot_mult] of the coordinate-conversion library,
    which is not among the sources; "a standard matrix-vector product". *)
Definition rot_mult (R : mat3f) (v : vec3f) : vec3f :=
  mkV3 (dot3 (row0 R) v) (dot3 (row1 R) v) (dot3 (row2 R) v).

(** Modelled from the spec: [boundf] of the math library, which is not among
    the sources; "values above max clip to max, values below min clip to
    min -- implemented as a symmetric bound function" (either order of the
    two boundaries). *)
Definition boundf (val boundary1 boundary2 : float) : float :=
  let lo := if fgt boundary1 boundary2 then boundary2 else boundary1 in
  let hi := if fgt boundary1 boundary2 then boundary1 else boundary2 in
  if flt val lo then lo else if fgt val hi then hi else val.

(** Modelled from the spec: the macro [LPF_ALPHA(dt, fc)] of the math
    library, which is not among the sources; the low-pass coefficient for a
    sample period and a cutoff, in the form the module spells out for the
    barometer. *)
Definition LPF_ALPHA `{Platform} (dt fc : float) : float :=
  (dt / (dt + f_1 / (f_2 * M_PI_F * fc)))%f32.

(* ------------------------------------------------------------------ *)
(** ** Sensor instances and raw samples *)

(** The type tag of a sensor instance. *)
Inductive PIOS_SENSORS_TYPE :=
| PIOS_SENSORS_TYPE_3AXIS_ACCEL
| PIOS_SENSORS_TYPE_3AXIS_GYRO
| PIOS_SENSORS_TYPE_3AXIS_GYRO_ACCEL
| PIOS_SENSORS_TYPE_3AXIS_MAG
| PIOS_SENSORS_TYPE_3AXIS_AUXMAG
| PIOS_SENSORS_TYPE_1AXIS_BARO.

(** Modelled from the spec: the values of the type tags, declared in the
    sensor-driver header, which is not among the sources.  The tags are bit
    flags, the "combined gyro+accel" instance carrying both the gyro and the
    accel flag. *)
Definition type_bits (t : PIOS_SENSORS_TYPE) : Z :=
  match t with
  | PIOS_SENSORS_TYPE_3AXIS_ACCEL => 1
  | PIOS_SENSORS_TYPE_3AXIS_GYRO => 2
  | PIOS_SENSORS_TYPE_3AXIS_GYRO_ACCEL => 3
  | PIOS_SENSORS_TYPE_3AXIS_MAG => 4
  | PIOS_SENSORS_TYPE_3AXIS_AUXMAG => 8
  | PIOS_SENSORS_TYPE_1AXIS_BARO => 16
  end.

(** [PIOS_SENSORS_TYPE_3D], the union of the four 3-axis flags. *)
Definition PIOS_SENSORS_TYPE_3D : Z := Z.lor (Z.lor 1 2) (Z.lor 4 8).

(** The C test [type & flag]. *)
Definition type_has (t : PIOS_SENSORS_TYPE) (flag : Z) : bool :=
  negb (Z.land (type_bits t) flag =? 0).

(** The C test [type == t']. *)
Definition type_is (t t' : PIOS_SENSORS_TYPE) : bool :=
  type_bits t =? type_bits t'.

(** A sensor instance as the task sees it: its type, whether its driver is
    polled, and the scales [PIOS_SENSORS_GetScales] reports for the (up to
    two) physical sensors behind it. *)
Record PIOS_SENSORS_Instance := mkInstance {
  sensor_type : PIOS_SENSORS_TYPE;
  is_polled : bool;
  scales0 : float;
  scales1 : float
}.

Definition MAX_SENSORS_PER_INSTANCE : Z := 2.

(** [PIOS_SENSORS_3Axis_SensorsWithTemp]: how many vectors are present
    ([uint16_t]), the raw temperature in hundredths of a degree ([int16_t])
    and the vectors; the buffer holds [MAX_SENSORS_PER_INSTANCE] of them. *)
Record PIOS_SENSORS_3Axis_SensorsWithTemp := mkSample3 {
  s3_count : Z;
  s3_temperature : Z;
  s3_sample0 : Vector3i16;
  s3_sample1 : Vector3i16
}.

(** [PIOS_SENSORS_1Axis_SensorsWithTemp] *)
Record PIOS_SENSORS_1Axis_SensorsWithTemp := mkSample1 {
  s1_temperature : float;
  s1_sample : float
}.

(** The union [sensor_data]: what a driver has written, under both views. *)
Record sensor_data := mkData {
  sensorSample3Axis : PIOS_SENSORS_3Axis_SensorsWithTemp;
  sensorSample1Axis : PIOS_SENSORS_1Axis_SensorsWithTemp
}.

(** [sensor_fetch_context]: the sums of one task iteration. *)
Record sensor_fetch_context := mkContext {
  accum0 : Vector3i32;
  accum1 : Vector3i32;
  temperature : Z;   (* int32_t *)
  count : Z          (* uint32_t *)
}.

(* ------------------------------------------------------------------ *)
(** ** Module state *)

Record XYZ := mkXYZ { X : float; Y : float; Z_ : float }.

Record GyroTempCoeff := mkGyroTempCoeff {
  gX : float; gY : float; gZ : float; gX2 : float; gY2 : float; gZ2 : float
}.

Record Extent := mkExtent { min : float; max : float }.

(** [AccelGyroSettingsData], the fields the module reads. *)
Record AccelGyroSettingsData := mkAccelGyroSettings {
  accel_bias : XYZ;
  accel_scale : XYZ;
  gyro_bias : XYZ;
  gyro_scale : XYZ;
  accel_temp_coeff : XYZ;
  gyro_temp_coeff : GyroTempCoeff;
  temp_calibrated_extent : Extent
}.

(** [RevoSettingsBaroTempCorrectionPolynomialData] *)
Record BaroPolynomial := mkBaroPolynomial {
  poly_a : float; poly_b : float; poly_c : float; poly_d : float
}.

(** The variables [settingsUpdatedCb] caches from the settings objects. *)
Record calibration := mkCalibration {
  agcal : AccelGyroSettingsData;
  mag_bias : vec3f;
  mag_transform : mat3f;
  auxmag_bias : vec3f;
  auxmag_transform : mat3f;
  gyro_temp_calibrated : bool;
  accel_temp_calibrated : bool;
  R : mat3f;
  baroCorrection : BaroPolynomial;
  baroCorrectionExtent : Extent;
  baro_temp_correction_enabled : bool
}.

(** The variables of the three temperature trackers. *)
Record temp_tracking := mkTracking {
  accel_temperature : float;
  gyro_temperature : float;
  accel_temp_bias : vec3f;
  gyro_temp_bias : vec3f;
  accel_temp_calibration_count : Z;   (* uint8_t *)
  gyro_temp_calibration_count : Z;    (* uint8_t *)
  baro_temp_bias : float;
  baro_temperature : float;
  baro_temp_calibration_count : Z     (* uint8_t *)
}.

Record globals := mkGlobals { cal : calibration; trk : temp_tracking }.

(** The initialisers of the static variables. *)
Definition zero3 : vec3f := mkV3 f_0 f_0 f_0.

Definition initial_tracking : temp_tracking :=
  {| accel_temperature := NAN; gyro_temperature := NAN;
     accel_temp_bias := zero3; gyro_temp_bias := zero3;
     accel_temp_calibration_count := 0; gyro_temp_calibration_count := 0;
     baro_temp_bias := f_0; baro_temperature := NAN;
     baro_temp_calibration_count := 0 |}.

Definition set_accel_temperature (v : float) (t : temp_tracking) :=
  mkTracking v (gyro_temperature t) (accel_temp_bias t) (gyro_temp_bias t)
    (accel_temp_calibration_count t) (gyro_temp_calibration_count t)
    (baro_temp_bias t) (baro_temperature t) (baro_temp_calibration_count t).
Definition set_gyro_temperature (v : float) (t : temp_tracking) :=
  mkTracking (accel_temperature t) v (accel_temp_bias t) (gyro_temp_bias t)
    (accel_temp_calibration_count t) (gyro_temp_calibration_count t)
    (baro_temp_bias t) (baro_temperature t) (baro_temp_calibration_count t).
Definition set_accel_temp_bias (v : vec3f) (t : temp_tracking) :=
  mkTracking (accel_temperature t) (gyro_temperature t) v (gyro_temp_bias t)
    (accel_temp_calibration_count t) (gyro_temp_calibration_count t)
    (baro_temp_bias t) (baro_temperature t) (baro_temp_calibration_count t).
Definition set_gyro_temp_bias (v : vec3f) (t : temp_tracking) :=
  mkTracking (accel_temperature t) (gyro_temperature t) (accel_temp_bias t) v
    (accel_temp_calibration_count t) (gyro_temp_calibration_count t)
    (baro_temp_bias t) (baro_temperature t) (baro_temp_calibration_count t).
Definition set_accel_temp_calibration_count (v : Z) (t : temp_tracking) :=
  mkTracking (accel_temperature t) (gyro_temperature t) (accel_temp_bias t)
    (gyro_temp_bias t) v (gyro_temp_calibration_count t)
    (baro_temp_bias t) (baro_temperature t) (baro_temp_calibration_count t).
Definition set_gyro_temp_calibration_count (v : Z) (t : temp_tracking) :=
  mkTracking (accel_temperature t) (gyro_temperature t) (accel_temp_bias t)
    (gyro_temp_bias t) (accel_temp_calibration_count t) v
    (baro_temp_bias t) (baro_temperature t) (baro_temp_calibration_count t).
Definition set_baro_temp_bias (v : float) (t : temp_tracking) :=
  mkTracking (accel_temperature t) (gyro_temperature t) (accel_temp_bias t)
    (gyro_temp_bias t) (accel_temp_calibration_count t)
    (gyro_temp_calibration_count t) v (baro_temperature t)
    (baro_temp_calibration_count t).
Definition set_baro_temperature (v : float) (t : temp_tracking) :=
  mkTracking (accel_temperature t) (gyro_temperature t) (accel_temp_bias t)
    (gyro_temp_bias t) (accel_temp_calibration_count t)
    (gyro_temp_calibration_count t) (baro_temp_bias t) v
    (baro_temp_calibration_count t).
Definition set_baro_temp_calibration_count (v : Z) (t : temp_tracking) :=
  mkTracking (accel_temperature t) (gyro_temperature t) (accel_temp_bias t)
    (gyro_temp_bias t) (accel_temp_calibration_count t)
    (gyro_temp_calibration_count t) (baro_temp_bias t) (baro_temperature t) v.

(* ------------------------------------------------------------------ *)
(** ** Observable effects *)

Inductive SystemAlarmsAlarm :=
| SYSTEMALARMS_ALARM_UNINITIALISED
| SYSTEMALARMS_ALARM_OK
| SYSTEMALARMS_ALARM_WARNING
| SYSTEMALARMS_ALARM_CRITICAL
| SYSTEMALARMS_ALARM_ERROR.

Inductive perf_counter :=
| counterAccelSamples | counterAccelPeriod | counterMagPeriod
| counterBaroPeriod | counterSensorPeriod | counterSensorResets.

Record AccelSensorData := mkAccelSensor {
  accel_x : float; accel_y : float; accel_z : float; accel_temp : float }.
Record GyroSensorData := mkGyroSensor {
  gyro_x : float; gyro_y : float; gyro_z : float; gyro_temp : float }.
Record MagSensorData := mkMagSensor {
  mag_x : float; mag_y : float; mag_z : float; mag_temp : float }.
Record AuxMagSensorData := mkAuxMagSensor {
  auxmag_x : float; auxmag_y : float; auxmag_z : float }.   (* Status = OK *)
Record BaroSensorData := mkBaroSensor {
  Altitude : float; Temperature : float; Pressure : float }.

(** The calls the task makes to its collaborators, in program order.
    [EvProcessSamples3d] is a ghost event marking an entry into
    [processSamples3d] with the sample count it divides by. *)
Inductive event :=
| EvAlarmsClear                                  (* AlarmsClear(SENSORS) *)
| EvAlarmsSet (severity : SystemAlarmsAlarm)     (* AlarmsSet(SENSORS, _) *)
| EvReloadWdg
| EvSettingsUpdated
| EvSensorTest (s : PIOS_SENSORS_Instance) (passed : bool)
| EvAssertFailed
| EvTaskDelay (ticks : Z)
| EvTaskDelayUntil (wake : Z)
| EvQueueReceive (s : PIOS_SENSORS_Instance) (timeout : Z) (received : bool)
| EvSensorPoll (s : PIOS_SENSORS_Instance) (ready : bool)
| EvSensorFetch (s : PIOS_SENSORS_Instance)
| EvSensorReset (s : PIOS_SENSORS_Instance)
| EvPerfTrackValue (counter : perf_counter) (value : Z)
| EvPerfMeasurePeriod (counter : perf_counter)
| EvProcessSamples3d (n : Z)
| EvAccelSensorSet (data : AccelSensorData)
| EvGyroSensorSet (data : GyroSensorData)
| EvMagSensorSet (data : MagSensorData)
| EvAuxMagSensorSet (data : AuxMagSensorData)
| EvBaroSensorSet (data : BaroSensorData).

(** Computations over the module state that log their effects. *)
Definition M (A : Type) : Type := globals -> A * globals * list event.

Definition ret {A} (x : A) : M A := fun g => (x, g, []).

Definition bind {A B} (m : M A) (k : A -> M B) : M B :=
  fun g =>
    let '(x, g1, t1) := m g in
    let '(y, g2, t2) := k x g1 in
    (y, g2, t1 ++ t2).

Definition emit (e : event) : M unit := fun g => (tt, g, [e]).
Definition get_cal : M calibration := fun g => (cal g, g, []).
Definition get_trk : M temp_tracking := fun g => (trk g, g, []).

Declare Scope monad_scope.
Delimit Scope monad_scope with monad.
Notation "x <- m ;; k" := (bind m (fun x => k))
  (at level 61, m at next level, right associativity) : monad_scope.
Notation "m ;; k" := (bind m (fun _ => k))
  (at level 61, right associativity) : monad_scope.
Open Scope monad_scope.

Definition result_of {A} (r : A * globals * list event) : A := fst (fst r).
Definition state_of {A} (r : A * globals * list event) : globals := snd (fst r).
Definition trace_of {A} (r : A * globals * list event) : list event := snd r.

(* ------------------------------------------------------------------ *)
(** ** Constants of the module *)

Section SensorsModule.
Context {P : Platform}.

(** [(uint32_t)(1000.0f / PIOS_SENSOR_RATE / (float)portTICK_RATE_MS)] *)
Definition sensor_period_ticks : Z :=
  wrap_u32 (Z_of_float
    (float_of_Z 1000 / PIOS_SENSOR_RATE / float_of_Z portTICK_RATE_MS)%f32).

(** [(int)((((PIOS_SENSOR_RATE < 76) ? 76 : PIOS_SENSOR_RATE) + 74) / 75)] *)
Definition aux_mag_skip_of_rate (rate : float) : Z :=
  Z_of_float
    (((if flt rate (float_of_Z 76) then float_of_Z 76 else rate)
      + float_of_Z 74) / float_of_Z 75)%f32.

Definition AUX_MAG_SKIP : Z := aux_mag_skip_of_rate PIOS_SENSOR_RATE.

Definition TEMP_CALIB_INTERVAL : Z := 30.
Definition TEMP_DT_GYRO_ACCEL : float := (f_1 / PIOS_SENSOR_RATE)%f32.
Definition TEMP_LPF_FC_GYRO_ACCEL : float := float_of_Z 5.
Definition temp_alpha_gyro_accel : float :=
  LPF_ALPHA TEMP_DT_GYRO_ACCEL TEMP_LPF_FC_GYRO_ACCEL.

Definition BARO_TEMP_CALIB_INTERVAL : Z := 10.
Definition TEMP_DT_BARO : float := (f_1 / float_of_Z 120)%f32.
Definition TEMP_LPF_FC_BARO : float := float_of_Z 5.
Definition temp_alpha_baro : float :=
  (TEMP_DT_BARO / (TEMP_DT_BARO + f_1 / (f_2 * M_PI_F * TEMP_LPF_FC_BARO)))%f32.

(* ------------------------------------------------------------------ *)
(** ** Temperature bias trackers *)

Definition updateAccelTempBias (c : calibration) (temperature : float)
    (t : temp_tracking) : temp_tracking :=
  let t := if isnan (accel_temperature t)
           then set_accel_temperature temperature t else t in
  let t := set_accel_temperature
             (temp_alpha_gyro_accel * (temperature - accel_temperature t)
              + accel_temperature t)%f32 t in
  let t :=
    if accel_temp_calibrated c && (accel_temp_calibration_count t =? 0) then
      let t := set_accel_temp_calibration_count TEMP_CALIB_INTERVAL t in
      if accel_temp_calibrated c then
        let ctemp := boundf (accel_temperature t)
                       (max (temp_calibrated_extent (agcal c)))
                       (min (temp_calibrated_extent (agcal c))) in
        set_accel_temp_bias
          (mkV3 (X (accel_temp_coeff (agcal c)) * ctemp)%f32
                (Y (accel_temp_coeff (agcal c)) * ctemp)%f32
                (Z_ (accel_temp_coeff (agcal c)) * ctemp)%f32) t
      else t
    else t in
  set_accel_temp_calibration_count
    (wrap_u8 (accel_temp_calibration_count t - 1)) t.

Definition updateGyroTempBias (c : calibration) (temperature : float)
    (t : temp_tracking) : temp_tracking :=
  let t := if isnan (gyro_temperature t)
           then set_gyro_temperature temperature t else t in
  let t := set_gyro_temperature
             (temp_alpha_gyro_accel * (temperature - gyro_temperature t)
              + gyro_temperature t)%f32 t in
  let t :=
    if gyro_temp_calibrated c && (gyro_temp_calibration_count t =? 0) then
      let t := set_gyro_temp_calibration_count TEMP_CALIB_INTERVAL t in
      if gyro_temp_calibrated c then
        let ctemp := boundf (gyro_temperature t)
                       (max (temp_calibrated_extent (agcal c)))
                       (min (temp_calibrated_extent (agcal c))) in
        let k := gyro_temp_coeff (agcal c) in
        set_gyro_temp_bias
          (mkV3 ((gX k + gX2 k * ctemp) * ctemp)%f32
                ((gY k + gY2 k * ctemp) * ctemp)%f32
                ((gZ k + gZ2 k * ctemp) * ctemp)%f32) t
      else t
    else t in
  set_gyro_temp_calibration_count
    (wrap_u8 (gyro_temp_calibration_count t - 1)) t.

Definition updateBaroTempBias (c : calibration) (temperature : float)
    (t : temp_tracking) : temp_tracking :=
  let t := if isnan (baro_temperature t)
           then set_baro_temperature temperature t else t in
  let t := set_baro_temperature
             (temp_alpha_baro * (temperature - baro_temperature t)
              + baro_temperature t)%f32 t in
  let t :=
    if baro_temp_correction_enabled c && (baro_temp_calibration_count t =? 0) then
      let t := set_baro_temp_calibration_count BARO_TEMP_CALIB_INTERVAL t in
      let ctemp := boundf (baro_temperature t)
                     (max (baroCorrectionExtent c))
                     (min (baroCorrectionExtent c)) in
      let k := baroCorrection c in
      set_baro_temp_bias
        (poly_a k + ((poly_d k * ctemp + poly_c k) * ctemp + poly_b k) * ctemp)%f32 t
    else t in
  set_baro_temp_calibration_count
    (wrap_u8 (baro_temp_calibration_count t - 1)) t.

(** Run a tracker update against the cached calibration. *)
Definition update_trk (f : calibration -> temp_tracking -> temp_tracking)
    : M unit :=
  fun g => (tt, mkGlobals (cal g) (f (cal g) (trk g)), []).

(* ------------------------------------------------------------------ *)
(** ** Channel handlers *)

(** In C the handlers also overwrite the caller's [samples] array with the
    rotated vector; the caller never reads it again before refilling it. *)
Definition handleAccel (samples : vec3f) (temperature : float) : M unit :=
  update_trk (fun c => updateAccelTempBias c temperature) ;;
  c <- get_cal ;;
  t <- get_trk ;;
  let accels_out :=
    mkV3 ((v0 samples - X (accel_bias (agcal c))) * X (accel_scale (agcal c))
          - v0 (accel_temp_bias t))%f32
         ((v1 samples - Y (accel_bias (agcal c))) * Y (accel_scale (agcal c))
          - v1 (accel_temp_bias t))%f32
         ((v2 samples - Z_ (accel_bias (agcal c))) * Z_ (accel_scale (agcal c))
          - v2 (accel_temp_bias t))%f32 in
  let samples := rot_mult (R c) accels_out in
  emit (EvAccelSensorSet
          (mkAccelSensor (v0 samples) (v1 samples) (v2 samples) temperature)).

Definition handleGyro (samples : vec3f) (temperature : float) : M unit :=
  update_trk (fun c => updateGyroTempBias c temperature) ;;
  c <- get_cal ;;
  t <- get_trk ;;
  let gyros_out :=
    mkV3 (v0 samples * X (gyro_scale (agcal c)) - X (gyro_bias (agcal c))
          - v0 (gyro_temp_bias t))%f32
         (v1 samples * Y (gyro_scale (agcal c)) - Y (gyro_bias (agcal c))
          - v1 (gyro_temp_bias t))%f32
         (v2 samples * Z_ (gyro_scale (agcal c)) - Z_ (gyro_bias (agcal c))
          - v2 (gyro_temp_bias t))%f32 in
  let samples := rot_mult (R c) gyros_out in
  emit (EvGyroSensorSet
          (mkGyroSensor (v0 samples) (v1 samples) (v2 samples) temperature)).

Definition handleMag (samples : vec3f) (temperature : float) : M unit :=
  c <- get_cal ;;
  let mags :=
    mkV3 (v0 samples - v0 (mag_bias c))%f32
         (v1 samples - v1 (mag_bias c))%f32
         (v2 samples - v2 (mag_bias c))%f32 in
  let samples := rot_mult (mag_transform c) mags in
  emit (EvMagSensorSet
          (mkMagSensor (v0 samples) (v1 samples) (v2 samples) temperature)).

Definition handleAuxMag (samples : vec3f) : M unit :=
  c <- get_cal ;;
  let mags :=
    mkV3 (v0 samples - v0 (auxmag_bias c))%f32
         (v1 samples - v1 (auxmag_bias c))%f32
         (v2 samples - v2 (auxmag_bias c))%f32 in
  let samples := rot_mult (auxmag_transform c) mags in
  emit (EvAuxMagSensorSet
          (mkAuxMagSensor (v0 samples) (v1 samples) (v2 samples))).

(** [44330.0f * (1.0f - powf(sample / STD_ATMOSPHERE, 1.0f / 5.255f))] *)
Definition baro_altitude (sample : float) : float :=
  (f_44330 * (f_1 - powf (sample / PIOS_CONST_MKS_STD_ATMOSPHERE_F)
                         (f_1 / f_5_255)))%f32.

Definition handleBaro (sample temperature : float) : M unit :=
  update_trk (fun c => updateBaroTempBias c temperature) ;;
  t <- get_trk ;;
  let sample := (sample - baro_temp_bias t)%f32 in
  let altitude := baro_altitude sample in
  if negb (isnan altitude) then
    emit (EvBaroSensorSet (mkBaroSensor altitude temperature sample))
  else ret tt.

(* ------------------------------------------------------------------ *)
(** ** Sample accumulation and averaging *)

Definition zero_v32 : Vector3i32 := mkV32 0 0 0.

Definition clearContext (_ : sensor_fetch_context) : sensor_fetch_context :=
  mkContext zero_v32 zero_v32 0 0.

Definition add_v32 (acc : Vector3i32) (s : Vector3i16) : Vector3i32 :=
  mkV32 (wrap_i32 (x32 acc + x16 s)) (wrap_i32 (y32 acc + y16 s))
        (wrap_i32 (z32 acc + z16 s)).

(** The loop over [i < MAX_SENSORS_PER_INSTANCE && i < sample->count],
    unrolled for the two slots. *)
Definition accumulateSamples (ctx : sensor_fetch_context) (sample : sensor_data)
    : sensor_fetch_context :=
  let s := sensorSample3Axis sample in
  let in_range i := (i <? MAX_SENSORS_PER_INSTANCE) && (i <? s3_count s) in
  mkContext
    (if in_range 0 then add_v32 (accum0 ctx) (s3_sample0 s) else accum0 ctx)
    (if in_range 1 then add_v32 (accum1 ctx) (s3_sample1 s) else accum1 ctx)
    (wrap_i32 (temperature ctx + s3_temperature s))
    (wrap_u32 (count ctx + 1)).

Definition mean_vector (acc : Vector3i32) (n : Z) (scale : float) : vec3f :=
  mkV3 (mean_axis (x32 acc) n scale) (mean_axis (y32 acc) n scale)
       (mean_axis (z32 acc) n scale).

Definition ACCEL_FLAG : Z := type_bits PIOS_SENSORS_TYPE_3AXIS_ACCEL.
Definition GYRO_FLAG : Z := type_bits PIOS_SENSORS_TYPE_3AXIS_GYRO.

(** The gyro part of [processSamples3d], reached directly or after the accel
    part of a combined instance. *)
Definition processSamples3d_gyro (ctx : sensor_fetch_context)
    (sensor : PIOS_SENSORS_Instance) : M unit :=
  let ty := sensor_type sensor in
  if type_has ty GYRO_FLAG then
    let scale := if type_is ty PIOS_SENSORS_TYPE_3AXIS_GYRO_ACCEL
                 then scales1 sensor else scales0 sensor in
    let acc := if type_is ty PIOS_SENSORS_TYPE_3AXIS_GYRO_ACCEL
               then accum1 ctx else accum0 ctx in
    handleGyro (mean_vector acc (count ctx) scale)
               (mean_temperature (temperature ctx) (count ctx))
  else ret tt.

Definition processSamples3d (ctx : sensor_fetch_context)
    (sensor : PIOS_SENSORS_Instance) : M unit :=
  emit (EvProcessSamples3d (count ctx)) ;;
  let ty := sensor_type sensor in
  if type_has ty ACCEL_FLAG
     || type_is ty PIOS_SENSORS_TYPE_3AXIS_MAG
     || type_is ty PIOS_SENSORS_TYPE_3AXIS_AUXMAG then
    let samples := mean_vector (accum0 ctx) (count ctx) (scales0 sensor) in
    let temp := mean_temperature (temperature ctx) (count ctx) in
    if type_is ty PIOS_SENSORS_TYPE_3AXIS_MAG then
      handleMag samples temp ;;
      emit (EvPerfMeasurePeriod counterMagPeriod)
    else if type_is ty PIOS_SENSORS_TYPE_3AXIS_AUXMAG then
      handleAuxMag samples ;;
      emit (EvPerfMeasurePeriod counterMagPeriod)
    else
      emit (EvPerfTrackValue counterAccelSamples (count ctx)) ;;
      emit (EvPerfMeasurePeriod counterAccelPeriod) ;;
      handleAccel samples temp ;;
      processSamples3d_gyro ctx sensor
  else processSamples3d_gyro ctx sensor.

Definition processSamples1d (sample : PIOS_SENSORS_1Axis_SensorsWithTemp)
    (sensor : PIOS_SENSORS_Instance) : M unit :=
  match sensor_type sensor with
  | PIOS_SENSORS_TYPE_1AXIS_BARO =>
      emit (EvPerfMeasurePeriod counterBaroPeriod) ;;
      handleBaro (s1_sample sample) (s1_temperature sample)
  | _ => emit EvAssertFailed
  end.

(* ------------------------------------------------------------------ *)
(** ** Settings callback *)

(** What the configuration store and the rotation library hand to
    [settingsUpdatedCb]: the settings objects, and the three matrices the
    callback obtains from the board rotation and level trim.  The variable
    [rotate], which the module sets and never reads, is left out. *)
Record settings_snapshot := mkSnapshot {
  store_mag_bias : vec3f;
  store_auxmag_bias : vec3f;
  store_agcal : AccelGyroSettingsData;
  computed_R : mat3f;
  computed_mag_transform : mat3f;
  computed_auxmag_transform : mat3f;
  store_baroCorrection : BaroPolynomial;
  store_baroCorrectionExtent : Extent
}.

Definition f_0_1 : float := (float_of_Z 1 / float_of_Z 10)%f32.
Definition f_1e_9 : float := (float_of_Z 1 / float_of_Z 1000000000)%f32.

Definition non_negligible (v : float) : bool := fgt (fabsf v) f_1e_9.

Definition extent_wide (e : Extent) : bool := fgt (max e - min e)%f32 f_0_1.

Definition settingsUpdatedCb (s : settings_snapshot) : M unit :=
  fun g =>
    let ag := store_agcal s in
    let k := gyro_temp_coeff ag in
    let p := store_baroCorrection s in
    (tt,
     mkGlobals
       {| agcal := ag;
          mag_bias := store_mag_bias s;
          mag_transform := computed_mag_transform s;
          auxmag_bias := store_auxmag_bias s;
          auxmag_transform := computed_auxmag_transform s;
          gyro_temp_calibrated :=
            extent_wide (temp_calibrated_extent ag)
            && (non_negligible (gX k) || non_negligible (gY k)
                || non_negligible (gZ k) || non_negligible (gZ2 k));
          accel_temp_calibrated :=
            extent_wide (temp_calibrated_extent ag)
            && (non_negligible (X (accel_temp_coeff ag))
                || non_negligible (Y (accel_temp_coeff ag))
                || non_negligible (Z_ (accel_temp_coeff ag)));
          R := computed_R s;
          baroCorrection := p;
          baroCorrectionExtent := store_baroCorrectionExtent s;
          baro_temp_correction_enabled :=
            extent_wide (store_baroCorrectionExtent s)
            && (non_negligible (poly_a p) || non_negligible (poly_b p)
                || non_negligible (poly_c p) || non_negligible (poly_d p)) |}
       (trk g),
     [EvSettingsUpdated]).

(* ------------------------------------------------------------------ *)
(** ** The sensor task *)

(** What the drivers deliver to one instance during one iteration: the
    items its queue yields before a receive fails, whether a poll finds
    data, and the data a fetch then writes. *)
Record sensor_feed := mkFeed {
  queued : list sensor_data;
  poll_ready : bool;
  fetched : sensor_data
}.

Definition empty_sample3 : PIOS_SENSORS_3Axis_SensorsWithTemp :=
  mkSample3 0 0 (mkV16 0 0 0) (mkV16 0 0 0).
Definition empty_data : sensor_data :=
  mkData empty_sample3 (mkSample1 f_0 f_0).
Definition empty_feed : sensor_feed := mkFeed [] false empty_data.

(** The inputs of one iteration: the tick count [xTaskGetTickCount] would
    return, and one feed per instance, in list order. *)
Record cycle_input := mkCycleInput {
  tick_now : Z;
  feeds : list sensor_feed
}.

(** The local variables of [SensorsTask]. *)
Record task_locals := mkLocals {
  lastSysTime : Z;                      (* portTickType *)
  sensor_context : sensor_fetch_context;
  error : bool;
  aux_mag_skip : Z;                     (* uint8_t *)
  reset_counter : Z                     (* uint32_t *)
}.

Definition set_lastSysTime (v : Z) (l : task_locals) :=
  mkLocals v (sensor_context l) (error l) (aux_mag_skip l) (reset_counter l).
Definition set_sensor_context (v : sensor_fetch_context) (l : task_locals) :=
  mkLocals (lastSysTime l) v (error l) (aux_mag_skip l) (reset_counter l).
Definition set_error (v : bool) (l : task_locals) :=
  mkLocals (lastSysTime l) (sensor_context l) v (aux_mag_skip l) (reset_counter l).
Definition set_aux_mag_skip (v : Z) (l : task_locals) :=
  mkLocals (lastSysTime l) (sensor_context l) (error l) v (reset_counter l).
Definition set_reset_counter (v : Z) (l : task_locals) :=
  mkLocals (lastSysTime l) (sensor_context l) (error l) (aux_mag_skip l) v.

(** [vTaskDelayUntil(&lastSysTime, sensor_period_ticks)] *)
Definition vTaskDelayUntil (l : task_locals) : M task_locals :=
  let wake := wrap_u32 (lastSysTime l + sensor_period_ticks) in
  emit (EvTaskDelayUntil wake) ;;
  ret (set_lastSysTime wake l).

(** The receive loop on an instance's queue.  The primary instance blocks
    for up to one period while nothing has been accumulated. *)
Fixpoint drain_queue (sensor : PIOS_SENSORS_Instance) (is_primary : bool)
    (items : list sensor_data) (ctx : sensor_fetch_context)
    : M sensor_fetch_context :=
  let timeout :=
    if is_primary && (count ctx =? 0) then sensor_period_ticks else 0 in
  match items with
  | [] => emit (EvQueueReceive sensor timeout false) ;; ret ctx
  | item :: rest =>
      emit (EvQueueReceive sensor timeout true) ;;
      drain_queue sensor is_primary rest (accumulateSamples ctx item)
  end.

(** The body of the loop over the sensor list. *)
Definition visit_sensor (sensor : PIOS_SENSORS_Instance) (feed : sensor_feed)
    (l : task_locals) : M task_locals :=
  let ty := sensor_type sensor in
  let is_primary := type_has ty ACCEL_FLAG in
  if negb (type_is ty PIOS_SENSORS_TYPE_3AXIS_AUXMAG) || (aux_mag_skip l =? 0)
  then
    if negb (is_polled sensor) then
      ctx <- drain_queue sensor is_primary (queued feed) (sensor_context l) ;;
      let l := set_sensor_context ctx l in
      if negb (count ctx =? 0) then
        processSamples3d ctx sensor ;;
        ret (set_sensor_context (clearContext ctx) l)
      else if is_primary then
        emit (EvSensorReset sensor) ;;
        let l := set_reset_counter (wrap_u32 (reset_counter l + 1)) l in
        emit (EvPerfTrackValue counterSensorResets (reset_counter l)) ;;
        ret (set_error true l)
      else ret l
    else
      emit (EvSensorPoll sensor (poll_ready feed)) ;;
      if poll_ready feed then
        emit (EvSensorFetch sensor) ;;
        l <- (if type_has ty PIOS_SENSORS_TYPE_3D then
                let ctx := accumulateSamples (sensor_context l) (fetched feed) in
                processSamples3d ctx sensor ;;
                ret (set_sensor_context ctx l)
              else
                processSamples1d (sensorSample1Axis (fetched feed)) sensor ;;
                ret l) ;;
        ret (set_sensor_context (clearContext (sensor_context l)) l)
      else ret l
  else ret l.

(** [LL_FOREACH(sensors_list, sensor)]; an instance without a feed gets the
    empty one. *)
Fixpoint foreach_sensor (sensors : list PIOS_SENSORS_Instance)
    (fs : list sensor_feed) (l : task_locals) : M task_locals :=
  match sensors with
  | [] => ret l
  | sensor :: rest =>
      l <- visit_sensor sensor (hd empty_feed fs) l ;;
      foreach_sensor rest (tl fs) l
  end.

(** The opening of an iteration: the recovery delay and alarm after a stall,
    or the clearing of the alarm. *)
Definition cycle_prologue (now : Z) (l : task_locals) : M task_locals :=
  if error l then
    emit EvReloadWdg ;;
    l <- vTaskDelayUntil (set_lastSysTime now l) ;;
    emit (EvAlarmsSet SYSTEMALARMS_ALARM_CRITICAL) ;;
    ret (set_error false l)
  else
    emit EvAlarmsClear ;;
    ret l.

(** One iteration of the main loop. *)
Definition SensorsTask_cycle (sensors : list PIOS_SENSORS_Instance)
    (inp : cycle_input) (l : task_locals) : M task_locals :=
  l <- cycle_prologue (tick_now inp) l ;;
  let l := set_sensor_context (clearContext (sensor_context l)) l in
  let l := set_aux_mag_skip
             (wrap_u8 (Z.rem (aux_mag_skip l + 1) AUX_MAG_SKIP)) l in
  l <- foreach_sensor sensors (feeds inp) l ;;
  emit (EvPerfMeasurePeriod counterSensorPeriod) ;;
  emit EvReloadWdg ;;
  vTaskDelayUntil l.

(** Where the task is after its start-up: in the main loop, halted in the
    delay loop that follows a failed self-test, or stopped by the failed
    assertion on the number of instances. *)
Inductive task_phase := Running | CriticalFault | AssertFailed.

Record task_state := mkTask { phase : task_phase; locals : task_locals }.

(** What the start-up receives: the settings, the result of each instance's
    self-test in list order (a missing result counts as a failure), and the
    tick count read before the main loop. *)
Record boot_input := mkBootInput {
  boot_settings : settings_snapshot;
  test_results : list bool;
  boot_tick : Z
}.

(** The self-test loop: returns [sensors_test] and the [uint8_t] count. *)
Fixpoint test_sensors (sensors : list PIOS_SENSORS_Instance)
    (results : list bool) (sensors_test : bool) (n : Z) : M (bool * Z) :=
  match sensors with
  | [] => ret (sensors_test, n)
  | sensor :: rest =>
      let passed := hd false results in
      emit EvReloadWdg ;;
      emit (EvSensorTest sensor passed) ;;
      test_sensors rest (tl results) (sensors_test && passed) (wrap_u8 (n + 1))
  end.

Definition initial_locals : task_locals :=
  mkLocals 0 (mkContext zero_v32 zero_v32 0 0) false 0 0.

(** [SensorsTask] up to the main loop.  The initialisation of the performance
    counters, which no later step reads, is left out. *)
Definition SensorsTask_boot (sensors : list PIOS_SENSORS_Instance)
    (inp : boot_input) : M task_state :=
  emit EvAlarmsClear ;;
  settingsUpdatedCb (boot_settings inp) ;;
  r <- test_sensors sensors (test_results inp) true 0 ;;
  let '(sensors_test, n) := r in
  if n =? 0 then
    emit EvAssertFailed ;;
    ret (mkTask AssertFailed initial_locals)
  else
    emit EvReloadWdg ;;
    if negb sensors_test then
      emit (EvAlarmsSet SYSTEMALARMS_ALARM_CRITICAL) ;;
      ret (mkTask CriticalFault initial_locals)
    else
      ret (mkTask Running (set_lastSysTime (boot_tick inp) initial_locals)).

(** One turn of whichever loop the task is in. *)
Definition SensorsTask_step (sensors : list PIOS_SENSORS_Instance)
    (inp : cycle_input) (st : task_state) : M task_state :=
  match phase st with
  | Running =>
      l <- SensorsTask_cycle sensors inp (locals st) ;;
      ret (mkTask Running l)
  | CriticalFault =>
      emit (EvTaskDelay 10) ;;
      ret st
  | AssertFailed => ret st
  end.

Fixpoint SensorsTask_steps (sensors : list PIOS_SENSORS_Instance)
    (inps : list cycle_input) (st : task_state) : M task_state :=
  match inps with
  | [] => ret st
  | inp :: rest =>
      st <- SensorsTask_step sensors inp st ;;
      SensorsTask_steps sensors rest st
  end.

(** The task from its entry, for as many loop turns as there are inputs. *)
Definition SensorsTask (sensors : list PIOS_SENSORS_Instance)
    (boot : boot_input) (inps : list cycle_input) : M task_state :=
  st <- SensorsTask_boot sensors boot ;;
  SensorsTask_steps sensors inps st.

(** What reaches the module while it runs: a turn of the task's loop, or a
    change of one of the settings objects.  [SensorsInitialize] connects
    [settingsUpdatedCb] to the calibration, attitude and sensor settings
    objects, so every such change runs the callback, in the context of the
    event dispatcher and not of the task. *)
Inductive task_input :=
| Turn (inp : cycle_input)
| SettingsUpdate (s : settings_snapshot).

(** A stretch of the task's life in which settings updates arrive between
    turns of its loop. *)
Fixpoint SensorsTask_run (sensors : list PIOS_SENSORS_Instance)
    (ins : list task_input) (st : task_state) : M task_state :=
  match ins with
  | [] => ret st
  | Turn inp :: rest =>
      st <- SensorsTask_step sensors inp st ;;
      SensorsTask_run sensors rest st
  | SettingsUpdate s :: rest =>
      settingsUpdatedCb s ;;
      SensorsTask_run sensors rest st
  end.

(** The task from its entry, with the settings updates that arrive after
    its start-up. *)
Definition SensorsTask_with_updates (sensors : list PIOS_SENSORS_Instance)
    (boot : boot_input) (ins : list task_input) : M task_state :=
  st <- SensorsTask_boot sensors boot ;;
  SensorsTask_run sensors ins st.

End SensorsModule.

(* ------------------------------------------------------------------ *)
(** ** A concrete platform

    The constants of a board sampling at 500 Hz with a 1 ms tick.  [powf]
    is given only by the special cases of ISO C Annex F that the contract
    [C99_powf] names; its value at ordinary arguments plays no part below. *)

Definition powf_special (base e : float) : float :=
  match base with
  | S754_nan => NAN
  | S754_zero _ =>
      if fgt e f_0 && negb (is_integral e) then S754_zero false else f_1
  | S754_finite true _ _ =>
      if is_finite e && negb (is_integral e) then NAN else f_1
  | _ => f_1
  end.

Definition board_500Hz : Platform :=
  {| PIOS_SENSOR_RATE := float_of_Z 500;
     portTICK_RATE_MS := 1;
     M_PI_F := S754_finite false 13176795 (-22);
     PIOS_CONST_MKS_STD_ATMOSPHERE_F := float_of_Z 101325;
     powf := powf_special |}.

(* ------------------------------------------------------------------ *)
(** ** Notions used to state the properties *)

(** The C comparison [a == b]. *)
Definition feq (a b : float) : bool := SFeqb a b.

(** One step of the exponential low-pass filter, as the specification writes
    it: [filtered += alpha * (raw - filtered)]. *)
Definition lowpass_step (alpha raw filtered : float) : float :=
  (filtered + alpha * (raw - filtered))%f32.

(** Clamping into [[lo, hi]], as the specification words it: below [lo] clip
    to [lo], above [hi] clip to [hi], otherwise the value itself. *)
Definition clamp_to_extent (t lo hi : float) : float :=
  if flt t lo then lo else if fgt t hi then hi else t.

(** The three calibration polynomials. *)
Definition accel_polynomial (k : XYZ) (t : float) : vec3f :=
  mkV3 (X k * t)%f32 (Y k * t)%f32 (Z_ k * t)%f32.

Definition gyro_polynomial (k : GyroTempCoeff) (t : float) : vec3f :=
  mkV3 ((gX k + gX2 k * t) * t)%f32 ((gY k + gY2 k * t) * t)%f32
       ((gZ k + gZ2 k * t) * t)%f32.

Definition baro_polynomial (k : BaroPolynomial) (t : float) : float :=
  (poly_a k + ((poly_d k * t + poly_c k) * t + poly_b k) * t)%f32.

(** The value a tracker filters from: the raw reading on the first call,
    when the stored estimate is still the initial NaN, the stored estimate
    afterwards. *)
Definition filter_base (stored raw : float) : float :=
  if isnan stored then raw else stored.

(** The state of a tracker after a sequence of calls, each made under the
    calibration in force at that moment. *)
Definition tracker_after
    (update : calibration -> float -> temp_tracking -> temp_tracking)
    (calls : list (calibration * float)) (t : temp_tracking)
    : temp_tracking :=
  fold_left (fun s call => update (fst call) (snd call) s) calls t.

(** The recomputation cadence of one tracker, given its enabling flag, its
    countdown, its bias and its interval [N]:
    - the countdown goes down by one on every call (modulo 256), from [N]
      when the bias is recomputed and from its own value otherwise;
    - the bias is left as it is on a call that finds the flag off or the
      countdown not at zero;
    - over any [N] consecutive calls -- a first one, those in between and a
      last one -- a change of the bias at the first excludes one at the
      last;
    - calls made with the flag off never change the bias. *)
Definition tracker_cadence {B : Type}
    (update : calibration -> float -> temp_tracking -> temp_tracking)
    (enabled : calibration -> bool) (countdown : temp_tracking -> Z)
    (bias : temp_tracking -> B) (N : Z) : Prop :=
  (forall c x t,
      countdown (update c x t) =
      wrap_u8 ((if enabled c && (countdown t =? 0) then N else countdown t) - 1))
  /\ (forall c x t,
      enabled c && (countdown t =? 0) = false -> bias (update c x t) = bias t)
  /\ (forall before first between last t,
      Z.of_nat (length between) + 2 <= N ->
      let s0 := tracker_after update before t in
      let s1 := update (fst first) (snd first) s0 in
      let s2 := tracker_after update between s1 in
      let s3 := update (fst last) (snd last) s2 in
      bias s1 <> bias s0 -> bias s3 = bias s2)
  /\ (forall calls t,
      Forall (fun call => enabled (fst call) = false) calls ->
      bias (tracker_after update calls t) = bias t).

(** The sum of a quantity over the raw samples of an iteration. *)
Definition sum_over (f : sensor_data -> Z) (items : list sensor_data) : Z :=
  fold_right (fun item acc => f item + acc) 0 items.

Definition raw_temperature (item : sensor_data) : Z :=
  s3_temperature (sensorSample3Axis item).

(** What a raw sample contributes to an axis of the first and of the second
    accumulator: the axis of its vector when the sample carries that vector,
    nothing otherwise. *)
Definition slot0 (axis : Vector3i16 -> Z) (item : sensor_data) : Z :=
  let s := sensorSample3Axis item in
  if (0 <? MAX_SENSORS_PER_INSTANCE) && (0 <? s3_count s)
  then axis (s3_sample0 s) else 0.

Definition slot1 (axis : Vector3i16 -> Z) (item : sensor_data) : Z :=
  let s := sensorSample3Axis item in
  if (1 <? MAX_SENSORS_PER_INSTANCE) && (1 <? s3_count s)
  then axis (s3_sample1 s) else 0.

Definition in_int32 (z : Z) : Prop := - 2 ^ 31 <= z < 2 ^ 31.

(** Instrumentation and publications: the events that carry data out of
    the task but say nothing about its control flow. *)
Definition quiet (e : event) : bool :=
  match e with
  | EvPerfTrackValue _ _ | EvPerfMeasurePeriod _
  | EvAccelSensorSet _ | EvGyroSensorSet _ | EvMagSensorSet _
  | EvAuxMagSensorSet _ | EvBaroSensorSet _ => true
  | _ => false
  end.

(** A trace with the quiet events left out. *)
Definition loud (t : list event) : list event :=
  filter (fun e => negb (quiet e)) t.

Definition is_reset (e : event) : bool :=
  match e with EvSensorReset _ => true | _ => false end.

Definition is_alarm (e : event) : bool :=
  match e with EvAlarmsSet _ | EvAlarmsClear => true | _ => false end.

Definition is_delay_until (e : event) : bool :=
  match e with EvTaskDelayUntil _ => true | _ => false end.

(** An access to the driver of an auxiliary magnetometer. *)
Definition is_auxmag_access (e : event) : bool :=
  match e with
  | EvQueueReceive s _ _ | EvSensorPoll s _ =>
      type_is (sensor_type s) PIOS_SENSORS_TYPE_3AXIS_AUXMAG
  | _ => false
  end.

(** An access to the driver of the instance [s]. *)
Definition accesses (s : PIOS_SENSORS_Instance) (e : event) : Prop :=
  (exists timeout received, e = EvQueueReceive s timeout received)
  \/ (exists ready, e = EvSensorPoll s ready).

(** An entry into [processSamples3d] is sound when the count it divides by
    is a positive [uint32_t]. *)
Definition sound_division (e : event) : Prop :=
  match e with
  | EvProcessSamples3d n => 0 < n < 2 ^ 32
  | _ => True
  end.

(** The events the loop over the sensor list can produce, handlers apart. *)
Definition sensor_event (e : event) : bool :=
  match e with
  | EvQueueReceive _ _ _ | EvSensorPoll _ _ | EvSensorFetch _
  | EvProcessSamples3d _ | EvSensorReset _ => true
  | _ => false
  end.

Definition is_critical_alarm (e : event) : bool :=
  match e with EvAlarmsSet SYSTEMALARMS_ALARM_CRITICAL => true | _ => false end.

Definition is_warning_alarm (e : event) : bool :=
  match e with EvAlarmsSet SYSTEMALARMS_ALARM_WARNING => true | _ => false end.

Definition is_auxmag (s : PIOS_SENSORS_Instance) : bool :=
  type_is (sensor_type s) PIOS_SENSORS_TYPE_3AXIS_AUXMAG.

Definition is_primary_instance (s : PIOS_SENSORS_Instance) : bool :=
  type_has (sensor_type s) ACCEL_FLAG.

(** Whether every instance passes its self-test (a missing result counts as
    a failure). *)
Fixpoint all_passed (sensors : list PIOS_SENSORS_Instance) (results : list bool)
    : bool :=
  match sensors with
  | [] => true
  | _ :: rest => hd false results && all_passed rest (tl results)
  end.

Fixpoint test_events (sensors : list PIOS_SENSORS_Instance) (results : list bool)
    : list event :=
  match sensors with
  | [] => []
  | sensor :: rest =>
      EvReloadWdg :: EvSensorTest sensor (hd false results)
      :: test_events rest (tl results)
  end.

Section Outcome.
Context {P : Platform}.

(** The control flow of the loop body with the handlers left out: how the
    local variables evolve and which loud events occur.  Neither depends on
    the module state. *)
Definition drain_context (items : list sensor_data) (ctx : sensor_fetch_context)
    : sensor_fetch_context :=
  fold_left accumulateSamples items ctx.

Fixpoint drain_events (sensor : PIOS_SENSORS_Instance) (is_primary : bool)
    (items : list sensor_data) (ctx : sensor_fetch_context) : list event :=
  let timeout :=
    if is_primary && (count ctx =? 0) then sensor_period_ticks else 0 in
  match items with
  | [] => [EvQueueReceive sensor timeout false]
  | item :: rest =>
      EvQueueReceive sensor timeout true
      :: drain_events sensor is_primary rest (accumulateSamples ctx item)
  end.

Definition visit_outcome (sensor : PIOS_SENSORS_Instance) (feed : sensor_feed)
    (l : task_locals) : task_locals * list event :=
  let ty := sensor_type sensor in
  let is_primary := type_has ty ACCEL_FLAG in
  if negb (type_is ty PIOS_SENSORS_TYPE_3AXIS_AUXMAG) || (aux_mag_skip l =? 0)
  then
    if negb (is_polled sensor) then
      let ctx := drain_context (queued feed) (sensor_context l) in
      let evs := drain_events sensor is_primary (queued feed) (sensor_context l) in
      let l := set_sensor_context ctx l in
      if negb (count ctx =? 0) then
        (set_sensor_context (clearContext ctx) l,
         evs ++ [EvProcessSamples3d (count ctx)])
      else if is_primary then
        (set_error true (set_reset_counter (wrap_u32 (reset_counter l + 1)) l),
         evs ++ [EvSensorReset sensor])
      else (l, evs)
    else if poll_ready feed then
      let ctx := accumulateSamples (sensor_context l) (fetched feed) in
      (set_sensor_context (clearContext ctx) l,
       EvSensorPoll sensor true :: EvSensorFetch sensor
       :: (if type_has ty PIOS_SENSORS_TYPE_3D
           then [EvProcessSamples3d (count ctx)] else []))
    else (l, [EvSensorPoll sensor false])
  else (l, []).

Fixpoint foreach_outcome (sensors : list PIOS_SENSORS_Instance)
    (fs : list sensor_feed) (l : task_locals) : task_locals * list event :=
  match sensors with
  | [] => (l, [])
  | sensor :: rest =>
      let '(l1, t1) := visit_outcome sensor (hd empty_feed fs) l in
      let '(l2, t2) := foreach_outcome rest (tl fs) l1 in
      (l2, t1 ++ t2)
  end.

(** The local variables as the sensor loop finds them in an iteration. *)
Definition at_loop_entry (now : Z) (l : task_locals) : task_locals :=
  let l := if error l
           then set_error false
                  (set_lastSysTime (wrap_u32 (now + sensor_period_ticks)) l)
           else l in
  set_aux_mag_skip (wrap_u8 (Z.rem (aux_mag_skip l + 1) AUX_MAG_SKIP))
    (set_sensor_context (clearContext (sensor_context l)) l).

(** The loud events that open an iteration. *)
Definition prologue_events (now : Z) (l : task_locals) : list event :=
  if error l
  then [EvReloadWdg; EvTaskDelayUntil (wrap_u32 (now + sensor_period_ticks));
        EvAlarmsSet SYSTEMALARMS_ALARM_CRITICAL]
  else [EvAlarmsClear].

End Outcome.

(** The traces of consecutive iterations of the main loop, one per input. *)
Fixpoint cycle_traces `{Platform} (sensors : list PIOS_SENSORS_Instance)
    (inps : list cycle_input) (l : task_locals) (g : globals)
    : list (list event) :=
  match inps with
  | [] => []
  | inp :: rest =>
      let r := SensorsTask_cycle sensors inp l g in
      trace_of r :: cycle_traces sensors rest (result_of r) (state_of r)
  end.

(** Whether an iteration with this trace processed the auxiliary
    magnetometer. *)
Definition processes_auxmag (t : list event) : bool := existsb is_auxmag_access t.

(** The least [k] with [n <= 75 * k], that is [ceil(n / 75)]. *)
Definition ceil_div_75 (n k : Z) : Prop :=
  n <= 75 * k /\ forall j, n <= 75 * j -> k <= j.

(* ------------------------------------------------------------------ *)
(** ** Further notions: state, publications, timing *)

(** The variables of one tracker, taken together. *)
Definition accel_part (t : temp_tracking) : float * vec3f * Z :=
  (accel_temperature t, accel_temp_bias t, accel_temp_calibration_count t).
Definition gyro_part (t : temp_tracking) : float * vec3f * Z :=
  (gyro_temperature t, gyro_temp_bias t, gyro_temp_calibration_count t).
Definition baro_part (t : temp_tracking) : float * float * Z :=
  (baro_temperature t, baro_temp_bias t, baro_temp_calibration_count t).

(** A record handed to one of the publishing sinks. *)
Definition is_publication (e : event) : bool :=
  match e with
  | EvAccelSensorSet _ | EvGyroSensorSet _ | EvMagSensorSet _
  | EvAuxMagSensorSet _ | EvBaroSensorSet _ => true
  | _ => false
  end.

Definition is_wdg_reload (e : event) : bool :=
  match e with EvReloadWdg => true | _ => false end.

Definition is_assert_failure (e : event) : bool :=
  match e with EvAssertFailed => true | _ => false end.

(** The timeouts of the queue receives of a trace, in order. *)
Fixpoint receive_timeouts (t : list event) : list Z :=
  match t with
  | [] => []
  | EvQueueReceive _ timeout _ :: rest => timeout :: receive_timeouts rest
  | _ :: rest => receive_timeouts rest
  end.

(** The self-tests of a trace, in order, with their results. *)
Fixpoint self_tests (t : list event) : list (PIOS_SENSORS_Instance * bool) :=
  match t with
  | [] => []
  | EvSensorTest s passed :: rest => (s, passed) :: self_tests rest
  | _ :: rest => self_tests rest
  end.

(** The severities of the alarm raisings of a trace, in order. *)
Fixpoint raised_severities (t : list event) : list SystemAlarmsAlarm :=
  match t with
  | [] => []
  | EvAlarmsSet severity :: rest => severity :: raised_severities rest
  | _ :: rest => raised_severities rest
  end.

(** The counts [processSamples3d] was entered with, in order. *)
Fixpoint division_counts (t : list event) : list Z :=
  match t with
  | [] => []
  | EvProcessSamples3d n :: rest => n :: division_counts rest
  | _ :: rest => division_counts rest
  end.

(** Whether the queue of an instance delivers something this iteration:
    between 1 and 2^32 - 1 items, so that the [uint32_t] count is not zero. *)
Definition delivers (feed : sensor_feed) : bool :=
  (0 <? Z.of_nat (length (queued feed)))
  && (Z.of_nat (length (queued feed)) <? 2 ^ 32).

(** Whether every queue-fed instance carrying the accelerometer delivers. *)
Fixpoint primaries_deliver (sensors : list PIOS_SENSORS_Instance)
    (fs : list sensor_feed) : bool :=
  match sensors with
  | [] => true
  | sensor :: rest =>
      (if is_primary_instance sensor && negb (is_polled sensor)
       then delivers (hd empty_feed fs) else true)
      && primaries_deliver rest (tl fs)
  end.

(** Whether an instance has no data for the task this iteration: its poll
    is not ready, its queue is empty and it does not carry the
    accelerometer, or it is an auxiliary magnetometer on a skipped turn. *)
Definition no_data (sensor : PIOS_SENSORS_Instance) (feed : sensor_feed)
    (l : task_locals) : bool :=
  (is_auxmag sensor && negb (aux_mag_skip l =? 0))
  || (is_polled sensor && negb (poll_ready feed))
  || (negb (is_polled sensor) && negb (is_primary_instance sensor)
      && match queued feed with [] => true | _ => false end).

Definition zero_context : sensor_fetch_context :=
  mkContext zero_v32 zero_v32 0 0.

(** The countdown of a tracker runs modulo [M] over calls whose enabling
    flag is [flag]: after [n] such calls it has gone down by [n] modulo [M]. *)
Definition countdown_modulo
    (update : calibration -> float -> temp_tracking -> temp_tracking)
    (enabled : calibration -> bool) (countdown : temp_tracking -> Z)
    (flag : bool) (M : Z) : Prop :=
  forall calls t,
    Forall (fun call => enabled (fst call) = flag) calls ->
    0 <= countdown t < M ->
    countdown (tracker_after update calls t)
    = (countdown t - Z.of_nat (length calls)) mod M.

(** The bias a recomputation stores: the channel's polynomial at the freshly
    filtered temperature bounded by the calibrated extent. *)
Definition accel_fresh_bias `{Platform} (c : calibration) (x : float)
    (t : temp_tracking) : vec3f :=
  accel_polynomial (accel_temp_coeff (agcal c))
    (boundf (accel_temperature (updateAccelTempBias c x t))
       (max (temp_calibrated_extent (agcal c)))
       (min (temp_calibrated_extent (agcal c)))).

Definition gyro_fresh_bias `{Platform} (c : calibration) (x : float)
    (t : temp_tracking) : vec3f :=
  gyro_polynomial (gyro_temp_coeff (agcal c))
    (boundf (gyro_temperature (updateGyroTempBias c x t))
       (max (temp_calibrated_extent (agcal c)))
       (min (temp_calibrated_extent (agcal c)))).

Definition baro_fresh_bias `{Platform} (c : calibration) (x : float)
    (t : temp_tracking) : float :=
  baro_polynomial (baroCorrection c)
    (boundf (baro_temperature (updateBaroTempBias c x t))
       (max (baroCorrectionExtent c)) (min (baroCorrectionExtent c))).

(** The schedule of an enabled tracker with interval [N].  After any run of
    calls made with the flag on, from a countdown below [N], the countdown
    has gone down by their number modulo [N]; the next call made with the
    flag on stores a fresh bias if that makes the countdown zero, and leaves
    the bias as it is otherwise. *)
Definition recompute_schedule {B : Type}
    (update : calibration -> float -> temp_tracking -> temp_tracking)
    (enabled : calibration -> bool) (countdown : temp_tracking -> Z)
    (bias : temp_tracking -> B)
    (fresh : calibration -> float -> temp_tracking -> B) (N : Z) : Prop :=
  forall calls c x t,
    Forall (fun call => enabled (fst call) = true) calls ->
    enabled c = true ->
    0 <= countdown t < N ->
    let s := tracker_after update calls t in
    let left := (countdown t - Z.of_nat (length calls)) mod N in
    countdown s = left
    /\ bias (update c x s) = if left =? 0 then fresh c x s else bias s.

(** What switching a correction on at run time does.  A run [off] of calls
    made with the flag off leaves the bias alone and the countdown at
    [d = (countdown - length off) mod 256]; the [d] calls that follow,
    whatever their flags, still leave the bias alone; the call after them,
    made with the flag on, is the first to store a fresh bias. *)
Definition deferred_enabling {B : Type}
    (update : calibration -> float -> temp_tracking -> temp_tracking)
    (enabled : calibration -> bool) (countdown : temp_tracking -> Z)
    (bias : temp_tracking -> B)
    (fresh : calibration -> float -> temp_tracking -> B) : Prop :=
  forall off later c x t,
    Forall (fun call => enabled (fst call) = false) off ->
    enabled c = true ->
    0 <= countdown t < 256 ->
    let s := tracker_after update off t in
    let d := (countdown t - Z.of_nat (length off)) mod 256 in
    countdown s = d
    /\ bias s = bias t
    /\ (Z.of_nat (length later) <= d ->
        bias (tracker_after update later s) = bias t)
    /\ (Z.of_nat (length later) = d ->
        bias (update c x (tracker_after update later s))
        = fresh c x (tracker_after update later s)).

(** The settings the callback has last been run on: those of the start-up,
    or of the most recent update. *)
Definition settings_in_force (s0 : settings_snapshot) (ins : list task_input)
    : settings_snapshot :=
  fold_left (fun s i => match i with SettingsUpdate s' => s' | Turn _ => s end)
            ins s0.

(** Whether the gyro coefficients that the callback looks at, the linear
    ones and the quadratic one of the third axis, are all negligible. *)
Definition gyro_tested_negligible (s : settings_snapshot) : bool :=
  let k := gyro_temp_coeff (store_agcal s) in
  negb (non_negligible (gX k) || non_negligible (gY k)
        || non_negligible (gZ k) || non_negligible (gZ2 k)).

(** Whether every settings update of a run has them negligible. *)
Definition updates_gyro_negligible (ins : list task_input) : Prop :=
  Forall (fun i => match i with
                   | SettingsUpdate s => gyro_tested_negligible s = true
                   | Turn _ => True
                   end) ins.

(** A queue that yields fewer items than a [uint32_t] can count. *)
Definition short_queue (feed : sensor_feed) : Prop :=
  Z.of_nat (length (queued feed)) < 2 ^ 32.

(** A binary32 number in its canonical representation. *)
Definition valid_float (x : float) : bool := valid_binary prec32 emax32 x.

(* ------------------------------------------------------------------ *)
(** ** Concrete inputs, for the worked instances *)

Definition identity3 : mat3f :=
  mkM3 (mkV3 f_1 f_0 f_0) (mkV3 f_0 f_1 f_0) (mkV3 f_0 f_0 f_1).

Definition unit_xyz : XYZ := mkXYZ f_1 f_1 f_1.
Definition zero_xyz : XYZ := mkXYZ f_0 f_0 f_0.

(** A calibration with every temperature correction enabled over the extent
    [[0, 50]] degrees. *)
Definition sample_agcal : AccelGyroSettingsData :=
  mkAccelGyroSettings zero_xyz unit_xyz zero_xyz unit_xyz
    (mkXYZ f_1 f_2 f_1) (mkGyroTempCoeff f_1 f_1 f_1 f_2 f_2 f_2)
    (mkExtent f_0 (float_of_Z 50)).

Definition sample_calibration : calibration :=
  {| agcal := sample_agcal;
     mag_bias := zero3; mag_transform := identity3;
     auxmag_bias := zero3; auxmag_transform := identity3;
     gyro_temp_calibrated := true; accel_temp_calibrated := true;
     R := identity3;
     baroCorrection := mkBaroPolynomial f_1 f_1 f_1 f_1;
     baroCorrectionExtent := mkExtent f_0 (float_of_Z 50);
     baro_temp_correction_enabled := true |}.

(** The same with the corrections switched off. *)
Definition plain_calibration : calibration :=
  {| agcal := sample_agcal;
     mag_bias := zero3; mag_transform := identity3;
     auxmag_bias := zero3; auxmag_transform := identity3;
     gyro_temp_calibrated := false; accel_temp_calibrated := false;
     R := identity3;
     baroCorrection := mkBaroPolynomial f_0 f_0 f_0 f_0;
     baroCorrectionExtent := mkExtent f_0 f_0;
     baro_temp_correction_enabled := false |}.

Definition plain_globals : globals := mkGlobals plain_calibration initial_tracking.

Definition f_25 : float := float_of_Z 25.

Definition accel_instance : PIOS_SENSORS_Instance :=
  mkInstance PIOS_SENSORS_TYPE_3AXIS_ACCEL false f_1 f_1.
Definition auxmag_instance : PIOS_SENSORS_Instance :=
  mkInstance PIOS_SENSORS_TYPE_3AXIS_AUXMAG false f_1 f_1.
Definition baro_instance : PIOS_SENSORS_Instance :=
  mkInstance PIOS_SENSORS_TYPE_1AXIS_BARO true f_1 f_1.

Definition sample_settings : settings_snapshot :=
  mkSnapshot zero3 zero3 sample_agcal identity3 identity3 identity3
    (mkBaroPolynomial f_1 f_1 f_1 f_1) (mkExtent f_0 (float_of_Z 50)).

(** A start-up in which the second of two instances fails its self-test. *)
Definition failing_boot : boot_input := mkBootInput sample_settings [true; false] 100.
Definition passing_boot : boot_input := mkBootInput sample_settings [true; true] 100.

(** A raw 3-axis sample (1, 2, 3) at 25.00 degrees. *)
Definition one_sample : sensor_data :=
  mkData (mkSample3 1 2500 (mkV16 1 2 3) (mkV16 0 0 0)) (mkSample1 f_25 f_0).

(** Iterations with a stalled and with a delivering first instance. *)
Definition stalled_input : cycle_input :=
  mkCycleInput 200 [mkFeed [] false empty_data; mkFeed [] false empty_data].
Definition delivering_input : cycle_input :=
  mkCycleInput 300 [mkFeed [one_sample] false empty_data;
                    mkFeed [one_sample] false empty_data].

(** Seven iterations in which every queue delivers one sample. *)
Definition seven_inputs : list cycle_input := repeat delivering_input 7.

Definition running_locals : task_locals := set_lastSysTime 100 initial_locals.

(** Three iterations in which every queue delivers one sample. *)
Definition three_inputs : list cycle_input := repeat delivering_input 3.

Definition mag_instance : PIOS_SENSORS_Instance :=
  mkInstance PIOS_SENSORS_TYPE_3AXIS_MAG false f_1 f_1.

(** A queue holding two samples, (1, 2, 3) and (3, 2, 1), at 25.00 degrees. *)
Definition other_sample : sensor_data :=
  mkData (mkSample3 1 2500 (mkV16 3 2 1) (mkV16 0 0 0)) (mkSample1 f_25 f_0).
Definition two_sample_feed : sensor_feed :=
  mkFeed [one_sample; other_sample] false empty_data.

(** A start-up whose gyro calibration has only the quadratic coefficients
    of the first two axes, over the extent [[0, 50]] degrees. *)
Definition quadratic_xy_agcal : AccelGyroSettingsData :=
  mkAccelGyroSettings zero_xyz unit_xyz zero_xyz unit_xyz
    (mkXYZ f_1 f_2 f_1) (mkGyroTempCoeff f_0 f_0 f_0 f_2 f_2 f_0)
    (mkExtent f_0 (float_of_Z 50)).
Definition quadratic_xy_settings : settings_snapshot :=
  mkSnapshot zero3 zero3 quadratic_xy_agcal identity3 identity3 identity3
    (mkBaroPolynomial f_1 f_1 f_1 f_1) (mkExtent f_0 (float_of_Z 50)).
Definition quadratic_xy_boot : boot_input :=
  mkBootInput quadratic_xy_settings [true; true] 100.

(** Two turns of the loop with a settings update between them. *)
Definition updated_run : list task_input :=
  [Turn delivering_input; SettingsUpdate quadratic_xy_settings;
   Turn delivering_input].
Definition gyro_instance : PIOS_SENSORS_Instance :=
  mkInstance PIOS_SENSORS_TYPE_3AXIS_GYRO false f_1 f_1.



(* ------------------------------------------------------------------ *)
(** ** Facts of binary32 arithmetic *)

Lemma fsub_diag (x : float) :
  is_finite x = true -> (x - x)%f32 = S754_zero false.
Proof.
  destruct x as [s | s | | s m e]; simpl; try discriminate; intros _.
  - destruct s; reflexivity.
  - unfold fsub, SFsub. rewrite Z.sub_diag. reflexivity.
Qed.

Lemma fmul_zero_r (k : float) (s : bool) :
  is_finite k = true -> is_zero (k * S754_zero s)%f32 = true.
Proof. destruct k; simpl; try discriminate; reflexivity. Qed.

Lemma fadd_zero_l (z x : float) :
  is_zero z = true -> is_finite x = true -> is_zero x = false ->
  (z + x)%f32 = x.
Proof.
  destruct z; simpl; try discriminate; intros _.
  destruct x; simpl; try discriminate; reflexivity.
Qed.

Lemma feq_zero_add (z x : float) :
  is_zero z = true -> is_finite x = true -> feq (z + x)%f32 x = true.
Proof.
  destruct z as [sz | | |]; simpl; try discriminate; intros _.
  destruct x as [s | s | | s m e]; simpl; try discriminate; intros _.
  - destruct sz, s; reflexivity.
  - unfold feq, SFeqb, SFcompare.
    destruct s; rewrite Z.compare_refl, Pos.compare_cont_refl; reflexivity.
Qed.

Lemma fadd_comm (x y : float) : (x + y)%f32 = (y + x)%f32.
Proof.
  destruct x as [sx | sx | | sx mx ex], y as [sy | sy | | sy my ey];
    try reflexivity;
    try (destruct sx, sy; reflexivity).
  unfold fadd, SFadd. rewrite (Z.min_comm ey ex). f_equal. apply Z.add_comm.
Qed.

(** Filtering from the raw reading itself returns the raw reading. *)
Lemma lowpass_seed (alpha x : float) :
  is_finite alpha = true -> is_finite x = true ->
  feq (alpha * (x - x) + x)%f32 x = true /\
  (is_zero x = false -> (alpha * (x - x) + x)%f32 = x).
Proof.
  intros Ha Hx. rewrite (fsub_diag x Hx).
  pose proof (fmul_zero_r alpha false Ha) as Hz. split.
  - apply feq_zero_add; assumption.
  - intros Hnz. apply fadd_zero_l; assumption.
Qed.

(* ------------------------------------------------------------------ *)
(** ** The temperature trackers, field by field *)

Section Trackers.
Context {P : Platform}.

Lemma accel_temperature_update c x t :
  accel_temperature (updateAccelTempBias c x t) =
  (temp_alpha_gyro_accel * (x - filter_base (accel_temperature t) x)
   + filter_base (accel_temperature t) x)%f32.
Proof.
  unfold updateAccelTempBias, filter_base.
  destruct (isnan (accel_temperature t)), (accel_temp_calibrated c),
    (accel_temp_calibration_count _ =? 0); reflexivity.
Qed.

Lemma gyro_temperature_update c x t :
  gyro_temperature (updateGyroTempBias c x t) =
  (temp_alpha_gyro_accel * (x - filter_base (gyro_temperature t) x)
   + filter_base (gyro_temperature t) x)%f32.
Proof.
  unfold updateGyroTempBias, filter_base.
  destruct (isnan (gyro_temperature t)), (gyro_temp_calibrated c),
    (gyro_temp_calibration_count _ =? 0); reflexivity.
Qed.

Lemma baro_temperature_update c x t :
  baro_temperature (updateBaroTempBias c x t) =
  (temp_alpha_baro * (x - filter_base (baro_temperature t) x)
   + filter_base (baro_temperature t) x)%f32.
Proof.
  unfold updateBaroTempBias, filter_base.
  destruct (isnan (baro_temperature t)), (baro_temp_correction_enabled c),
    (baro_temp_calibration_count _ =? 0); reflexivity.
Qed.

Lemma accel_count_update c x t :
  accel_temp_calibration_count (updateAccelTempBias c x t) =
  wrap_u8 ((if accel_temp_calibrated c && (accel_temp_calibration_count t =? 0)
            then TEMP_CALIB_INTERVAL else accel_temp_calibration_count t) - 1).
Proof.
  unfold updateAccelTempBias.
  destruct (isnan (accel_temperature t)), (accel_temp_calibrated c); cbn [andb accel_temp_calibration_count gyro_temp_calibration_count
         baro_temp_calibration_count set_accel_temperature
         set_gyro_temperature set_baro_temperature];
    try reflexivity;
    destruct (accel_temp_calibration_count t =? 0); reflexivity.
Qed.

Lemma gyro_count_update c x t :
  gyro_temp_calibration_count (updateGyroTempBias c x t) =
  wrap_u8 ((if gyro_temp_calibrated c && (gyro_temp_calibration_count t =? 0)
            then TEMP_CALIB_INTERVAL else gyro_temp_calibration_count t) - 1).
Proof.
  unfold updateGyroTempBias.
  destruct (isnan (gyro_temperature t)), (gyro_temp_calibrated c); cbn [andb accel_temp_calibration_count gyro_temp_calibration_count
         baro_temp_calibration_count set_accel_temperature
         set_gyro_temperature set_baro_temperature];
    try reflexivity;
    destruct (gyro_temp_calibration_count t =? 0); reflexivity.
Qed.

Lemma baro_count_update c x t :
  baro_temp_calibration_count (updateBaroTempBias c x t) =
  wrap_u8 ((if baro_temp_correction_enabled c
               && (baro_temp_calibration_count t =? 0)
            then BARO_TEMP_CALIB_INTERVAL
            else baro_temp_calibration_count t) - 1).
Proof.
  unfold updateBaroTempBias.
  destruct (isnan (baro_temperature t)), (baro_temp_correction_enabled c);
    cbn [andb accel_temp_calibration_count gyro_temp_calibration_count
         baro_temp_calibration_count set_accel_temperature
         set_gyro_temperature set_baro_temperature]; try reflexivity;
    destruct (baro_temp_calibration_count t =? 0); reflexivity.
Qed.

Lemma accel_bias_update c x t :
  accel_temp_bias (updateAccelTempBias c x t) =
  if accel_temp_calibrated c && (accel_temp_calibration_count t =? 0)
  then accel_polynomial (accel_temp_coeff (agcal c))
         (boundf (accel_temperature (updateAccelTempBias c x t))
            (max (temp_calibrated_extent (agcal c)))
            (min (temp_calibrated_extent (agcal c))))
  else accel_temp_bias t.
Proof.
  unfold updateAccelTempBias.
  destruct (isnan (accel_temperature t)), (accel_temp_calibrated c); cbn [andb accel_temp_calibration_count gyro_temp_calibration_count
         baro_temp_calibration_count set_accel_temperature
         set_gyro_temperature set_baro_temperature];
    try reflexivity;
    destruct (accel_temp_calibration_count t =? 0); reflexivity.
Qed.

Lemma gyro_bias_update c x t :
  gyro_temp_bias (updateGyroTempBias c x t) =
  if gyro_temp_calibrated c && (gyro_temp_calibration_count t =? 0)
  then gyro_polynomial (gyro_temp_coeff (agcal c))
         (boundf (gyro_temperature (updateGyroTempBias c x t))
            (max (temp_calibrated_extent (agcal c)))
            (min (temp_calibrated_extent (agcal c))))
  else gyro_temp_bias t.
Proof.
  unfold updateGyroTempBias.
  destruct (isnan (gyro_temperature t)), (gyro_temp_calibrated c); cbn [andb accel_temp_calibration_count gyro_temp_calibration_count
         baro_temp_calibration_count set_accel_temperature
         set_gyro_temperature set_baro_temperature];
    try reflexivity;
    destruct (gyro_temp_calibration_count t =? 0); reflexivity.
Qed.

Lemma baro_bias_update c x t :
  baro_temp_bias (updateBaroTempBias c x t) =
  if baro_temp_correction_enabled c && (baro_temp_calibration_count t =? 0)
  then baro_polynomial (baroCorrection c)
         (boundf (baro_temperature (updateBaroTempBias c x t))
            (max (baroCorrectionExtent c)) (min (baroCorrectionExtent c)))
  else baro_temp_bias t.
Proof.
  unfold updateBaroTempBias.
  destruct (isnan (baro_temperature t)), (baro_temp_correction_enabled c);
    cbn [andb accel_temp_calibration_count gyro_temp_calibration_count
         baro_temp_calibration_count set_accel_temperature
         set_gyro_temperature set_baro_temperature]; try reflexivity;
    destruct (baro_temp_calibration_count t =? 0); reflexivity.
Qed.

End Trackers.

Lemma boundf_clamp (v lo hi : float) :
  flt lo hi = true -> boundf v hi lo = clamp_to_extent v lo hi.
Proof.
  intros H. unfold boundf, clamp_to_extent, fgt. unfold flt in H.
  rewrite H. reflexivity.
Qed.

(** The cadence argument, once for the three trackers. *)
Section Cadence.
Variable B : Type.
Variable update : calibration -> float -> temp_tracking -> temp_tracking.
Variable enabled : calibration -> bool.
Variable countdown : temp_tracking -> Z.
Variable bias : temp_tracking -> B.
Variable N : Z.
Hypothesis N_range : 1 <= N <= 256.
Hypothesis countdown_step : forall c x t,
  countdown (update c x t) =
  wrap_u8 ((if enabled c && (countdown t =? 0) then N else countdown t) - 1).
Hypothesis bias_step : forall c x t,
  enabled c && (countdown t =? 0) = false -> bias (update c x t) = bias t.

Lemma countdown_runs_down calls : forall t,
  0 <= countdown t < 256 ->
  Z.of_nat (length calls) <= countdown t ->
  countdown (tracker_after update calls t)
  = countdown t - Z.of_nat (length calls).
Proof.
  induction calls as [| [c x] rest IH]; intros t Hr Hlen.
  - simpl. lia.
  - cbn [length] in Hlen. rewrite Nat2Z.inj_succ in Hlen.
    assert (Hnz : (countdown t =? 0) = false) by (apply Z.eqb_neq; lia).
    assert (Hstep : countdown (update c x t) = countdown t - 1).
    { rewrite countdown_step, Hnz, andb_false_r. unfold wrap_u8.
      apply Z.mod_small. lia. }
    cbn [tracker_after fold_left fst snd]. fold (tracker_after update rest (update c x t)).
    rewrite IH; rewrite Hstep; cbn [length]; lia.
Qed.

Lemma bias_changes_once before first between last t :
  Z.of_nat (length between) + 2 <= N ->
  let s0 := tracker_after update before t in
  let s1 := update (fst first) (snd first) s0 in
  let s2 := tracker_after update between s1 in
  let s3 := update (fst last) (snd last) s2 in
  bias s1 <> bias s0 -> bias s3 = bias s2.
Proof.
  intros Hlen s0 s1 s2 s3 Hchg.
  assert (Hre : enabled (fst first) && (countdown s0 =? 0) = true).
  { destruct (enabled (fst first) && (countdown s0 =? 0)) eqn:E; [ reflexivity | ].
    exfalso. apply Hchg. apply bias_step. exact E. }
  assert (H1 : countdown s1 = N - 1).
  { unfold s1. rewrite countdown_step, Hre. unfold wrap_u8.
    apply Z.mod_small. lia. }
  assert (H2 : countdown s2 = N - 1 - Z.of_nat (length between)).
  { unfold s2. rewrite countdown_runs_down; rewrite H1; lia. }
  apply bias_step. apply andb_false_iff. right. apply Z.eqb_neq. lia.
Qed.

Lemma bias_kept_while_disabled calls : forall t,
  Forall (fun call => enabled (fst call) = false) calls ->
  bias (tracker_after update calls t) = bias t.
Proof.
  induction calls as [| call rest IH]; intros t Hall.
  - reflexivity.
  - inversion Hall as [| ? ? Hoff Hrest]; subst.
    cbn [tracker_after fold_left].
    fold (tracker_after update rest (update (fst call) (snd call) t)).
    rewrite IH by assumption. apply bias_step. rewrite Hoff. reflexivity.
Qed.

Lemma cadence_holds : tracker_cadence update enabled countdown bias N.
Proof.
  split; [ exact countdown_step | ].
  split; [ exact bias_step | ].
  split; [ exact bias_changes_once | exact bias_kept_while_disabled ].
Qed.
End Cadence.

(* ------------------------------------------------------------------ *)
(** ** Temperature tracking: filter, clamped polynomial, cadence *)

(** C7. Every call of a tracker applies one low-pass step with the channel's
    fixed coefficient, [filtered + alpha * (raw - filtered)], where on the
    first call (stored estimate still the initial NaN) [filtered] is first
    set to the raw reading.  For a finite reading the estimate after the
    first call therefore is the raw reading: equal to it as a number, and
    the very same binary32 value unless the reading is a zero. *)
Theorem temperature_filter_seed_and_step `{P : Platform}
    (c : calibration) (raw : float) (t : temp_tracking) :
  is_finite temp_alpha_gyro_accel = true ->
  is_finite temp_alpha_baro = true ->
  is_finite raw = true ->
  (accel_temperature (updateAccelTempBias c raw t)
   = lowpass_step temp_alpha_gyro_accel raw (filter_base (accel_temperature t) raw)
   /\ (accel_temperature t = NAN ->
       feq (accel_temperature (updateAccelTempBias c raw t)) raw = true
       /\ (is_zero raw = false ->
           accel_temperature (updateAccelTempBias c raw t) = raw)))
  /\ (gyro_temperature (updateGyroTempBias c raw t)
      = lowpass_step temp_alpha_gyro_accel raw (filter_base (gyro_temperature t) raw)
      /\ (gyro_temperature t = NAN ->
          feq (gyro_temperature (updateGyroTempBias c raw t)) raw = true
          /\ (is_zero raw = false ->
              gyro_temperature (updateGyroTempBias c raw t) = raw)))
  /\ (baro_temperature (updateBaroTempBias c raw t)
      = lowpass_step temp_alpha_baro raw (filter_base (baro_temperature t) raw)
      /\ (baro_temperature t = NAN ->
          feq (baro_temperature (updateBaroTempBias c raw t)) raw = true
          /\ (is_zero raw = false ->
              baro_temperature (updateBaroTempBias c raw t) = raw))).
Proof.
  intros Hga Hb Hraw.
  rewrite accel_temperature_update, gyro_temperature_update,
    baro_temperature_update.
  unfold lowpass_step.
  split; [ split | split; split ]; try apply fadd_comm;
    intros Hnan; rewrite Hnan; cbn [filter_base isnan NAN];
    apply lowpass_seed; assumption.
Qed.

(** C5. When a bias is recomputed (flag on, countdown at zero) and the
    calibrated extent is a proper interval, the new bias is the channel's
    polynomial at the freshly filtered temperature clamped into
    [[min, max]]: [coeff * t] per axis for the accelerometer,
    [(coeff + coeff2 * t) * t] per axis for the gyro and
    [a + ((d * t + c) * t + b) * t] for the barometer. *)
Theorem bias_is_polynomial_at_clamped_temperature `{P : Platform}
    (c : calibration) (raw : float) (t : temp_tracking) :
  (accel_temp_calibrated c = true ->
   accel_temp_calibration_count t = 0 ->
   flt (min (temp_calibrated_extent (agcal c)))
       (max (temp_calibrated_extent (agcal c))) = true ->
   let k := accel_temp_coeff (agcal c) in
   let ct := clamp_to_extent (accel_temperature (updateAccelTempBias c raw t))
               (min (temp_calibrated_extent (agcal c)))
               (max (temp_calibrated_extent (agcal c))) in
   accel_temp_bias (updateAccelTempBias c raw t)
   = mkV3 (X k * ct)%f32 (Y k * ct)%f32 (Z_ k * ct)%f32)
  /\ (gyro_temp_calibrated c = true ->
      gyro_temp_calibration_count t = 0 ->
      flt (min (temp_calibrated_extent (agcal c)))
          (max (temp_calibrated_extent (agcal c))) = true ->
      let k := gyro_temp_coeff (agcal c) in
      let ct := clamp_to_extent (gyro_temperature (updateGyroTempBias c raw t))
                  (min (temp_calibrated_extent (agcal c)))
                  (max (temp_calibrated_extent (agcal c))) in
      gyro_temp_bias (updateGyroTempBias c raw t)
      = mkV3 ((gX k + gX2 k * ct) * ct)%f32 ((gY k + gY2 k * ct) * ct)%f32
             ((gZ k + gZ2 k * ct) * ct)%f32)
  /\ (baro_temp_correction_enabled c = true ->
      baro_temp_calibration_count t = 0 ->
      flt (min (baroCorrectionExtent c)) (max (baroCorrectionExtent c)) = true ->
      let k := baroCorrection c in
      let ct := clamp_to_extent (baro_temperature (updateBaroTempBias c raw t))
                  (min (baroCorrectionExtent c)) (max (baroCorrectionExtent c)) in
      baro_temp_bias (updateBaroTempBias c raw t)
      = (poly_a k + ((poly_d k * ct + poly_c k) * ct + poly_b k) * ct)%f32).
Proof.
  repeat split; intros Hen Hcnt Hext; cbv zeta.
  - rewrite accel_bias_update, Hen, Hcnt, (boundf_clamp _ _ _ Hext). reflexivity.
  - rewrite gyro_bias_update, Hen, Hcnt, (boundf_clamp _ _ _ Hext). reflexivity.
  - rewrite baro_bias_update, Hen, Hcnt, (boundf_clamp _ _ _ Hext). reflexivity.
Qed.

(** C6. Each tracker follows the recomputation cadence of its interval: 30
    calls for the accelerometer and the gyro, 10 for the barometer.  The
    countdown goes down on every call whether or not the calibration is
    enabled, the bias changes at most once in any such run of consecutive
    calls and is left alone on every call that does not recompute it, and
    with the calibration disabled it is never modified. *)
Theorem bias_recompute_cadence `{P : Platform} :
  tracker_cadence updateAccelTempBias accel_temp_calibrated
    accel_temp_calibration_count accel_temp_bias 30
  /\ tracker_cadence updateGyroTempBias gyro_temp_calibrated
       gyro_temp_calibration_count gyro_temp_bias 30
  /\ tracker_cadence updateBaroTempBias baro_temp_correction_enabled
       baro_temp_calibration_count baro_temp_bias 10.
Proof.
  split; [ | split ]; apply cadence_holds; try lia.
  - apply accel_count_update.
  - intros c x t H. rewrite accel_bias_update, H. reflexivity.
  - apply gyro_count_update.
  - intros c x t H. rewrite gyro_bias_update, H. reflexivity.
  - apply baro_count_update.
  - intros c x t H. rewrite baro_bias_update, H. reflexivity.
Qed.

Lemma temperature_filter_seed_and_step_witness :
  accel_temperature
    (@updateAccelTempBias board_500Hz sample_calibration f_25 initial_tracking)
  = f_25
  /\ gyro_temperature
       (@updateGyroTempBias board_500Hz sample_calibration f_25 initial_tracking)
     = f_25
  /\ baro_temperature
       (@updateBaroTempBias board_500Hz sample_calibration f_25 initial_tracking)
     = f_25.
Proof.
  destruct (@temperature_filter_seed_and_step board_500Hz sample_calibration
              f_25 initial_tracking eq_refl eq_refl eq_refl)
    as [[_ Ha] [[_ Hg] [_ Hb]]].
  split; [ | split ].
  - apply (Ha eq_refl). reflexivity.
  - apply (Hg eq_refl). reflexivity.
  - apply (Hb eq_refl). reflexivity.
Defined.

Lemma bias_is_polynomial_at_clamped_temperature_witness :
  accel_temp_bias
    (@updateAccelTempBias board_500Hz sample_calibration f_25 initial_tracking)
  = mkV3 f_25 (float_of_Z 50) f_25
  /\ gyro_temp_bias
       (@updateGyroTempBias board_500Hz sample_calibration f_25 initial_tracking)
     = mkV3 (float_of_Z 1275) (float_of_Z 1275) (float_of_Z 1275)
  /\ baro_temp_bias
       (@updateBaroTempBias board_500Hz sample_calibration f_25 initial_tracking)
     = float_of_Z 16276.
Proof.
  destruct (@bias_is_polynomial_at_clamped_temperature board_500Hz
              sample_calibration f_25 initial_tracking) as [Ha [Hg Hb]].
  split; [ | split ].
  - rewrite (Ha eq_refl eq_refl eq_refl). vm_compute. reflexivity.
  - rewrite (Hg eq_refl eq_refl eq_refl). vm_compute. reflexivity.
  - rewrite (Hb eq_refl eq_refl eq_refl). vm_compute. reflexivity.
Defined.

(* ------------------------------------------------------------------ *)
(** ** Channel handlers *)

(** C10. The gyro handler publishes the rotation [R] applied to
    [mean * scale - bias - temp_bias] per axis: the scale is applied to the
    raw mean before the constant bias is subtracted.  The accelerometer
    handler publishes [R] applied to [(mean - bias) * scale - temp_bias]:
    the constant bias is subtracted before the scale is applied.  In both the
    temperature bias is the one in force after the tracker update that opens
    the handler. *)
Theorem gyro_scales_then_subtracts_accel_subtracts_then_scales `{P : Platform}
    (samples : vec3f) (temp : float) (g : globals) :
  (let k := agcal (cal g) in
   let tb := gyro_temp_bias (updateGyroTempBias (cal g) temp (trk g)) in
   let out :=
     rot_mult (R (cal g))
       (mkV3 (v0 samples * X (gyro_scale k) - X (gyro_bias k) - v0 tb)%f32
             (v1 samples * Y (gyro_scale k) - Y (gyro_bias k) - v1 tb)%f32
             (v2 samples * Z_ (gyro_scale k) - Z_ (gyro_bias k) - v2 tb)%f32) in
   trace_of (handleGyro samples temp g)
   = [EvGyroSensorSet (mkGyroSensor (v0 out) (v1 out) (v2 out) temp)])
  /\
  (let k := agcal (cal g) in
   let tb := accel_temp_bias (updateAccelTempBias (cal g) temp (trk g)) in
   let out :=
     rot_mult (R (cal g))
       (mkV3 ((v0 samples - X (accel_bias k)) * X (accel_scale k) - v0 tb)%f32
             ((v1 samples - Y (accel_bias k)) * Y (accel_scale k) - v1 tb)%f32
             ((v2 samples - Z_ (accel_bias k)) * Z_ (accel_scale k) - v2 tb)%f32) in
   trace_of (handleAccel samples temp g)
   = [EvAccelSensorSet (mkAccelSensor (v0 out) (v1 out) (v2 out) temp)]).
Proof. split; reflexivity. Qed.

(* ------------------------------------------------------------------ *)
(** ** Averaging *)

Lemma wrap_u32_range (z : Z) : 0 <= wrap_u32 z < 2 ^ 32.
Proof. unfold wrap_u32. apply Z.mod_pos_bound. lia. Qed.

Lemma drain_count_range items : forall ctx,
  0 <= count ctx < 2 ^ 32 -> 0 <= count (drain_context items ctx) < 2 ^ 32.
Proof.
  induction items as [| item rest IH]; intros ctx Hc; [ exact Hc | ].
  cbn [drain_context fold_left]. apply IH. cbn [accumulateSamples count].
  apply wrap_u32_range.
Qed.

Lemma drain_count items : forall ctx,
  0 <= count ctx < 2 ^ 32 ->
  count (drain_context items ctx)
  = wrap_u32 (count ctx + Z.of_nat (length items)).
Proof.
  induction items as [| item rest IH]; intros ctx Hc.
  - cbn. rewrite Z.add_0_r. unfold wrap_u32. rewrite Z.mod_small; lia.
  - cbn [drain_context fold_left]. fold (drain_context rest (accumulateSamples ctx item)).
    rewrite IH by (cbn [accumulateSamples count]; apply wrap_u32_range).
    cbn [accumulateSamples count length]. unfold wrap_u32.
    rewrite Zplus_mod_idemp_l. f_equal. lia.
Qed.

Lemma wrap_i32_range (z : Z) : in_int32 (wrap_i32 z).
Proof.
  unfold in_int32, wrap_i32.
  pose proof (Z.mod_pos_bound (z + 2 ^ 31) (2 ^ 32) ltac:(lia)). lia.
Qed.

Lemma wrap_i32_small (z : Z) : in_int32 z -> wrap_i32 z = z.
Proof.
  unfold in_int32, wrap_i32. intros H. rewrite Z.mod_small; lia.
Qed.

Lemma wrap_i32_add_l (x y : Z) : wrap_i32 (wrap_i32 x + y) = wrap_i32 (x + y).
Proof.
  unfold wrap_i32. f_equal.
  replace ((x + 2 ^ 31) mod 2 ^ 32 - 2 ^ 31 + y + 2 ^ 31)
    with ((x + 2 ^ 31) mod 2 ^ 32 + y) by lia.
  rewrite Zplus_mod_idemp_l. f_equal. lia.
Qed.

(** A field of the context that every sample adds to, modulo 2^32, holds
    the wrapped sum of the contributions. *)
Section Accumulation.
Variable field : sensor_fetch_context -> Z.
Variable contribution : sensor_data -> Z.
Hypothesis field_step : forall ctx item,
  in_int32 (field ctx) ->
  field (accumulateSamples ctx item) = wrap_i32 (field ctx + contribution item).

Lemma accumulated_field items : forall ctx,
  in_int32 (field ctx) ->
  field (drain_context items ctx)
  = wrap_i32 (field ctx + sum_over contribution items).
Proof.
  induction items as [| item rest IH]; intros ctx Hr.
  - cbn. rewrite Z.add_0_r. symmetry. apply wrap_i32_small. exact Hr.
  - cbn [drain_context fold_left sum_over fold_right].
    fold (drain_context rest (accumulateSamples ctx item)).
    fold (sum_over contribution rest).
    rewrite IH by (rewrite field_step by exact Hr; apply wrap_i32_range).
    rewrite field_step by exact Hr. rewrite wrap_i32_add_l. f_equal. lia.
Qed.
End Accumulation.

Lemma surjective_pairing_v32 (v : Vector3i32) :
  v = mkV32 (x32 v) (y32 v) (z32 v).
Proof. destruct v; reflexivity. Qed.

(** What a cleared context holds after a run of samples. *)
Lemma accumulated_sums (items : list sensor_data) (ctx : sensor_fetch_context) :
  let acc := drain_context items (clearContext ctx) in
  count acc = wrap_u32 (Z.of_nat (length items))
  /\ temperature acc = wrap_i32 (sum_over raw_temperature items)
  /\ accum0 acc
     = mkV32 (wrap_i32 (sum_over (slot0 x16) items))
             (wrap_i32 (sum_over (slot0 y16) items))
             (wrap_i32 (sum_over (slot0 z16) items))
  /\ accum1 acc
     = mkV32 (wrap_i32 (sum_over (slot1 x16) items))
             (wrap_i32 (sum_over (slot1 y16) items))
             (wrap_i32 (sum_over (slot1 z16) items)).
Proof.
  assert (H0 : in_int32 0) by (unfold in_int32; lia).
  cbv zeta. split; [ | split; [ | split ] ].
  - rewrite drain_count by (cbn; lia). reflexivity.
  - apply (accumulated_field temperature raw_temperature); [ | exact H0 ].
    reflexivity.
  - rewrite (surjective_pairing_v32 (accum0 _)). f_equal.
    + apply (accumulated_field (fun c => x32 (accum0 c)) (slot0 x16)); [ | exact H0 ].
      intros c item Hc. cbn [accumulateSamples accum0 add_v32 x32].
      unfold slot0. destruct (_ && _); cbn [x32 add_v32];
        [ reflexivity | rewrite Z.add_0_r, wrap_i32_small; auto ].
    + apply (accumulated_field (fun c => y32 (accum0 c)) (slot0 y16)); [ | exact H0 ].
      intros c item Hc. cbn [accumulateSamples accum0 add_v32 y32].
      unfold slot0. destruct (_ && _); cbn [y32 add_v32];
        [ reflexivity | rewrite Z.add_0_r, wrap_i32_small; auto ].
    + apply (accumulated_field (fun c => z32 (accum0 c)) (slot0 z16)); [ | exact H0 ].
      intros c item Hc. cbn [accumulateSamples accum0 add_v32 z32].
      unfold slot0. destruct (_ && _); cbn [z32 add_v32];
        [ reflexivity | rewrite Z.add_0_r, wrap_i32_small; auto ].
  - rewrite (surjective_pairing_v32 (accum1 _)). f_equal.
    + apply (accumulated_field (fun c => x32 (accum1 c)) (slot1 x16)); [ | exact H0 ].
      intros c item Hc. cbn [accumulateSamples accum1 add_v32 x32].
      unfold slot1. destruct (_ && _); cbn [x32 add_v32];
        [ reflexivity | rewrite Z.add_0_r, wrap_i32_small; auto ].
    + apply (accumulated_field (fun c => y32 (accum1 c)) (slot1 y16)); [ | exact H0 ].
      intros c item Hc. cbn [accumulateSamples accum1 add_v32 y32].
      unfold slot1. destruct (_ && _); cbn [y32 add_v32];
        [ reflexivity | rewrite Z.add_0_r, wrap_i32_small; auto ].
    + apply (accumulated_field (fun c => z32 (accum1 c)) (slot1 z16)); [ | exact H0 ].
      intros c item Hc. cbn [accumulateSamples accum1 add_v32 z32].
      unfold slot1. destruct (_ && _); cbn [z32 add_v32];
        [ reflexivity | rewrite Z.add_0_r, wrap_i32_small; auto ].
Qed.




(* ------------------------------------------------------------------ *)
(** ** Barometer *)

Lemma powf_special_C99 : C99_powf board_500Hz.
Proof.
  split.
  - intros base e Hb He Hi. destruct base as [| | | [] m x]; try discriminate.
    cbn [powf board_500Hz powf_special]. rewrite He, Hi. reflexivity.
  - intros s e He Hi. cbn [powf board_500Hz powf_special].
    rewrite He, Hi. reflexivity.
Qed.

Lemma baro_exponent_facts :
  is_finite (f_1 / f_5_255)%f32 = true
  /\ is_integral (f_1 / f_5_255)%f32 = false
  /\ fgt (f_1 / f_5_255)%f32 f_0 = true.
Proof. repeat split; vm_compute; reflexivity. Qed.

Lemma handleBaro_trace `{P : Platform} (sample temp : float) (g : globals) :
  let p := (sample - baro_temp_bias (updateBaroTempBias (cal g) temp (trk g)))%f32 in
  trace_of (handleBaro sample temp g)
  = if isnan (baro_altitude p) then []
    else [EvBaroSensorSet (mkBaroSensor (baro_altitude p) temp p)].
Proof.
  cbv zeta. unfold handleBaro, bind, update_trk, get_trk, trace_of.
  cbn [trk snd fst].
  destruct (isnan (baro_altitude _)); reflexivity.
Qed.

Lemma fdiv_zero_l (z k : float) :
  is_zero z = true -> is_finite k = true -> is_zero k = false ->
  is_zero (z / k)%f32 = true.
Proof.
  destruct z; try discriminate. destruct k; try discriminate. reflexivity.
Qed.

(** C2, as the code has it.  The handler computes the altitude from the
    bias-corrected pressure [p] as
    [44330 * (1 - powf(p / standard_atmosphere, 1 / 5.255))] and publishes
    {altitude, temperature, p} exactly when the altitude is not a NaN.  When
    the quotient [p / standard_atmosphere] is a negative number the altitude
    is a NaN and nothing is published; when [p] is zero the altitude is
    44330 and it is published. *)
Theorem baro_publishes_unless_altitude_is_nan `{P : Platform}
    (sample temp : float) (g : globals) :
  C99_powf P ->
  is_finite PIOS_CONST_MKS_STD_ATMOSPHERE_F = true ->
  is_zero PIOS_CONST_MKS_STD_ATMOSPHERE_F = false ->
  let p := (sample - baro_temp_bias (updateBaroTempBias (cal g) temp (trk g)))%f32 in
  let q := (p / PIOS_CONST_MKS_STD_ATMOSPHERE_F)%f32 in
  let altitude := (f_44330 * (f_1 - powf q (f_1 / f_5_255)))%f32 in
  trace_of (handleBaro sample temp g)
  = (if isnan altitude then []
     else [EvBaroSensorSet (mkBaroSensor altitude temp p)])
  /\ (is_negative q = true ->
      isnan altitude = true /\ trace_of (handleBaro sample temp g) = [])
  /\ (is_zero p = true ->
      altitude = f_44330
      /\ trace_of (handleBaro sample temp g)
         = [EvBaroSensorSet (mkBaroSensor f_44330 temp p)]).
Proof.
  intros HP Hfin Hnz p q altitude.
  destruct baro_exponent_facts as [He [Hi Hpos]].
  pose proof (handleBaro_trace sample temp g) as Htr. cbv zeta in Htr.
  fold p in Htr. unfold baro_altitude in Htr. fold q in Htr. fold altitude in Htr.
  split; [ exact Htr | split ].
  - intros Hneg.
    assert (Hnan : altitude = NAN).
    { unfold altitude. rewrite (powf_negative_base P HP q _ Hneg He Hi).
      reflexivity. }
    rewrite Htr, Hnan. split; reflexivity.
  - intros Hz.
    assert (Hq : is_zero q = true) by (apply fdiv_zero_l; assumption).
    assert (Halt : altitude = f_44330).
    { unfold altitude. destruct q as [s | | |]; try discriminate.
      rewrite (powf_zero_base P HP s _ Hpos Hi). vm_compute. reflexivity. }
    rewrite Htr, Halt. split; reflexivity.
Qed.

Lemma baro_publishes_unless_altitude_is_nan_witness :
  trace_of (@handleBaro board_500Hz (float_of_Z (-100)) f_25 plain_globals) = []
  /\ trace_of (@handleBaro board_500Hz f_0 f_25 plain_globals)
     = [EvBaroSensorSet (mkBaroSensor f_44330 f_25 f_0)].
Proof.
  split.
  - apply (@baro_publishes_unless_altitude_is_nan board_500Hz
             (float_of_Z (-100)) f_25 plain_globals powf_special_C99
             eq_refl eq_refl).
    vm_compute. reflexivity.
  - apply (@baro_publishes_unless_altitude_is_nan board_500Hz
             f_0 f_25 plain_globals powf_special_C99 eq_refl eq_refl).
    vm_compute. reflexivity.
Defined.

(** C2 as stated fails at a corrected pressure of zero: with a [powf] that
    meets the C contract, the altitude is 44330, not a NaN, and the record is
    published.  The same happens at a negative pressure so small that its
    quotient by the standard atmosphere underflows to a zero. *)
Lemma baro_zero_pressure_is_published :
  C99_powf board_500Hz
  /\ (f_0 - baro_temp_bias
              (@updateBaroTempBias board_500Hz plain_calibration f_25
                 initial_tracking))%f32 = S754_zero false
  /\ isnan (@baro_altitude board_500Hz (S754_zero false)) = false
  /\ trace_of (@handleBaro board_500Hz f_0 f_25 plain_globals)
     = [EvBaroSensorSet
          (mkBaroSensor (float_of_Z 44330) f_25 (S754_zero false))]
  /\ trace_of (@handleBaro board_500Hz (S754_finite true 1 (-149)) f_25
                 plain_globals)
     = [EvBaroSensorSet
          (mkBaroSensor (float_of_Z 44330) f_25 (S754_finite true 1 (-149)))].
Proof.
  split; [ exact powf_special_C99 | ].
  repeat split; vm_compute; reflexivity.
Qed.

(* ------------------------------------------------------------------ *)
(** ** The scheduler: control flow apart from the handlers *)

Lemma result_of_bind {A B} (m : M A) (k : A -> M B) (g : globals) :
  result_of (bind m k g) = result_of (k (result_of (m g)) (state_of (m g))).
Proof.
  unfold bind, result_of, state_of. destruct (m g) as [[x g1] t1].
  cbn [fst snd]. destruct (k x g1) as [[y g2] t2]. reflexivity.
Qed.

Lemma state_of_bind {A B} (m : M A) (k : A -> M B) (g : globals) :
  state_of (bind m k g) = state_of (k (result_of (m g)) (state_of (m g))).
Proof.
  unfold bind, result_of, state_of. destruct (m g) as [[x g1] t1].
  cbn [fst snd]. destruct (k x g1) as [[y g2] t2]. reflexivity.
Qed.

Lemma trace_of_bind {A B} (m : M A) (k : A -> M B) (g : globals) :
  trace_of (bind m k g)
  = trace_of (m g) ++ trace_of (k (result_of (m g)) (state_of (m g))).
Proof.
  unfold bind, result_of, state_of, trace_of. destruct (m g) as [[x g1] t1].
  cbn [fst snd]. destruct (k x g1) as [[y g2] t2]. reflexivity.
Qed.

Lemma loud_app (t1 t2 : list event) : loud (t1 ++ t2) = loud t1 ++ loud t2.
Proof. apply filter_app. Qed.

Lemma result_of_triple {A} (x : A) (g : globals) (t : list event) :
  result_of (x, g, t) = x.
Proof. reflexivity. Qed.

Lemma state_of_triple {A} (x : A) (g : globals) (t : list event) :
  state_of (x, g, t) = g.
Proof. reflexivity. Qed.

Lemma trace_of_triple {A} (x : A) (g : globals) (t : list event) :
  trace_of (x, g, t) = t.
Proof. reflexivity. Qed.

Create Rewrite HintDb run.
#[local] Hint Rewrite @result_of_bind @state_of_bind @trace_of_bind loud_app
  @result_of_triple @state_of_triple @trace_of_triple : run.

Section Scheduler.
Context {P : Platform}.

Lemma loud_handleBaro sample temp g : loud (trace_of (handleBaro sample temp g)) = [].
Proof.
  rewrite handleBaro_trace. cbv zeta.
  destruct (isnan (baro_altitude _)); reflexivity.
Qed.

Lemma loud_processSamples3d ctx sensor g :
  loud (trace_of (processSamples3d ctx sensor g)) = [EvProcessSamples3d (count ctx)].
Proof.
  unfold processSamples3d, processSamples3d_gyro.
  destruct (sensor_type sensor); reflexivity.
Qed.

Lemma loud_processSamples1d sample sensor g :
  sensor_type sensor = PIOS_SENSORS_TYPE_1AXIS_BARO ->
  loud (trace_of (processSamples1d sample sensor g)) = [].
Proof.
  intros H. unfold processSamples1d. rewrite H.
  autorewrite with run. cbn [emit trace_of snd loud filter quiet negb app].
  apply loud_handleBaro.
Qed.

Lemma drain_queue_run sensor is_primary items : forall ctx g,
  drain_queue sensor is_primary items ctx g
  = (drain_context items ctx, g, drain_events sensor is_primary items ctx).
Proof.
  induction items as [| item rest IH]; intros ctx g.
  - reflexivity.
  - cbn [drain_queue drain_events drain_context fold_left].
    unfold bind at 1. cbn [emit]. rewrite IH. reflexivity.
Qed.

Lemma loud_drain_events sensor is_primary items : forall ctx,
  loud (drain_events sensor is_primary items ctx)
  = drain_events sensor is_primary items ctx.
Proof.
  induction items as [| item rest IH]; intros ctx.
  - reflexivity.
  - cbn [drain_events]. cbn [loud filter quiet negb].
    f_equal. apply IH.
Qed.

Lemma not_3d_is_baro ty :
  type_has ty PIOS_SENSORS_TYPE_3D = false -> ty = PIOS_SENSORS_TYPE_1AXIS_BARO.
Proof. destruct ty; cbv; congruence. Qed.

Lemma visit_sensor_outcome sensor feed l g :
  result_of (visit_sensor sensor feed l g) = fst (visit_outcome sensor feed l)
  /\ loud (trace_of (visit_sensor sensor feed l g))
     = snd (visit_outcome sensor feed l).
Proof.
  unfold visit_sensor, visit_outcome.
  destruct (negb (type_is _ _) || (aux_mag_skip l =? 0)); [ | split; reflexivity ].
  destruct (is_polled sensor); cbn [negb].
  - destruct (poll_ready feed) eqn:Hready.
    + destruct (type_has (sensor_type sensor) PIOS_SENSORS_TYPE_3D) eqn:H3d.
      * split.
        -- autorewrite with run. reflexivity.
        -- autorewrite with run. rewrite loud_processSamples3d. reflexivity.
      * split.
        -- autorewrite with run. reflexivity.
        -- autorewrite with run.
           rewrite loud_processSamples1d by (apply not_3d_is_baro; exact H3d).
           reflexivity.
    + split; reflexivity.
  - rewrite result_of_bind, trace_of_bind, drain_queue_run.
    rewrite result_of_triple, state_of_triple, trace_of_triple.
    destruct (count (drain_context _ _) =? 0); cbn [negb].
    + destruct (type_has (sensor_type sensor) ACCEL_FLAG).
      * split.
        -- autorewrite with run. reflexivity.
        -- autorewrite with run. rewrite loud_drain_events. reflexivity.
      * split; [ reflexivity | ].
        cbn [ret trace_of snd]. rewrite app_nil_r. apply loud_drain_events.
    + split.
      * autorewrite with run. reflexivity.
      * autorewrite with run. rewrite loud_drain_events, loud_processSamples3d.
        reflexivity.
Qed.

Lemma foreach_sensor_outcome sensors : forall fs l g,
  result_of (foreach_sensor sensors fs l g) = fst (foreach_outcome sensors fs l)
  /\ loud (trace_of (foreach_sensor sensors fs l g))
     = snd (foreach_outcome sensors fs l).
Proof.
  induction sensors as [| sensor rest IH]; intros fs l g.
  - split; reflexivity.
  - cbn [foreach_sensor foreach_outcome]. autorewrite with run.
    destruct (visit_sensor_outcome sensor (hd empty_feed fs) l g) as [Hr Ht].
    rewrite Hr, Ht.
    destruct (visit_outcome sensor (hd empty_feed fs) l) as [l1 t1]. cbn [fst snd].
    destruct (IH (tl fs) l1 (state_of (visit_sensor sensor (hd empty_feed fs) l g)))
      as [Hr' Ht'].
    rewrite Hr', Ht'.
    destruct (foreach_outcome rest (tl fs) l1) as [l2 t2]. split; reflexivity.
Qed.

Lemma cycle_prologue_run now l g :
  cycle_prologue now l g
  = (if error l
     then set_error false
            (set_lastSysTime (wrap_u32 (now + sensor_period_ticks)) l)
     else l,
     g, prologue_events now l).
Proof.
  unfold cycle_prologue, prologue_events. destruct (error l); reflexivity.
Qed.

(** An iteration of the main loop: its effect on the local variables, the
    events that open it, and the loud events that follow. *)
Lemma SensorsTask_cycle_outcome sensors inp l g :
  let l0 := at_loop_entry (tick_now inp) l in
  let l1 := fst (foreach_outcome sensors (feeds inp) l0) in
  let wake := wrap_u32 (lastSysTime l1 + sensor_period_ticks) in
  result_of (SensorsTask_cycle sensors inp l g) = set_lastSysTime wake l1
  /\ exists rest,
       trace_of (SensorsTask_cycle sensors inp l g)
       = prologue_events (tick_now inp) l ++ rest
       /\ loud rest
          = snd (foreach_outcome sensors (feeds inp) l0)
            ++ [EvReloadWdg; EvTaskDelayUntil wake].
Proof.
  intros l0 l1 wake. unfold SensorsTask_cycle.
  rewrite result_of_bind, trace_of_bind, cycle_prologue_run.
  rewrite result_of_triple, state_of_triple, trace_of_triple.
  repeat match goal with
         | |- context [foreach_sensor sensors (feeds inp) ?x] =>
             progress change x with l0
         end.
  destruct (foreach_sensor_outcome sensors (feeds inp) l0 g) as [Hr Ht].
  split.
  - autorewrite with run. rewrite Hr. reflexivity.
  - eexists. split; [ reflexivity | ].
    autorewrite with run. rewrite Hr, Ht. reflexivity.
Qed.

End Scheduler.

(* ------------------------------------------------------------------ *)
(** ** Properties of the loop over the sensor list *)

Lemma filter_loud (p : event -> bool) (t : list event) :
  (forall e, p e = true -> quiet e = false) ->
  filter p (loud t) = filter p t.
Proof.
  intros Hp. induction t as [| e t IH]; [ reflexivity | ].
  cbn [loud filter]. fold (loud t).
  destruct (quiet e) eqn:Hq; cbn [negb].
  - destruct (p e) eqn:Hpe; [ rewrite (Hp e Hpe) in Hq; discriminate | exact IH ].
  - cbn [filter]. destruct (p e); rewrite IH; reflexivity.
Qed.

Lemma existsb_loud (p : event -> bool) (t : list event) :
  (forall e, p e = true -> quiet e = false) ->
  existsb p (loud t) = existsb p t.
Proof.
  intros Hp. induction t as [| e t IH]; [ reflexivity | ].
  cbn [loud filter existsb]. fold (loud t).
  destruct (quiet e) eqn:Hq; cbn [negb existsb].
  - destruct (p e) eqn:Hpe; [ rewrite (Hp e Hpe) in Hq; discriminate | exact IH ].
  - rewrite IH. reflexivity.
Qed.

Lemma In_loud (e : event) (t : list event) : In e (loud t) -> In e t.
Proof. unfold loud. intros H. apply filter_In in H. tauto. Qed.

Lemma Forall_sound_loud (t : list event) :
  Forall sound_division (loud t) -> Forall sound_division t.
Proof.
  induction t as [| e t IH]; intros H; [ constructor | ].
  cbn [loud filter] in H. fold (loud t) in H.
  destruct (quiet e) eqn:Hq; cbn [negb] in H.
  - constructor; [ destruct e; try discriminate; exact I | auto ].
  - inversion H; subst. constructor; auto.
Qed.

Lemma filter_none (p : event -> bool) (t : list event) :
  forallb sensor_event t = true ->
  (forall e, sensor_event e = true -> p e = false) ->
  filter p t = [].
Proof.
  intros Ht Hp. induction t as [| e t IH]; [ reflexivity | ].
  cbn [forallb] in Ht. apply andb_true_iff in Ht as [He Ht].
  cbn [filter]. rewrite (Hp e He). auto.
Qed.

Section SensorLoop.
Context {P : Platform}.

Lemma drain_events_sensor_events sensor pr items : forall ctx,
  forallb sensor_event (drain_events sensor pr items ctx) = true.
Proof.
  induction items as [| item rest IH]; intros ctx; cbn; auto.
Qed.

Lemma visit_sensor_events sensor feed l :
  forallb sensor_event (snd (visit_outcome sensor feed l)) = true.
Proof.
  unfold visit_outcome.
  destruct (negb _ || _); [ | reflexivity ].
  destruct (is_polled sensor); cbn [negb].
  - destruct (poll_ready feed); [ | reflexivity ].
    destruct (type_has _ PIOS_SENSORS_TYPE_3D); reflexivity.
  - destruct (count _ =? 0); cbn [negb snd];
      [ destruct (type_has _ ACCEL_FLAG); cbn [snd] | ];
      rewrite ?forallb_app, drain_events_sensor_events; reflexivity.
Qed.

Lemma foreach_sensor_events sensors : forall fs l,
  forallb sensor_event (snd (foreach_outcome sensors fs l)) = true.
Proof.
  induction sensors as [| sensor rest IH]; intros fs l; [ reflexivity | ].
  cbn [foreach_outcome].
  pose proof (visit_sensor_events sensor (hd empty_feed fs) l) as Hv.
  destruct (visit_outcome sensor (hd empty_feed fs) l) as [l1 t1].
  specialize (IH (tl fs) l1).
  destruct (foreach_outcome rest (tl fs) l1) as [l2 t2].
  cbn [snd] in *. rewrite forallb_app, Hv, IH. reflexivity.
Qed.

(** The loop body leaves the decimation counter and the time base alone, and
    hands the next instance an empty context. *)
Lemma visit_keeps sensor feed l :
  aux_mag_skip (fst (visit_outcome sensor feed l)) = aux_mag_skip l
  /\ lastSysTime (fst (visit_outcome sensor feed l)) = lastSysTime l
  /\ (count (sensor_context l) = 0 ->
      count (sensor_context (fst (visit_outcome sensor feed l))) = 0).
Proof.
  unfold visit_outcome.
  destruct (negb _ || _); [ | auto ].
  destruct (is_polled sensor); cbn [negb].
  - destruct (poll_ready feed); auto.
  - destruct (count (drain_context _ _) =? 0) eqn:Hc; cbn [negb]; auto.
    apply Z.eqb_eq in Hc.
    destruct (type_has _ ACCEL_FLAG); auto.
Qed.

Lemma foreach_keeps sensors : forall fs l,
  aux_mag_skip (fst (foreach_outcome sensors fs l)) = aux_mag_skip l
  /\ lastSysTime (fst (foreach_outcome sensors fs l)) = lastSysTime l
  /\ (count (sensor_context l) = 0 ->
      count (sensor_context (fst (foreach_outcome sensors fs l))) = 0).
Proof.
  induction sensors as [| sensor rest IH]; intros fs l; [ auto | ].
  cbn [foreach_outcome].
  destruct (visit_keeps sensor (hd empty_feed fs) l) as [Ha [Ht Hc]].
  destruct (visit_outcome sensor (hd empty_feed fs) l) as [l1 t1].
  destruct (IH (tl fs) l1) as [Ha' [Ht' Hc']].
  destruct (foreach_outcome rest (tl fs) l1) as [l2 t2].
  cbn [fst] in *. repeat split; try congruence. auto.
Qed.

End SensorLoop.

(* ------------------------------------------------------------------ *)
(** ** The division in [processSamples3d] *)

Section Division.
Context {P : Platform}.

Lemma drain_events_sound sensor pr items : forall ctx,
  Forall sound_division (drain_events sensor pr items ctx).
Proof.
  induction items as [| item rest IH]; intros ctx; cbn [drain_events];
    repeat constructor. apply IH.
Qed.

Lemma visit_sound sensor feed l :
  count (sensor_context l) = 0 ->
  Forall sound_division (snd (visit_outcome sensor feed l)).
Proof.
  intros H0. unfold visit_outcome.
  destruct (negb _ || _); [ | constructor ].
  destruct (is_polled sensor); cbn [negb].
  - destruct (poll_ready feed); [ | repeat constructor ].
    destruct (type_has _ PIOS_SENSORS_TYPE_3D); repeat constructor;
      cbn [accumulateSamples count]; rewrite H0; vm_compute; intuition congruence.
  - pose proof (drain_count_range (queued feed) (sensor_context l)) as Hr.
    rewrite H0 in Hr. specialize (Hr ltac:(lia)).
    destruct (count (drain_context _ _) =? 0) eqn:Hc; cbn [negb snd].
    + destruct (type_has _ ACCEL_FLAG); cbn [snd];
        try apply Forall_app; repeat split; try apply drain_events_sound;
        repeat constructor.
    + apply Z.eqb_neq in Hc.
      apply Forall_app. split; [ apply drain_events_sound | ].
      repeat constructor; cbn [sound_division]; lia.
Qed.

Lemma foreach_sound sensors : forall fs l,
  count (sensor_context l) = 0 ->
  Forall sound_division (snd (foreach_outcome sensors fs l)).
Proof.
  induction sensors as [| sensor rest IH]; intros fs l H0; [ constructor | ].
  cbn [foreach_outcome].
  pose proof (visit_sound sensor (hd empty_feed fs) l H0) as Hv.
  destruct (visit_keeps sensor (hd empty_feed fs) l) as [_ [_ Hc]].
  destruct (visit_outcome sensor (hd empty_feed fs) l) as [l1 t1].
  specialize (IH (tl fs) l1 (Hc H0)).
  destruct (foreach_outcome rest (tl fs) l1) as [l2 t2].
  cbn [snd] in *. apply Forall_app. split; assumption.
Qed.

Lemma at_loop_entry_context now l :
  count (sensor_context (at_loop_entry now l)) = 0.
Proof. unfold at_loop_entry. destruct (error l); reflexivity. Qed.

Lemma cycle_sound sensors inp l g :
  Forall sound_division (trace_of (SensorsTask_cycle sensors inp l g)).
Proof.
  destruct (SensorsTask_cycle_outcome sensors inp l g) as [_ [rest [Ht Hl]]].
  rewrite Ht. apply Forall_app. split.
  - unfold prologue_events. destruct (error l); repeat constructor.
  - apply Forall_sound_loud. rewrite Hl. apply Forall_app. split.
    + apply foreach_sound. apply at_loop_entry_context.
    + repeat constructor.
Qed.

Lemma test_sensors_run sensors : forall results ok n g,
  0 <= n < 256 ->
  test_sensors sensors results ok n g
  = ((ok && all_passed sensors results,
      wrap_u8 (n + Z.of_nat (length sensors))),
     g, test_events sensors results).
Proof.
  induction sensors as [| sensor rest IH]; intros results ok n g Hn.
  - cbn. rewrite andb_true_r, Z.add_0_r. unfold wrap_u8.
    rewrite Z.mod_small by lia. reflexivity.
  - cbn [test_sensors all_passed test_events length].
    unfold bind at 1. cbn [emit]. unfold bind at 1. cbn [emit].
    rewrite IH by (unfold wrap_u8; apply Z.mod_pos_bound; lia).
    rewrite andb_assoc. cbn [app].
    replace (wrap_u8 (wrap_u8 (n + 1) + Z.of_nat (length rest)))
      with (wrap_u8 (n + Z.of_nat (S (length rest)))); [ reflexivity | ].
    unfold wrap_u8. rewrite Zplus_mod_idemp_l. f_equal. lia.
Qed.

(** The start-up of the task: where it leaves the task, and its events. *)
Lemma SensorsTask_boot_run sensors boot g :
  let n := wrap_u8 (Z.of_nat (length sensors)) in
  let ok := all_passed sensors (test_results boot) in
  result_of (SensorsTask_boot sensors boot g)
  = (if n =? 0 then mkTask AssertFailed initial_locals
     else if ok
          then mkTask Running (set_lastSysTime (boot_tick boot) initial_locals)
          else mkTask CriticalFault initial_locals)
  /\ trace_of (SensorsTask_boot sensors boot g)
     = EvAlarmsClear :: EvSettingsUpdated
       :: test_events sensors (test_results boot)
       ++ (if n =? 0 then [EvAssertFailed]
           else EvReloadWdg
                :: (if ok then [] else [EvAlarmsSet SYSTEMALARMS_ALARM_CRITICAL])).
Proof.
  intros n ok. unfold SensorsTask_boot.
  autorewrite with run.
  rewrite test_sensors_run by lia.
  autorewrite with run.
  cbn [andb Z.add]. fold n. fold ok.
  destruct (n =? 0); [ split; reflexivity | ].
  destruct ok; split; reflexivity.
Qed.

Lemma test_events_sound sensors : forall results,
  Forall sound_division (test_events sensors results).
Proof.
  induction sensors as [| sensor rest IH]; intros results; cbn [test_events];
    repeat constructor. apply IH.
Qed.

Lemma steps_sound sensors inps : forall st g,
  Forall sound_division (trace_of (SensorsTask_steps sensors inps st g)).
Proof.
  induction inps as [| inp rest IH]; intros st g; [ constructor | ].
  cbn [SensorsTask_steps]. rewrite trace_of_bind.
  apply Forall_app. split; [ | apply IH ].
  unfold SensorsTask_step. destruct (phase st).
  - rewrite trace_of_bind. cbn [ret trace_of snd]. rewrite app_nil_r.
    apply cycle_sound.
  - repeat constructor.
  - constructor.
Qed.

End Division.

(** C4. On every run of the task, whatever the drivers deliver, each entry
    into [processSamples3d] finds a positive sample count: the queue-fed
    path enters it only behind the test [if (sensor_context.count)], the
    polled path right after accumulating one sample into an empty context.
    The division [1.0f / count] never has a zero divisor. *)
Theorem processSamples3d_never_divides_by_zero `{P : Platform}
    (sensors : list PIOS_SENSORS_Instance) (boot : boot_input)
    (inps : list cycle_input) (g : globals) :
  Forall sound_division (trace_of (SensorsTask sensors boot inps g)).
Proof.
  unfold SensorsTask. rewrite trace_of_bind. apply Forall_app. split.
  - destruct (SensorsTask_boot_run sensors boot g) as [_ Ht]. rewrite Ht.
    repeat constructor. apply Forall_app. split.
    + apply test_events_sound.
    + destruct (_ =? 0); [ repeat constructor | ].
      destruct (all_passed _ _); repeat constructor.
  - apply steps_sound.
Qed.

(* ------------------------------------------------------------------ *)
(** ** Start-up self-test *)

Lemma all_passed_spec sensors : forall results,
  all_passed sensors results = true
  <-> forall i, (i < length sensors)%nat -> nth i results false = true.
Proof.
  induction sensors as [| sensor rest IH]; intros results.
  - split; [ intros _ i Hi; inversion Hi | reflexivity ].
  - cbn [all_passed length]. rewrite andb_true_iff, IH. split.
    + intros [Hh Ht] i Hi. destruct i as [| i].
      * destruct results; [ discriminate | exact Hh ].
      * destruct results as [| r results];
          [ specialize (Ht i ltac:(lia)); destruct i; discriminate | ].
        apply Ht. lia.
    + intros H. split.
      * specialize (H 0%nat ltac:(lia)). destruct results; [ discriminate | exact H ].
      * intros i Hi. specialize (H (S i) ltac:(lia)).
        destruct results as [| r results]; [ discriminate | exact H ].
Qed.

Lemma filter_test_events (p : event -> bool) sensors : forall results,
  p EvReloadWdg = false -> (forall s r, p (EvSensorTest s r) = false) ->
  filter p (test_events sensors results) = [].
Proof.
  induction sensors as [| sensor rest IH]; intros results Hw Ht; [ reflexivity | ].
  cbn [test_events filter]. rewrite Hw, Ht. apply IH; assumption.
Qed.

Lemma filter_repeat_false (p : event -> bool) (e : event) (n : nat) :
  p e = false -> filter p (repeat e n) = [].
Proof.
  intros H. induction n as [| n IH]; [ reflexivity | ].
  cbn [repeat filter]. rewrite H. exact IH.
Qed.

Section Halting.
Context {P : Platform}.

Lemma steps_halted sensors inps : forall st g,
  phase st = CriticalFault ->
  SensorsTask_steps sensors inps st g
  = (st, g, repeat (EvTaskDelay 10) (length inps)).
Proof.
  induction inps as [| inp rest IH]; intros st g Hst; [ reflexivity | ].
  cbn [SensorsTask_steps length repeat].
  unfold bind at 1. unfold SensorsTask_step at 1. rewrite Hst.
  unfold bind at 1. cbn [emit ret]. rewrite (IH st g Hst). reflexivity.
Qed.

Lemma step_phase sensors inp st g :
  phase (result_of (SensorsTask_step sensors inp st g)) = phase st.
Proof.
  unfold SensorsTask_step. destruct (phase st) eqn:Hp.
  - rewrite result_of_bind. reflexivity.
  - rewrite result_of_bind. cbn. exact Hp.
  - cbn. exact Hp.
Qed.

Lemma steps_phase sensors inps : forall st g,
  phase (result_of (SensorsTask_steps sensors inps st g)) = phase st.
Proof.
  induction inps as [| inp rest IH]; intros st g; [ reflexivity | ].
  cbn [SensorsTask_steps]. rewrite result_of_bind, IH. apply step_phase.
Qed.

End Halting.

(** C8. When an instance fails its self-test (the list holding fewer than
    256 instances, so that the [uint8_t] count of tested instances is not
    zero), the task raises the critical sensors alarm exactly once and then
    only ever delays: it is in the halting loop after any number of turns and
    never in the main loop.  The main loop is entered only when every
    instance has passed. *)
Theorem failed_self_test_halts_with_one_critical_alarm `{P : Platform}
    (sensors : list PIOS_SENSORS_Instance) (boot : boot_input)
    (inps : list cycle_input) (g : globals) :
  (length sensors < 256)%nat ->
  ((exists i, (i < length sensors)%nat /\ nth i (test_results boot) false = false) ->
   phase (result_of (SensorsTask sensors boot inps g)) = CriticalFault
   /\ filter is_critical_alarm (trace_of (SensorsTask sensors boot inps g))
      = [EvAlarmsSet SYSTEMALARMS_ALARM_CRITICAL]
   /\ trace_of (SensorsTask sensors boot inps g)
      = trace_of (SensorsTask_boot sensors boot g)
        ++ repeat (EvTaskDelay 10) (length inps))
  /\ (phase (result_of (SensorsTask sensors boot inps g)) = Running ->
      forall i, (i < length sensors)%nat -> nth i (test_results boot) false = true).
Proof.
  intros Hlen.
  destruct (SensorsTask_boot_run sensors boot g) as [Hres Htr].
  cbv zeta in Hres, Htr. split.
  - intros [i [Hi Hfail]].
    assert (Hn : (wrap_u8 (Z.of_nat (length sensors)) =? 0) = false).
    { apply Z.eqb_neq. unfold wrap_u8. rewrite Z.mod_small; lia. }
    assert (Hok : all_passed sensors (test_results boot) = false).
    { destruct (all_passed sensors (test_results boot)) eqn:E; [ | reflexivity ].
      rewrite all_passed_spec in E. rewrite (E i Hi) in Hfail. discriminate. }
    rewrite Hn, Hok in Hres, Htr.
    unfold SensorsTask.
    rewrite result_of_bind, trace_of_bind, Hres.
    rewrite steps_halted by reflexivity.
    rewrite result_of_triple, trace_of_triple.
    split; [ reflexivity | split; [ | reflexivity ] ].
    rewrite Htr, filter_app. cbn [filter is_critical_alarm].
    rewrite filter_app, filter_test_events by reflexivity.
    rewrite filter_repeat_false by reflexivity. reflexivity.
  - unfold SensorsTask. rewrite result_of_bind, steps_phase, Hres.
    destruct (_ =? 0); [ discriminate | ].
    destruct (all_passed sensors (test_results boot)) eqn:E; [ | discriminate ].
    intros _. apply all_passed_spec. exact E.
Qed.

Lemma failed_self_test_halts_with_one_critical_alarm_witness :
  (phase (result_of (@SensorsTask board_500Hz [accel_instance; baro_instance]
                       failing_boot [stalled_input; delivering_input]
                       plain_globals))
   = CriticalFault
   /\ filter is_critical_alarm
        (trace_of (@SensorsTask board_500Hz [accel_instance; baro_instance]
                     failing_boot [stalled_input; delivering_input]
                     plain_globals))
      = [EvAlarmsSet SYSTEMALARMS_ALARM_CRITICAL])
  /\ (phase (result_of (@SensorsTask board_500Hz [accel_instance; baro_instance]
                          passing_boot [stalled_input; delivering_input]
                          plain_globals))
      = Running
      /\ forall i, (i < 2)%nat -> nth i (test_results passing_boot) false = true).
Proof.
  split.
  - destruct (@failed_self_test_halts_with_one_critical_alarm board_500Hz
                [accel_instance; baro_instance] failing_boot
                [stalled_input; delivering_input] plain_globals
                ltac:(simpl; lia)) as [H _].
    destruct H as [H1 [H2 _]].
    + exists 1%nat. split; [ simpl; lia | reflexivity ].
    + split; assumption.
  - assert (Hrun : phase (result_of (@SensorsTask board_500Hz
                                       [accel_instance; baro_instance]
                                       passing_boot
                                       [stalled_input; delivering_input]
                                       plain_globals)) = Running)
      by (vm_compute; reflexivity).
    split; [ exact Hrun | ].
    destruct (@failed_self_test_halts_with_one_critical_alarm board_500Hz
                [accel_instance; baro_instance] passing_boot
                [stalled_input; delivering_input] plain_globals
                ltac:(simpl; lia)) as [_ H].
    exact (H Hrun).
Defined.

(* ------------------------------------------------------------------ *)
(** ** Stall of the primary instance *)

Lemma hd_skipn {A} (d : A) (n : nat) : forall l, hd d (skipn n l) = nth n l d.
Proof.
  induction n as [| n IH]; intros [| x l]; cbn; auto.
Qed.

Section Stall.
Context {P : Platform}.

Lemma foreach_outcome_app xs ys : forall fs l,
  foreach_outcome (xs ++ ys) fs l
  = (fst (foreach_outcome ys (skipn (length xs) fs)
            (fst (foreach_outcome xs fs l))),
     snd (foreach_outcome xs fs l)
     ++ snd (foreach_outcome ys (skipn (length xs) fs)
               (fst (foreach_outcome xs fs l)))).
Proof.
  induction xs as [| x xs IH]; intros fs l.
  - cbn. destruct (foreach_outcome ys fs l). reflexivity.
  - cbn [app foreach_outcome length].
    destruct (visit_outcome x (hd empty_feed fs) l) as [l1 t1].
    rewrite IH.
    replace (skipn (S (length xs)) fs) with (skipn (length xs) (tl fs))
      by (destruct fs; [ destruct (length xs) | ]; reflexivity).
    destruct (foreach_outcome xs (tl fs) l1) as [l2 t2]. cbn [fst snd].
    rewrite app_assoc. reflexivity.
Qed.

Lemma filter_reset_drain sensor pr items : forall ctx,
  filter is_reset (drain_events sensor pr items ctx) = [].
Proof.
  induction items as [| item rest IH]; intros ctx; cbn; auto.
Qed.

Lemma visit_nonprimary sensor feed l :
  is_primary_instance sensor = false ->
  error (fst (visit_outcome sensor feed l)) = error l
  /\ reset_counter (fst (visit_outcome sensor feed l)) = reset_counter l
  /\ filter is_reset (snd (visit_outcome sensor feed l)) = [].
Proof.
  unfold is_primary_instance, visit_outcome. intros Hp. rewrite Hp.
  destruct (negb _ || _); [ | auto ].
  destruct (is_polled sensor); cbn [negb].
  - destruct (poll_ready feed); [ | auto ].
    destruct (type_has _ PIOS_SENSORS_TYPE_3D); auto.
  - destruct (count _ =? 0); cbn [negb fst snd];
      rewrite ?filter_app, filter_reset_drain; auto.
Qed.

Lemma foreach_nonprimary sensors : forall fs l,
  Forall (fun s => is_primary_instance s = false) sensors ->
  error (fst (foreach_outcome sensors fs l)) = error l
  /\ reset_counter (fst (foreach_outcome sensors fs l)) = reset_counter l
  /\ filter is_reset (snd (foreach_outcome sensors fs l)) = [].
Proof.
  induction sensors as [| sensor rest IH]; intros fs l Hall; [ auto | ].
  inversion Hall as [| ? ? Hs Hrest]; subst.
  cbn [foreach_outcome].
  destruct (visit_nonprimary sensor (hd empty_feed fs) l Hs) as [He [Hr Hf]].
  destruct (visit_outcome sensor (hd empty_feed fs) l) as [l1 t1].
  destruct (IH (tl fs) l1 Hrest) as [He' [Hr' Hf']].
  destruct (foreach_outcome rest (tl fs) l1) as [l2 t2].
  cbn [fst snd] in *. rewrite filter_app, Hf, Hf'.
  repeat split; congruence.
Qed.

Lemma primary_not_auxmag sensor :
  is_primary_instance sensor = true ->
  type_is (sensor_type sensor) PIOS_SENSORS_TYPE_3AXIS_AUXMAG = false.
Proof.
  unfold is_primary_instance. destruct (sensor_type sensor); cbv; congruence.
Qed.

(** The primary instance with an empty queue: one receive that waits a full
    period, then the reset. *)
Lemma visit_stall sensor feed l :
  is_primary_instance sensor = true -> is_polled sensor = false ->
  queued feed = [] -> count (sensor_context l) = 0 ->
  visit_outcome sensor feed l
  = (set_error true
       (set_reset_counter (wrap_u32 (reset_counter l + 1))
          (set_sensor_context (sensor_context l) l)),
     [EvQueueReceive sensor sensor_period_ticks false; EvSensorReset sensor]).
Proof.
  intros Hp Hq Hf H0. unfold visit_outcome.
  rewrite (primary_not_auxmag sensor Hp), Hq, Hf.
  unfold is_primary_instance in Hp. rewrite Hp.
  cbn [negb orb drain_context fold_left drain_events andb].
  rewrite H0. reflexivity.
Qed.

(** The primary instance with a queue that delivers: no stall. *)
Lemma visit_delivers sensor feed l :
  is_polled sensor = false ->
  0 < Z.of_nat (length (queued feed)) < 2 ^ 32 ->
  count (sensor_context l) = 0 ->
  error (fst (visit_outcome sensor feed l)) = error l.
Proof.
  intros Hq Hlen H0. unfold visit_outcome.
  destruct (negb _ || _); [ | reflexivity ].
  rewrite Hq. cbn [negb].
  rewrite drain_count by (rewrite H0; lia). rewrite H0.
  replace (wrap_u32 (0 + Z.of_nat (length (queued feed))) =? 0) with false;
    [ reflexivity | ].
  symmetry. apply Z.eqb_neq. unfold wrap_u32. rewrite Z.mod_small; lia.
Qed.

Lemma foreach_single_stall before primary after fs l :
  is_primary_instance primary = true -> is_polled primary = false ->
  Forall (fun s => is_primary_instance s = false) (before ++ after) ->
  queued (nth (length before) fs empty_feed) = [] ->
  count (sensor_context l) = 0 ->
  let out := foreach_outcome (before ++ primary :: after) fs l in
  error (fst out) = true
  /\ reset_counter (fst out) = wrap_u32 (reset_counter l + 1)
  /\ filter is_reset (snd out) = [EvSensorReset primary]
  /\ In (EvQueueReceive primary sensor_period_ticks false) (snd out).
Proof.
  intros Hp Hq Hall Hf H0 out. subst out.
  apply Forall_app in Hall as [Hb Ha].
  rewrite foreach_outcome_app.
  destruct (foreach_nonprimary before fs l Hb) as [He [Hr Hfl]].
  destruct (foreach_keeps before fs l) as [_ [_ Hc]]. specialize (Hc H0).
  set (l1 := fst (foreach_outcome before fs l)) in *.
  cbn [foreach_outcome fst snd].
  rewrite hd_skipn.
  rewrite (visit_stall primary _ l1 Hp Hq Hf Hc).
  set (l2 := set_error true _).
  destruct (foreach_nonprimary after (tl (skipn (length before) fs)) l2 Ha)
    as [He' [Hr' Hfl']].
  destruct (foreach_outcome after (tl (skipn (length before) fs)) l2) as [l3 t3].
  cbn [fst snd] in *.
  rewrite He', Hr'. subst l2. cbn [error reset_counter set_error set_reset_counter
    set_sensor_context]. rewrite Hr.
  repeat split.
  - rewrite !filter_app, Hfl. cbn [filter is_reset app]. rewrite Hfl'. reflexivity.
  - apply in_or_app. right. left. reflexivity.
Qed.

Lemma foreach_no_stall before primary after fs l :
  is_polled primary = false ->
  Forall (fun s => is_primary_instance s = false) (before ++ after) ->
  0 < Z.of_nat (length (queued (nth (length before) fs empty_feed))) < 2 ^ 32 ->
  count (sensor_context l) = 0 ->
  error (fst (foreach_outcome (before ++ primary :: after) fs l)) = error l.
Proof.
  intros Hq Hall Hlen H0.
  apply Forall_app in Hall as [Hb Ha].
  rewrite foreach_outcome_app.
  destruct (foreach_nonprimary before fs l Hb) as [He _].
  destruct (foreach_keeps before fs l) as [_ [_ Hc]]. specialize (Hc H0).
  set (l1 := fst (foreach_outcome before fs l)) in *.
  cbn [foreach_outcome fst snd]. rewrite hd_skipn.
  pose proof (visit_delivers primary _ l1 Hq Hlen Hc) as Hv.
  destruct (visit_outcome primary (nth (length before) fs empty_feed) l1) as [l2 t2].
  destruct (foreach_nonprimary after (tl (skipn (length before) fs)) l2 Ha)
    as [He' _].
  destruct (foreach_outcome after (tl (skipn (length before) fs)) l2) as [l3 t3].
  cbn [fst snd] in *. congruence.
Qed.

(** Every iteration: after its opening events, no alarm call and exactly
    one [vTaskDelayUntil], on the iteration's own time base. *)
Lemma cycle_alarm_and_delay sensors inp l g :
  exists rest,
    trace_of (SensorsTask_cycle sensors inp l g)
    = prologue_events (tick_now inp) l ++ rest
    /\ filter is_alarm rest = []
    /\ filter is_delay_until rest
       = [EvTaskDelayUntil
            (wrap_u32 (lastSysTime (at_loop_entry (tick_now inp) l)
                       + sensor_period_ticks))].
Proof.
  destruct (SensorsTask_cycle_outcome sensors inp l g) as [_ [rest [Ht Hl]]].
  exists rest. split; [ exact Ht | ].
  destruct (foreach_keeps sensors (feeds inp) (at_loop_entry (tick_now inp) l))
    as [_ [Hlast _]].
  pose proof (foreach_sensor_events sensors (feeds inp)
                (at_loop_entry (tick_now inp) l)) as Hev.
  split.
  - rewrite <- filter_loud by (intros [] ?; try discriminate; reflexivity).
    rewrite Hl, filter_app.
    rewrite (filter_none is_alarm _ Hev)
      by (intros [] ?; try discriminate; reflexivity).
    reflexivity.
  - rewrite <- filter_loud by (intros [] ?; try discriminate; reflexivity).
    rewrite Hl, filter_app.
    rewrite (filter_none is_delay_until _ Hev)
      by (intros [] ?; try discriminate; reflexivity).
    rewrite Hlast. reflexivity.
Qed.

End Stall.

(** C1, as the code has it.  In an iteration in which the queue of the
    primary instance (the one queue-fed instance carrying the accelerometer)
    yields nothing within the one-period wait, the task requests exactly one
    driver reset, of that instance, increments the reset counter and sets the
    error flag.  The next iteration opens by waiting one full period from the
    current tick and raising the sensors alarm at CRITICAL severity, clears
    the flag, and runs its sensor loop with the usual single delay at its
    end; the alarm is not touched again in that iteration.  If the primary
    instance delivers in that iteration, the flag stays clear and the
    iteration after it opens by clearing the alarm and has the single usual
    delay. *)
Theorem stall_resets_once_then_delays_under_critical_alarm `{P : Platform}
    (before after : list PIOS_SENSORS_Instance) (primary : PIOS_SENSORS_Instance)
    (inp1 inp2 inp3 : cycle_input) (l : task_locals) (g : globals) :
  is_primary_instance primary = true ->
  is_polled primary = false ->
  Forall (fun s => is_primary_instance s = false) (before ++ after) ->
  queued (nth (length before) (feeds inp1) empty_feed) = [] ->
  let sensors := before ++ primary :: after in
  let r1 := SensorsTask_cycle sensors inp1 l g in
  let r2 := SensorsTask_cycle sensors inp2 (result_of r1) (state_of r1) in
  let r3 := SensorsTask_cycle sensors inp3 (result_of r2) (state_of r2) in
  (In (EvQueueReceive primary sensor_period_ticks false) (trace_of r1)
   /\ filter is_reset (trace_of r1) = [EvSensorReset primary]
   /\ reset_counter (result_of r1) = wrap_u32 (reset_counter l + 1)
   /\ error (result_of r1) = true)
  /\ (exists rest,
        trace_of r2
        = EvReloadWdg
          :: EvTaskDelayUntil (wrap_u32 (tick_now inp2 + sensor_period_ticks))
          :: EvAlarmsSet SYSTEMALARMS_ALARM_CRITICAL :: rest
        /\ filter is_alarm rest = []
        /\ filter is_delay_until rest
           = [EvTaskDelayUntil
                (wrap_u32 (wrap_u32 (tick_now inp2 + sensor_period_ticks)
                           + sensor_period_ticks))])
  /\ (0 < Z.of_nat (length (queued (nth (length before) (feeds inp2) empty_feed)))
        < 2 ^ 32 ->
      error (result_of r2) = false
      /\ exists rest,
           trace_of r3 = EvAlarmsClear :: rest
           /\ filter is_alarm rest = []
           /\ filter is_delay_until rest
              = [EvTaskDelayUntil
                   (wrap_u32 (lastSysTime (result_of r2) + sensor_period_ticks))]).
Proof.
  intros Hp Hq Hall Hempty sensors r1 r2 r3.
  (* the stalled iteration *)
  destruct (SensorsTask_cycle_outcome sensors inp1 l g) as [Hres1 [rest1 [Ht1 Hl1]]].
  cbv zeta in Hres1, Hl1. fold r1 in Hres1, Ht1.
  destruct (foreach_single_stall before primary after (feeds inp1)
              (at_loop_entry (tick_now inp1) l) Hp Hq Hall Hempty
              (at_loop_entry_context _ _)) as [He1 [Hr1 [Hf1 Hin1]]].
  fold sensors in He1, Hr1, Hf1, Hin1.
  assert (Herr1 : error (result_of r1) = true) by (rewrite Hres1; exact He1).
  split; [ repeat split | split ].
  - rewrite Ht1. apply in_or_app. right. apply In_loud. rewrite Hl1.
    apply in_or_app. left. exact Hin1.
  - rewrite Ht1, filter_app.
    replace (filter is_reset (prologue_events (tick_now inp1) l)) with (@nil event)
      by (unfold prologue_events; destruct (error l); reflexivity).
    rewrite <- filter_loud by (intros [] ?; try discriminate; reflexivity).
    rewrite Hl1, filter_app, Hf1. reflexivity.
  - rewrite Hres1. cbn [reset_counter set_lastSysTime]. rewrite Hr1.
    unfold at_loop_entry. destruct (error l); reflexivity.
  - exact Herr1.
  - (* the next iteration *)
    destruct (cycle_alarm_and_delay sensors inp2 (result_of r1) (state_of r1))
      as [rest [Ht [Ha Hd]]].
    fold r2 in Ht. exists rest.
    unfold prologue_events in Ht. unfold at_loop_entry in Hd.
    rewrite Herr1 in Ht, Hd. split; [ exact Ht | split; [ exact Ha | exact Hd ] ].
  - (* resuming *)
    intros Hlen.
    destruct (SensorsTask_cycle_outcome sensors inp2 (result_of r1) (state_of r1))
      as [Hres2 _].
    cbv zeta in Hres2. fold r2 in Hres2.
    assert (Herr2 : error (result_of r2) = false).
    { rewrite Hres2. cbn [error set_lastSysTime]. unfold sensors.
      rewrite (foreach_no_stall before primary after (feeds inp2) _ Hq Hall Hlen
                 (at_loop_entry_context _ _)).
      unfold at_loop_entry. rewrite Herr1. reflexivity. }
    split; [ exact Herr2 | ].
    destruct (cycle_alarm_and_delay sensors inp3 (result_of r2) (state_of r2))
      as [rest [Ht [Ha Hd]]].
    fold r3 in Ht. exists rest.
    unfold prologue_events in Ht. unfold at_loop_entry in Hd.
    rewrite Herr2 in Ht, Hd. split; [ exact Ht | split; [ exact Ha | exact Hd ] ].
Qed.

Lemma stall_resets_once_then_delays_under_critical_alarm_witness :
  let sensors := [accel_instance; auxmag_instance] in
  let r1 := @SensorsTask_cycle board_500Hz sensors stalled_input
              initial_locals plain_globals in
  let r2 := @SensorsTask_cycle board_500Hz sensors delivering_input
              (result_of r1) (state_of r1) in
  filter is_reset (trace_of r1) = [EvSensorReset accel_instance]
  /\ reset_counter (result_of r1) = 1
  /\ error (result_of r1) = true
  /\ error (result_of r2) = false.
Proof.
  intros sensors r1 r2.
  destruct (@stall_resets_once_then_delays_under_critical_alarm board_500Hz
              [] [auxmag_instance] accel_instance
              stalled_input delivering_input delivering_input
              initial_locals plain_globals
              eq_refl eq_refl ltac:(repeat constructor) eq_refl)
    as [[_ [Hreset [Hcount Herr]]] [_ Hresume]].
  destruct Hresume as [Herr2 _]; [ simpl; lia | ].
  repeat split; assumption.
Defined.

(** C1 as stated fails on the severity: in the iteration after a stall the
    one alarm call raises the sensors alarm at CRITICAL, and no call raises
    it at WARNING. *)
Lemma stall_alarm_is_critical_not_warning :
  let sensors := [accel_instance; auxmag_instance] in
  let r1 := @SensorsTask_cycle board_500Hz sensors stalled_input
              initial_locals plain_globals in
  let r2 := @SensorsTask_cycle board_500Hz sensors delivering_input
              (result_of r1) (state_of r1) in
  error (result_of r1) = true
  /\ filter is_alarm (trace_of r2) = [EvAlarmsSet SYSTEMALARMS_ALARM_CRITICAL]
  /\ filter is_warning_alarm (trace_of r2) = [].
Proof. repeat split; vm_compute; reflexivity. Qed.

(* ------------------------------------------------------------------ *)
(** ** Decimation of the auxiliary magnetometer *)

(** The binary32 evaluation of [AUX_MAG_SKIP] at every integral rate from 1
    to 19200 Hz agrees with the integer formula. *)
Lemma aux_mag_skip_of_rate_integral (rate : Z) :
  1 <= rate <= 19200 ->
  aux_mag_skip_of_rate (float_of_Z rate) = (Z.max rate 76 + 74) / 75.
Proof.
  intros Hr.
  assert (Hall : forallb (fun k => aux_mag_skip_of_rate (float_of_Z (Z.of_nat k))
                                   =? (Z.max (Z.of_nat k) 76 + 74) / 75)
                         (seq 1 (Z.to_nat 19200)) = true)
    by (vm_compute; reflexivity).
  rewrite forallb_forall in Hall.
  specialize (Hall (Z.to_nat rate)).
  rewrite Z2Nat.id in Hall by lia.
  apply Z.eqb_eq. apply Hall. apply in_seq. lia.
Qed.

Lemma ceil_div_75_formula (n : Z) : ceil_div_75 n ((n + 74) / 75).
Proof.
  unfold ceil_div_75.
  pose proof (Z.div_mod (n + 74) 75 ltac:(lia)) as Hd.
  pose proof (Z.mod_pos_bound (n + 74) 75 ltac:(lia)) as Hm.
  split; [ lia | ].
  intros j Hj. apply Z.lt_succ_r. apply Z.div_lt_upper_bound; lia.
Qed.

Lemma skip_step (N a : Z) :
  2 <= N <= 256 -> 0 <= a < N ->
  wrap_u8 (Z.rem (a + 1) N) = if a + 1 =? N then 0 else a + 1.
Proof.
  intros HN Ha. rewrite Z.rem_mod_nonneg by lia. unfold wrap_u8.
  destruct (a + 1 =? N) eqn:E.
  - apply Z.eqb_eq in E. rewrite E, Z.mod_same by lia. reflexivity.
  - apply Z.eqb_neq in E. rewrite (Z.mod_small (a + 1) N) by lia.
    apply Z.mod_small. lia.
Qed.

Section Decimation.
Context {P : Platform}.

Lemma existsb_drain sensor pr items : forall ctx,
  existsb is_auxmag_access (drain_events sensor pr items ctx) = is_auxmag sensor.
Proof.
  induction items as [| item rest IH]; intros ctx; cbn [drain_events existsb].
  - apply orb_false_r.
  - rewrite IH. apply orb_diag.
Qed.

Lemma visit_auxmag sensor feed l :
  existsb is_auxmag_access (snd (visit_outcome sensor feed l))
  = is_auxmag sensor && (aux_mag_skip l =? 0).
Proof.
  unfold visit_outcome. fold (is_auxmag sensor).
  destruct (is_auxmag sensor) eqn:Hx; cbn [negb orb andb].
  - destruct (aux_mag_skip l =? 0); [ | reflexivity ].
    destruct (is_polled sensor); cbn [negb].
    + destruct (poll_ready feed); cbn [snd existsb is_auxmag_access];
        fold (is_auxmag sensor); rewrite Hx; reflexivity.
    + destruct (count _ =? 0); cbn [negb snd];
        [ destruct (type_has _ ACCEL_FLAG); cbn [snd] | ];
        rewrite ?existsb_app, existsb_drain, Hx; reflexivity.
  - destruct (is_polled sensor); cbn [negb].
    + destruct (poll_ready feed); cbn [snd existsb is_auxmag_access];
        fold (is_auxmag sensor); rewrite Hx;
        [ destruct (type_has _ PIOS_SENSORS_TYPE_3D) | ]; reflexivity.
    + destruct (count _ =? 0); cbn [negb snd];
        [ destruct (type_has _ ACCEL_FLAG); cbn [snd] | ];
        rewrite ?existsb_app, existsb_drain, Hx; reflexivity.
Qed.

Lemma foreach_auxmag sensors : forall fs l,
  existsb is_auxmag_access (snd (foreach_outcome sensors fs l))
  = (aux_mag_skip l =? 0) && existsb is_auxmag sensors.
Proof.
  induction sensors as [| sensor rest IH]; intros fs l.
  - cbn. rewrite andb_false_r. reflexivity.
  - cbn [foreach_outcome existsb].
    pose proof (visit_auxmag sensor (hd empty_feed fs) l) as Hv.
    destruct (visit_keeps sensor (hd empty_feed fs) l) as [Ha _].
    destruct (visit_outcome sensor (hd empty_feed fs) l) as [l1 t1].
    specialize (IH (tl fs) l1).
    destruct (foreach_outcome rest (tl fs) l1) as [l2 t2].
    cbn [fst snd] in *. rewrite existsb_app, Hv, IH, Ha.
    destruct (aux_mag_skip l =? 0), (is_auxmag sensor); reflexivity.
Qed.

Lemma visit_accesses sensor feed l :
  is_auxmag sensor = false ->
  exists e, In e (snd (visit_outcome sensor feed l)) /\ accesses sensor e.
Proof.
  intros Hx. unfold visit_outcome. fold (is_auxmag sensor). rewrite Hx.
  cbn [negb orb].
  destruct (is_polled sensor); cbn [negb].
  - destruct (poll_ready feed); eexists; (split; [ left; reflexivity | ]);
      right; eexists; reflexivity.
  - assert (Hd : exists e, In e (drain_events sensor
                                   (type_has (sensor_type sensor) ACCEL_FLAG)
                                   (queued feed) (sensor_context l))
                           /\ accesses sensor e).
    { destruct (queued feed); eexists; (split; [ left; reflexivity | ]);
        left; do 2 eexists; reflexivity. }
    destruct Hd as [e [Hin Hacc]]. exists e. split; [ | exact Hacc ].
    destruct (count _ =? 0); cbn [negb snd];
      [ destruct (type_has _ ACCEL_FLAG); cbn [snd] | ];
      try apply in_or_app; auto.
Qed.

Lemma foreach_accesses sensors : forall fs l s,
  In s sensors -> is_auxmag s = false ->
  exists e, In e (snd (foreach_outcome sensors fs l)) /\ accesses s e.
Proof.
  induction sensors as [| sensor rest IH]; intros fs l s Hin Hx; [ inversion Hin | ].
  cbn [foreach_outcome].
  pose proof (visit_accesses sensor (hd empty_feed fs) l) as Hv.
  destruct (visit_outcome sensor (hd empty_feed fs) l) as [l1 t1].
  specialize (IH (tl fs) l1 s).
  destruct (foreach_outcome rest (tl fs) l1) as [l2 t2]. cbn [snd] in *.
  destruct Hin as [-> | Hin].
  - destruct (Hv Hx) as [e [He Ha]]. exists e. split; [ | exact Ha ].
    apply in_or_app. left. exact He.
  - destruct (IH Hin Hx) as [e [He Ha]]. exists e. split; [ | exact Ha ].
    apply in_or_app. right. exact He.
Qed.

Lemma cycle_accesses sensors inp l g s :
  In s sensors -> is_auxmag s = false ->
  exists e, In e (trace_of (SensorsTask_cycle sensors inp l g)) /\ accesses s e.
Proof.
  intros Hin Hx.
  destruct (SensorsTask_cycle_outcome sensors inp l g) as [_ [rest [Ht Hl]]].
  destruct (foreach_accesses sensors (feeds inp)
              (at_loop_entry (tick_now inp) l) s Hin Hx) as [e [He Ha]].
  exists e. split; [ | exact Ha ].
  rewrite Ht. apply in_or_app. right. apply In_loud. rewrite Hl.
  apply in_or_app. left. exact He.
Qed.

Lemma cycle_skip_counter sensors inp l g :
  aux_mag_skip (result_of (SensorsTask_cycle sensors inp l g))
  = wrap_u8 (Z.rem (aux_mag_skip l + 1) AUX_MAG_SKIP).
Proof.
  destruct (SensorsTask_cycle_outcome sensors inp l g) as [Hres _].
  rewrite Hres. cbn [aux_mag_skip set_lastSysTime].
  destruct (foreach_keeps sensors (feeds inp) (at_loop_entry (tick_now inp) l))
    as [Ha _].
  rewrite Ha. unfold at_loop_entry. destruct (error l); reflexivity.
Qed.

Lemma cycle_processes_auxmag sensors inp l g :
  processes_auxmag (trace_of (SensorsTask_cycle sensors inp l g))
  = (wrap_u8 (Z.rem (aux_mag_skip l + 1) AUX_MAG_SKIP) =? 0)
    && existsb is_auxmag sensors.
Proof.
  destruct (SensorsTask_cycle_outcome sensors inp l g) as [_ [rest [Ht Hl]]].
  unfold processes_auxmag. rewrite Ht, existsb_app.
  replace (existsb is_auxmag_access (prologue_events (tick_now inp) l)) with false
    by (unfold prologue_events; destruct (error l); reflexivity).
  rewrite <- existsb_loud by (intros [] ?; try discriminate; reflexivity).
  rewrite Hl, existsb_app, foreach_auxmag. cbn [existsb is_auxmag_access orb].
  rewrite orb_false_r. f_equal. f_equal.
  unfold at_loop_entry. destruct (error l); reflexivity.
Qed.

Lemma no_access_run sensors inps : forall l g,
  2 <= AUX_MAG_SKIP <= 256 ->
  0 <= aux_mag_skip l ->
  aux_mag_skip l + Z.of_nat (length inps) < AUX_MAG_SKIP ->
  filter processes_auxmag (cycle_traces sensors inps l g) = [].
Proof.
  induction inps as [| inp rest IH]; intros l g HN Ha Hlen; [ reflexivity | ].
  cbn [length] in Hlen. rewrite Nat2Z.inj_succ in Hlen.
  cbn [cycle_traces filter].
  rewrite cycle_processes_auxmag, skip_step by lia.
  replace (aux_mag_skip l + 1 =? AUX_MAG_SKIP) with false
    by (symmetry; apply Z.eqb_neq; lia).
  replace (aux_mag_skip l + 1 =? 0) with false
    by (symmetry; apply Z.eqb_neq; lia).
  cbn [andb]. apply IH; try assumption;
    rewrite cycle_skip_counter, skip_step by lia;
    replace (aux_mag_skip l + 1 =? AUX_MAG_SKIP) with false
      by (symmetry; apply Z.eqb_neq; lia); lia.
Qed.

Lemma one_access_run sensors inps : forall l g,
  existsb is_auxmag sensors = true ->
  2 <= AUX_MAG_SKIP <= 256 ->
  0 <= aux_mag_skip l < AUX_MAG_SKIP ->
  AUX_MAG_SKIP - aux_mag_skip l <= Z.of_nat (length inps)
    < 2 * AUX_MAG_SKIP - aux_mag_skip l ->
  length (filter processes_auxmag (cycle_traces sensors inps l g)) = 1%nat.
Proof.
  induction inps as [| inp rest IH]; intros l g Hx HN Ha Hlen.
  - cbn [length] in Hlen. lia.
  - cbn [length] in Hlen. rewrite Nat2Z.inj_succ in Hlen.
    cbn [cycle_traces filter].
    rewrite cycle_processes_auxmag, skip_step, Hx by lia.
    destruct (aux_mag_skip l + 1 =? AUX_MAG_SKIP) eqn:E.
    + cbn [Z.eqb andb length]. f_equal.
      rewrite no_access_run; [ reflexivity | assumption | | ];
        rewrite cycle_skip_counter, skip_step, E by lia; [ lia | ].
      apply Z.eqb_eq in E. lia.
    + apply Z.eqb_neq in E.
      replace (aux_mag_skip l + 1 =? 0) with false
        by (symmetry; apply Z.eqb_neq; lia).
      cbn [andb]. apply IH; try assumption;
        rewrite cycle_skip_counter, skip_step by lia;
        replace (aux_mag_skip l + 1 =? AUX_MAG_SKIP) with false
          by (symmetry; apply Z.eqb_neq; lia); lia.
Qed.

End Decimation.

(** C9.  For a sampling rate of a whole number of Hz from 1 to 19200 (the
    rates at which the decimation modulus fits the [uint8_t] counter),
    [AUX_MAG_SKIP] is [ceil(max(rate, 76) / 75)]; the decimation counter
    stays below it; over any [AUX_MAG_SKIP] consecutive iterations the
    auxiliary magnetometer is processed in exactly one; and every other
    instance is accessed in every iteration.  At 500 Hz the modulus is 7. *)
Theorem auxmag_processed_once_every_skip_cycles `{P : Platform}
    (rate : Z) (sensors : list PIOS_SENSORS_Instance) :
  PIOS_SENSOR_RATE = float_of_Z rate ->
  1 <= rate <= 19200 ->
  ceil_div_75 (Z.max rate 76) AUX_MAG_SKIP
  /\ (forall inp l g,
        0 <= aux_mag_skip l < AUX_MAG_SKIP ->
        0 <= aux_mag_skip (result_of (SensorsTask_cycle sensors inp l g))
          < AUX_MAG_SKIP)
  /\ (forall inps l g,
        existsb is_auxmag sensors = true ->
        0 <= aux_mag_skip l < AUX_MAG_SKIP ->
        Z.of_nat (length inps) = AUX_MAG_SKIP ->
        length (filter processes_auxmag (cycle_traces sensors inps l g)) = 1%nat)
  /\ (forall inp l g s,
        In s sensors -> is_auxmag s = false ->
        exists e,
          In e (trace_of (SensorsTask_cycle sensors inp l g)) /\ accesses s e)
  /\ (rate = 500 -> AUX_MAG_SKIP = 7).
Proof.
  intros Hrate Hr.
  assert (HN : AUX_MAG_SKIP = (Z.max rate 76 + 74) / 75).
  { unfold AUX_MAG_SKIP. rewrite Hrate. apply aux_mag_skip_of_rate_integral.
    exact Hr. }
  assert (Hrange : 2 <= AUX_MAG_SKIP <= 256).
  { rewrite HN. split.
    - apply Z.div_le_lower_bound; lia.
    - apply Z.lt_succ_r. apply Z.div_lt_upper_bound; lia. }
  split; [ rewrite HN; apply ceil_div_75_formula | ].
  split; [ | split; [ | split ] ].
  - intros inp l g Ha. rewrite cycle_skip_counter, skip_step by assumption.
    destruct (aux_mag_skip l + 1 =? AUX_MAG_SKIP) eqn:E; [ lia | ].
    apply Z.eqb_neq in E. lia.
  - intros inps l g Hx Ha Hlen. apply one_access_run; try assumption. lia.
  - intros inp l g s Hin Hx. apply cycle_accesses; assumption.
  - intros ->. rewrite HN. reflexivity.
Qed.

Lemma auxmag_processed_once_every_skip_cycles_witness :
  @AUX_MAG_SKIP board_500Hz = 7
  /\ length (filter processes_auxmag
               (@cycle_traces board_500Hz [accel_instance; auxmag_instance]
                  seven_inputs initial_locals plain_globals)) = 1%nat.
Proof.
  destruct (@auxmag_processed_once_every_skip_cycles board_500Hz 500
              [accel_instance; auxmag_instance] eq_refl ltac:(lia))
    as [_ [_ [Hone [_ H7]]]].
  split; [ apply H7; reflexivity | ].
  apply Hone; [ reflexivity | rewrite (H7 eq_refl); simpl; lia
              | rewrite (H7 eq_refl); reflexivity ].
Defined.

(* ------------------------------------------------------------------ *)
(** ** What the handlers and the loop do to the module state *)

Section StateEffects.
Context {P : Platform}.

Lemma updateAccelTempBias_frame c x t :
  gyro_part (updateAccelTempBias c x t) = gyro_part t
  /\ baro_part (updateAccelTempBias c x t) = baro_part t.
Proof.
  unfold updateAccelTempBias.
  destruct (isnan (accel_temperature t)), (accel_temp_calibrated c);
    cbn [andb accel_temp_calibration_count set_accel_temperature];
    try (split; reflexivity);
    destruct (accel_temp_calibration_count t =? 0); split; reflexivity.
Qed.

Lemma updateGyroTempBias_frame c x t :
  accel_part (updateGyroTempBias c x t) = accel_part t
  /\ baro_part (updateGyroTempBias c x t) = baro_part t.
Proof.
  unfold updateGyroTempBias.
  destruct (isnan (gyro_temperature t)), (gyro_temp_calibrated c);
    cbn [andb gyro_temp_calibration_count set_gyro_temperature];
    try (split; reflexivity);
    destruct (gyro_temp_calibration_count t =? 0); split; reflexivity.
Qed.

Lemma updateBaroTempBias_frame c x t :
  accel_part (updateBaroTempBias c x t) = accel_part t
  /\ gyro_part (updateBaroTempBias c x t) = gyro_part t.
Proof.
  unfold updateBaroTempBias.
  destruct (isnan (baro_temperature t)), (baro_temp_correction_enabled c);
    cbn [andb baro_temp_calibration_count set_baro_temperature];
    try (split; reflexivity);
    destruct (baro_temp_calibration_count t =? 0); split; reflexivity.
Qed.

Lemma state_of_handleAccel samples temp g :
  state_of (handleAccel samples temp g)
  = mkGlobals (cal g) (updateAccelTempBias (cal g) temp (trk g)).
Proof. reflexivity. Qed.

Lemma state_of_handleGyro samples temp g :
  state_of (handleGyro samples temp g)
  = mkGlobals (cal g) (updateGyroTempBias (cal g) temp (trk g)).
Proof. reflexivity. Qed.

Lemma state_of_handleBaro sample temp g :
  state_of (handleBaro sample temp g)
  = mkGlobals (cal g) (updateBaroTempBias (cal g) temp (trk g)).
Proof.
  unfold handleBaro, bind, update_trk, get_trk, state_of. cbn [trk cal snd fst].
  destruct (isnan (baro_altitude _)); reflexivity.
Qed.

Lemma state_of_handleMag samples temp g : state_of (handleMag samples temp g) = g.
Proof. reflexivity. Qed.

Lemma state_of_handleAuxMag samples g : state_of (handleAuxMag samples g) = g.
Proof. reflexivity. Qed.

Lemma state_of_emit e g : state_of (emit e g) = g.
Proof. reflexivity. Qed.

Lemma state_of_ret {A} (x : A) g : state_of (ret x g) = g.
Proof. reflexivity. Qed.

Lemma state_of_processSamples3d ctx sensor g :
  let n := count ctx in
  let mt := mean_temperature (temperature ctx) n in
  state_of (processSamples3d ctx sensor g)
  = match sensor_type sensor with
    | PIOS_SENSORS_TYPE_3AXIS_ACCEL =>
        mkGlobals (cal g) (updateAccelTempBias (cal g) mt (trk g))
    | PIOS_SENSORS_TYPE_3AXIS_GYRO =>
        mkGlobals (cal g) (updateGyroTempBias (cal g) mt (trk g))
    | PIOS_SENSORS_TYPE_3AXIS_GYRO_ACCEL =>
        mkGlobals (cal g)
          (updateGyroTempBias (cal g) mt
             (updateAccelTempBias (cal g) mt (trk g)))
    | _ => g
    end.
Proof.
  cbv zeta. unfold processSamples3d, processSamples3d_gyro.
  destruct (sensor_type sensor); reflexivity.
Qed.

Lemma cal_processSamples3d ctx sensor g :
  cal (state_of (processSamples3d ctx sensor g)) = cal g.
Proof.
  rewrite state_of_processSamples3d. destruct (sensor_type sensor); reflexivity.
Qed.

Lemma cal_processSamples1d sample sensor g :
  cal (state_of (processSamples1d sample sensor g)) = cal g.
Proof.
  unfold processSamples1d. destruct (sensor_type sensor); try reflexivity.
  rewrite state_of_bind, state_of_handleBaro. reflexivity.
Qed.

Lemma cal_visit_sensor sensor feed l g :
  cal (state_of (visit_sensor sensor feed l g)) = cal g.
Proof.
  unfold visit_sensor.
  destruct (negb _ || _); [ | reflexivity ].
  destruct (is_polled sensor); cbn [negb].
  - destruct (poll_ready feed); [ | reflexivity ].
    destruct (type_has _ PIOS_SENSORS_TYPE_3D); autorewrite with run;
      cbn [emit ret state_of result_of fst snd];
      [ apply cal_processSamples3d | apply cal_processSamples1d ].
  - rewrite state_of_bind, drain_queue_run.
    rewrite result_of_triple, state_of_triple.
    destruct (count _ =? 0); cbn [negb].
    + destruct (type_has _ ACCEL_FLAG); reflexivity.
    + autorewrite with run. cbn [ret state_of fst snd].
      apply cal_processSamples3d.
Qed.

Lemma cal_foreach_sensor sensors : forall fs l g,
  cal (state_of (foreach_sensor sensors fs l g)) = cal g.
Proof.
  induction sensors as [| sensor rest IH]; intros fs l g; [ reflexivity | ].
  cbn [foreach_sensor]. rewrite state_of_bind, IH. apply cal_visit_sensor.
Qed.

Lemma cal_cycle sensors inp l g :
  cal (state_of (SensorsTask_cycle sensors inp l g)) = cal g.
Proof.
  unfold SensorsTask_cycle.
  rewrite state_of_bind, cycle_prologue_run.
  rewrite result_of_triple, state_of_triple.
  autorewrite with run. cbn [emit vTaskDelayUntil ret state_of fst snd].
  unfold vTaskDelayUntil. autorewrite with run. cbn [emit ret state_of fst snd].
  apply cal_foreach_sensor.
Qed.

Lemma cal_steps sensors inps : forall st g,
  cal (state_of (SensorsTask_steps sensors inps st g)) = cal g.
Proof.
  induction inps as [| inp rest IH]; intros st g; [ reflexivity | ].
  cbn [SensorsTask_steps]. rewrite state_of_bind, IH.
  unfold SensorsTask_step. destruct (phase st); try reflexivity.
  rewrite state_of_bind. cbn [ret state_of fst snd]. apply cal_cycle.
Qed.

End StateEffects.

Lemma fsub_zero_r (x : float) : (x - S754_zero false)%f32 = x.
Proof. destruct x as [[] | [] | | [] m e]; reflexivity. Qed.

Section Updates.
Context {P : Platform}.

Lemma cal_step sensors inp st g :
  cal (state_of (SensorsTask_step sensors inp st g)) = cal g.
Proof.
  unfold SensorsTask_step. destruct (phase st); try reflexivity.
  rewrite state_of_bind. cbn [ret state_of fst snd]. apply cal_cycle.
Qed.

Lemma cal_run sensors ins : forall st g s0 g',
  cal g = cal (state_of (settingsUpdatedCb s0 g')) ->
  cal (state_of (SensorsTask_run sensors ins st g))
  = cal (state_of (settingsUpdatedCb (settings_in_force s0 ins) g')).
Proof.
  induction ins as [| [inp | s] rest IH]; intros st g s0 g' H.
  - exact H.
  - cbn [SensorsTask_run settings_in_force fold_left].
    rewrite state_of_bind. apply IH. rewrite cal_step. exact H.
  - cbn [SensorsTask_run settings_in_force fold_left].
    rewrite state_of_bind. apply IH. reflexivity.
Qed.

End Updates.

(** X1. No code of the task writes the calibration cache: a turn of its
    loop, in whichever loop it is, leaves the cache exactly as it found it.
    The cache changes only when the settings callback runs, so over a run
    in which settings updates arrive between turns it is at the end what
    the callback computes from the settings of the most recent update, or
    of the start-up if none arrived. *)
Theorem task_loop_never_writes_calibration `{P : Platform}
    (sensors : list PIOS_SENSORS_Instance) (boot : boot_input)
    (inp : cycle_input) (ins : list task_input) (st : task_state)
    (g : globals) :
  cal (state_of (SensorsTask_step sensors inp st g)) = cal g
  /\ cal (state_of (SensorsTask_with_updates sensors boot ins g))
     = cal (state_of (settingsUpdatedCb
                        (settings_in_force (boot_settings boot) ins) g)).
Proof.
  split; [ apply cal_step | ].
  unfold SensorsTask_with_updates. rewrite state_of_bind.
  apply cal_run.
  unfold SensorsTask_boot. autorewrite with run.
  rewrite test_sensors_run by lia. autorewrite with run.
  cbn [emit state_of result_of fst snd].
  destruct (_ =? 0); [ reflexivity | ].
  destruct (negb _); reflexivity.
Qed.

(** X2. Each channel handler writes only the tracker of its own channel: an
    accelerometer leaves the gyro and barometer trackers as they are, a gyro
    the accelerometer and barometer ones, a combined instance the barometer
    one, the barometer the two others, and the magnetometers leave the whole
    module state untouched. *)
Theorem handlers_write_only_their_own_tracker `{P : Platform}
    (ctx : sensor_fetch_context) (sensor : PIOS_SENSORS_Instance)
    (sample temp : float) (g : globals) :
  match sensor_type sensor with
  | PIOS_SENSORS_TYPE_3AXIS_ACCEL =>
      gyro_part (trk (state_of (processSamples3d ctx sensor g))) = gyro_part (trk g)
      /\ baro_part (trk (state_of (processSamples3d ctx sensor g)))
         = baro_part (trk g)
  | PIOS_SENSORS_TYPE_3AXIS_GYRO =>
      accel_part (trk (state_of (processSamples3d ctx sensor g)))
      = accel_part (trk g)
      /\ baro_part (trk (state_of (processSamples3d ctx sensor g)))
         = baro_part (trk g)
  | PIOS_SENSORS_TYPE_3AXIS_GYRO_ACCEL =>
      baro_part (trk (state_of (processSamples3d ctx sensor g))) = baro_part (trk g)
  | _ => state_of (processSamples3d ctx sensor g) = g
  end
  /\ accel_part (trk (state_of (handleBaro sample temp g))) = accel_part (trk g)
  /\ gyro_part (trk (state_of (handleBaro sample temp g))) = gyro_part (trk g).
Proof.
  rewrite state_of_processSamples3d, state_of_handleBaro. cbv zeta.
  split; [ | apply updateBaroTempBias_frame ].
  destruct (sensor_type sensor); cbn [trk]; try reflexivity.
  - apply updateAccelTempBias_frame.
  - apply updateGyroTempBias_frame.
  - destruct (updateGyroTempBias_frame (cal g)
                (mean_temperature (temperature ctx) (count ctx))
                (updateAccelTempBias (cal g)
                   (mean_temperature (temperature ctx) (count ctx)) (trk g)))
      as [_ H].
    rewrite H. apply updateAccelTempBias_frame.
Qed.

Lemma handleGyro_trace `{P : Platform} (samples : vec3f) (temp : float) (g : globals) :
  let k := agcal (cal g) in
  let tb := gyro_temp_bias (updateGyroTempBias (cal g) temp (trk g)) in
  let out :=
    rot_mult (R (cal g))
      (mkV3 (v0 samples * X (gyro_scale k) - X (gyro_bias k) - v0 tb)%f32
            (v1 samples * Y (gyro_scale k) - Y (gyro_bias k) - v1 tb)%f32
            (v2 samples * Z_ (gyro_scale k) - Z_ (gyro_bias k) - v2 tb)%f32) in
  trace_of (handleGyro samples temp g)
  = [EvGyroSensorSet (mkGyroSensor (v0 out) (v1 out) (v2 out) temp)].
Proof. reflexivity. Qed.

Lemma handleAccel_trace `{P : Platform} (samples : vec3f) (temp : float) (g : globals) :
  let k := agcal (cal g) in
  let tb := accel_temp_bias (updateAccelTempBias (cal g) temp (trk g)) in
  let out :=
    rot_mult (R (cal g))
      (mkV3 ((v0 samples - X (accel_bias k)) * X (accel_scale k) - v0 tb)%f32
            ((v1 samples - Y (accel_bias k)) * Y (accel_scale k) - v1 tb)%f32
            ((v2 samples - Z_ (accel_bias k)) * Z_ (accel_scale k) - v2 tb)%f32) in
  trace_of (handleAccel samples temp g)
  = [EvAccelSensorSet (mkAccelSensor (v0 out) (v1 out) (v2 out) temp)].
Proof. reflexivity. Qed.

(** X3. With the temperature corrections switched off and the biases at their
    initial zero, the handlers publish values without any temperature term:
    the barometer publishes the raw pressure itself, the accelerometer the
    rotated [(sample - bias) * scale], the gyro the rotated
    [sample * scale - bias]; and the biases are still zero afterwards. *)
Theorem disabled_corrections_leave_samples_uncorrected `{P : Platform}
    (samples : vec3f) (sample temp : float) (g : globals) :
  accel_temp_calibrated (cal g) = false ->
  gyro_temp_calibrated (cal g) = false ->
  baro_temp_correction_enabled (cal g) = false ->
  accel_temp_bias (trk g) = zero3 ->
  gyro_temp_bias (trk g) = zero3 ->
  baro_temp_bias (trk g) = f_0 ->
  let k := agcal (cal g) in
  (trace_of (handleBaro sample temp g)
   = (if isnan (baro_altitude sample) then []
      else [EvBaroSensorSet (mkBaroSensor (baro_altitude sample) temp sample)])
   /\ baro_temp_bias (trk (state_of (handleBaro sample temp g))) = f_0)
  /\ (let out :=
        rot_mult (R (cal g))
          (mkV3 ((v0 samples - X (accel_bias k)) * X (accel_scale k))%f32
                ((v1 samples - Y (accel_bias k)) * Y (accel_scale k))%f32
                ((v2 samples - Z_ (accel_bias k)) * Z_ (accel_scale k))%f32) in
      trace_of (handleAccel samples temp g)
      = [EvAccelSensorSet (mkAccelSensor (v0 out) (v1 out) (v2 out) temp)]
      /\ accel_temp_bias (trk (state_of (handleAccel samples temp g))) = zero3)
  /\ (let out :=
        rot_mult (R (cal g))
          (mkV3 (v0 samples * X (gyro_scale k) - X (gyro_bias k))%f32
                (v1 samples * Y (gyro_scale k) - Y (gyro_bias k))%f32
                (v2 samples * Z_ (gyro_scale k) - Z_ (gyro_bias k))%f32) in
      trace_of (handleGyro samples temp g)
      = [EvGyroSensorSet (mkGyroSensor (v0 out) (v1 out) (v2 out) temp)]
      /\ gyro_temp_bias (trk (state_of (handleGyro samples temp g))) = zero3).
Proof.
  intros Ha Hg Hb Hab Hgb Hbb k.
  assert (Hab' : accel_temp_bias (updateAccelTempBias (cal g) temp (trk g)) = zero3)
    by (rewrite accel_bias_update, Ha; exact Hab).
  assert (Hgb' : gyro_temp_bias (updateGyroTempBias (cal g) temp (trk g)) = zero3)
    by (rewrite gyro_bias_update, Hg; exact Hgb).
  assert (Hbb' : baro_temp_bias (updateBaroTempBias (cal g) temp (trk g)) = f_0)
    by (rewrite baro_bias_update, Hb; exact Hbb).
  split; [ | split ].
  - rewrite state_of_handleBaro. cbn [trk]. split; [ | exact Hbb' ].
    pose proof (handleBaro_trace sample temp g) as Ht. cbv zeta in Ht.
    rewrite Hbb' in Ht. change f_0 with (S754_zero false) in Ht.
    rewrite fsub_zero_r in Ht. exact Ht.
  - cbv zeta. rewrite state_of_handleAccel. cbn [trk]. split; [ | exact Hab' ].
    pose proof (handleAccel_trace samples temp g) as Ht. cbv zeta in Ht.
    rewrite Ht, Hab'. cbn [zero3 v0 v1 v2]. change f_0 with (S754_zero false).
    rewrite !fsub_zero_r. reflexivity.
  - cbv zeta. rewrite state_of_handleGyro. cbn [trk]. split; [ | exact Hgb' ].
    pose proof (handleGyro_trace samples temp g) as Ht. cbv zeta in Ht.
    rewrite Ht, Hgb'. cbn [zero3 v0 v1 v2]. change f_0 with (S754_zero false).
    rewrite !fsub_zero_r. reflexivity.
Qed.

Lemma disabled_corrections_leave_samples_uncorrected_witness :
  trace_of (@handleBaro board_500Hz (float_of_Z 101325) f_25 plain_globals)
  = [EvBaroSensorSet (mkBaroSensor f_0 f_25 (float_of_Z 101325))].
Proof.
  destruct (@disabled_corrections_leave_samples_uncorrected board_500Hz
              (mkV3 f_1 f_2 f_1) (float_of_Z 101325) f_25 plain_globals
              eq_refl eq_refl eq_refl eq_refl eq_refl eq_refl) as [[H _] _].
  rewrite H. vm_compute. reflexivity.
Defined.

(* ------------------------------------------------------------------ *)
(** ** Alarm, watchdog and assertion over the iterations *)

Lemma raised_severities_app t1 t2 :
  raised_severities (t1 ++ t2) = raised_severities t1 ++ raised_severities t2.
Proof.
  induction t1 as [| e t1 IH]; [ reflexivity | ].
  destruct e; cbn [app raised_severities]; rewrite ?IH; reflexivity.
Qed.

Lemma raised_severities_filter t :
  raised_severities (filter is_alarm t) = raised_severities t.
Proof.
  induction t as [| e t IH]; [ reflexivity | ].
  destruct e; cbn [filter is_alarm raised_severities]; rewrite ?IH; reflexivity.
Qed.

Section Iterations.
Context {P : Platform}.

(** The trace of an iteration: its opening events, the sensor loop, and the
    three calls that close it. *)
Lemma cycle_trace_shape sensors inp l g :
  let l0 := at_loop_entry (tick_now inp) l in
  trace_of (SensorsTask_cycle sensors inp l g)
  = prologue_events (tick_now inp) l
    ++ trace_of (foreach_sensor sensors (feeds inp) l0 g)
    ++ [EvPerfMeasurePeriod counterSensorPeriod; EvReloadWdg;
        EvTaskDelayUntil (wrap_u32 (lastSysTime l0 + sensor_period_ticks))].
Proof.
  intros l0. unfold SensorsTask_cycle.
  rewrite trace_of_bind, cycle_prologue_run.
  rewrite result_of_triple, state_of_triple, trace_of_triple.
  repeat match goal with
         | |- context [foreach_sensor sensors (feeds inp) ?x] =>
             progress change x with l0
         end.
  f_equal. rewrite trace_of_bind. f_equal.
  destruct (foreach_sensor_outcome sensors (feeds inp) l0 g) as [Hr _].
  destruct (foreach_keeps sensors (feeds inp) l0) as [_ [Hlast _]].
  unfold vTaskDelayUntil. autorewrite with run.
  cbn [emit ret trace_of result_of fst snd app]. rewrite Hr, Hlast. reflexivity.
Qed.

(** Events that neither the sensor loop nor a handler produces are those of
    the opening and of the closing of the iteration. *)
Lemma filter_cycle (p : event -> bool) sensors inp l g :
  (forall e, p e = true -> quiet e = false) ->
  (forall e, sensor_event e = true -> p e = false) ->
  filter p (trace_of (SensorsTask_cycle sensors inp l g))
  = filter p (prologue_events (tick_now inp) l)
    ++ filter p [EvReloadWdg;
                 EvTaskDelayUntil
                   (wrap_u32 (lastSysTime (at_loop_entry (tick_now inp) l)
                              + sensor_period_ticks))].
Proof.
  intros Hq Hs.
  destruct (SensorsTask_cycle_outcome sensors inp l g) as [_ [rest [Ht Hl]]].
  rewrite Ht, filter_app. f_equal.
  rewrite <- filter_loud by exact Hq.
  rewrite Hl, filter_app.
  rewrite (filter_none p _ (foreach_sensor_events _ _ _) Hs).
  destruct (foreach_keeps sensors (feeds inp) (at_loop_entry (tick_now inp) l))
    as [_ [Hlast _]].
  rewrite Hlast. reflexivity.
Qed.

Lemma filter_steps_none (p : event -> bool) sensors inps : forall st g,
  (forall inp l g', filter p (trace_of (SensorsTask_cycle sensors inp l g')) = []) ->
  p (EvTaskDelay 10) = false ->
  filter p (trace_of (SensorsTask_steps sensors inps st g)) = [].
Proof.
  induction inps as [| inp rest IH]; intros st g Hc Hd; [ reflexivity | ].
  cbn [SensorsTask_steps]. rewrite trace_of_bind, filter_app, IH by assumption.
  rewrite app_nil_r. unfold SensorsTask_step. destruct (phase st).
  - rewrite trace_of_bind. cbn [ret trace_of snd]. rewrite app_nil_r. apply Hc.
  - cbn. rewrite Hd. reflexivity.
  - reflexivity.
Qed.

Lemma raised_in_cycle sensors inp l g :
  raised_severities (trace_of (SensorsTask_cycle sensors inp l g))
  = if error l then [SYSTEMALARMS_ALARM_CRITICAL] else [].
Proof.
  rewrite <- raised_severities_filter.
  rewrite filter_cycle
    by (intros [] ?; try discriminate; reflexivity).
  unfold prologue_events. destruct (error l); reflexivity.
Qed.

Lemma raised_in_steps sensors inps : forall st g,
  Forall (eq SYSTEMALARMS_ALARM_CRITICAL)
    (raised_severities (trace_of (SensorsTask_steps sensors inps st g))).
Proof.
  induction inps as [| inp rest IH]; intros st g; [ constructor | ].
  cbn [SensorsTask_steps]. rewrite trace_of_bind, raised_severities_app.
  apply Forall_app. split; [ | apply IH ].
  unfold SensorsTask_step. destruct (phase st).
  - rewrite trace_of_bind. cbn [ret trace_of snd]. rewrite app_nil_r.
    rewrite raised_in_cycle. destruct (error _); repeat constructor.
  - constructor.
  - constructor.
Qed.

Lemma raised_in_tests sensors : forall results,
  raised_severities (test_events sensors results) = [].
Proof.
  induction sensors as [| sensor rest IH]; intros results; cbn; auto.
Qed.

End Iterations.

(** X4. Every iteration of the main loop makes exactly one alarm call: it
    raises the sensors alarm at CRITICAL when the previous iteration
    flagged an error and clears it otherwise.  Over a
    whole run of the task no alarm is ever raised at another severity. *)
Theorem one_alarm_call_per_iteration_always_critical `{P : Platform}
    (sensors : list PIOS_SENSORS_Instance) (boot : boot_input)
    (inp : cycle_input) (inps : list cycle_input) (l : task_locals)
    (g : globals) :
  filter is_alarm (trace_of (SensorsTask_cycle sensors inp l g))
  = [if error l then EvAlarmsSet SYSTEMALARMS_ALARM_CRITICAL else EvAlarmsClear]
  /\ Forall (eq SYSTEMALARMS_ALARM_CRITICAL)
       (raised_severities (trace_of (SensorsTask sensors boot inps g))).
Proof.
  split.
  - rewrite filter_cycle by (intros [] ?; try discriminate; reflexivity).
    unfold prologue_events. destruct (error l); reflexivity.
  - unfold SensorsTask. rewrite trace_of_bind, raised_severities_app.
    apply Forall_app. split; [ | apply raised_in_steps ].
    destruct (SensorsTask_boot_run sensors boot g) as [_ Ht]. rewrite Ht.
    cbn [raised_severities]. rewrite raised_severities_app, raised_in_tests.
    destruct (_ =? 0); [ constructor | ].
    destruct (all_passed _ _); repeat constructor.
Qed.

(** X5. Every iteration of the main loop ends with the period measurement, the
    watchdog reload and the absolute delay, in this order, and reloads the
    watchdog once -- twice when it opens with the recovery delay that
    follows a stall. *)
Theorem watchdog_reloaded_at_the_end_of_every_iteration `{P : Platform}
    (sensors : list PIOS_SENSORS_Instance) (inp : cycle_input)
    (l : task_locals) (g : globals) :
  (exists before,
     trace_of (SensorsTask_cycle sensors inp l g)
     = before
       ++ [EvPerfMeasurePeriod counterSensorPeriod; EvReloadWdg;
           EvTaskDelayUntil
             (lastSysTime (result_of (SensorsTask_cycle sensors inp l g)))])
  /\ length (filter is_wdg_reload (trace_of (SensorsTask_cycle sensors inp l g)))
     = if error l then 2%nat else 1%nat.
Proof.
  split.
  - rewrite cycle_trace_shape. cbv zeta.
    destruct (SensorsTask_cycle_outcome sensors inp l g) as [Hres _].
    cbv zeta in Hres. rewrite Hres. cbn [lastSysTime set_lastSysTime].
    destruct (foreach_keeps sensors (feeds inp) (at_loop_entry (tick_now inp) l))
      as [_ [Hlast _]].
    rewrite Hlast. eexists. rewrite app_assoc. reflexivity.
  - rewrite filter_cycle by (intros [] ?; try discriminate; reflexivity).
    unfold prologue_events. destruct (error l); reflexivity.
Qed.

(** X6. The only assertion of the task that can fail is the one on the number
    of instances at start-up, and it fails exactly when that [uint8_t] count
    is zero; the assertion on the sensor type in [processSamples1d] is never
    reached with anything but a barometer, whatever the drivers deliver. *)
Theorem only_the_instance_count_assertion_can_fail `{P : Platform}
    (sensors : list PIOS_SENSORS_Instance) (boot : boot_input)
    (inps : list cycle_input) (g : globals) :
  filter is_assert_failure (trace_of (SensorsTask sensors boot inps g))
  = if wrap_u8 (Z.of_nat (length sensors)) =? 0 then [EvAssertFailed] else [].
Proof.
  unfold SensorsTask. rewrite trace_of_bind, filter_app.
  rewrite filter_steps_none; [ | | reflexivity ].
  - rewrite app_nil_r.
    destruct (SensorsTask_boot_run sensors boot g) as [_ Ht]. rewrite Ht.
    cbn [filter is_assert_failure].
    rewrite filter_app, filter_test_events by reflexivity.
    destruct (_ =? 0); [ reflexivity | ].
    destruct (all_passed _ _); reflexivity.
  - intros inp l g'.
    rewrite filter_cycle by (intros [] ?; try discriminate; reflexivity).
    unfold prologue_events. destruct (error l); reflexivity.
Qed.

(* ------------------------------------------------------------------ *)
(** ** Start-up: the self-tests and the assertion *)

Lemma self_tests_app t1 t2 : self_tests (t1 ++ t2) = self_tests t1 ++ self_tests t2.
Proof.
  induction t1 as [| e t1 IH]; [ reflexivity | ].
  destruct e; cbn [app self_tests]; rewrite ?IH; reflexivity.
Qed.

Lemma self_tests_of_test_events sensors : forall results,
  map fst (self_tests (test_events sensors results)) = sensors
  /\ forall i, (i < length sensors)%nat ->
       nth i (map snd (self_tests (test_events sensors results))) false
       = nth i results false.
Proof.
  induction sensors as [| sensor rest IH]; intros results.
  - split; [ reflexivity | intros i Hi; inversion Hi ].
  - cbn [test_events self_tests map fst snd length].
    destruct (IH (tl results)) as [Hs Hr]. split; [ rewrite Hs; reflexivity | ].
    intros [| i] Hi.
    + destruct results; reflexivity.
    + cbn [nth]. rewrite Hr by lia. destruct results; [ destruct i | ]; reflexivity.
Qed.

Lemma steps_stopped `{P : Platform} sensors inps : forall st g,
  phase st = AssertFailed ->
  SensorsTask_steps sensors inps st g = (st, g, []).
Proof.
  induction inps as [| inp rest IH]; intros st g Hst; [ reflexivity | ].
  cbn [SensorsTask_steps].
  unfold bind at 1. unfold SensorsTask_step at 1. rewrite Hst.
  cbn [ret]. rewrite (IH st g Hst). reflexivity.
Qed.

(** X7. At start-up every instance is self-tested exactly once, in list order,
    whether or not an earlier instance has failed (the results are combined
    without short-circuit), and the watchdog is reloaded before each test. *)
Theorem every_instance_is_self_tested_in_order `{P : Platform}
    (sensors : list PIOS_SENSORS_Instance) (boot : boot_input) (g : globals) :
  map fst (self_tests (trace_of (SensorsTask_boot sensors boot g))) = sensors
  /\ (forall i, (i < length sensors)%nat ->
        nth i (map snd (self_tests (trace_of (SensorsTask_boot sensors boot g))))
          false
        = nth i (test_results boot) false)
  /\ exists closing,
       trace_of (SensorsTask_boot sensors boot g)
       = EvAlarmsClear :: EvSettingsUpdated
         :: test_events sensors (test_results boot) ++ closing
       /\ self_tests closing = [].
Proof.
  destruct (SensorsTask_boot_run sensors boot g) as [_ Ht]. cbv zeta in Ht.
  destruct (self_tests_of_test_events sensors (test_results boot)) as [Hs Hr].
  assert (Hc : self_tests
                 (if wrap_u8 (Z.of_nat (length sensors)) =? 0
                  then [EvAssertFailed]
                  else EvReloadWdg
                       :: (if all_passed sensors (test_results boot) then []
                           else [EvAlarmsSet SYSTEMALARMS_ALARM_CRITICAL])) = []).
  { destruct (_ =? 0); [ reflexivity | ]. destruct (all_passed _ _); reflexivity. }
  rewrite Ht. cbn [self_tests]. rewrite self_tests_app, Hc, app_nil_r.
  split; [ exact Hs | split; [ exact Hr | ] ].
  eexists. split; [ reflexivity | exact Hc ].
Qed.

Lemma every_instance_is_self_tested_in_order_witness :
  map fst (self_tests
             (trace_of (SensorsTask_boot [accel_instance; baro_instance]
                          failing_boot plain_globals)))
  = [accel_instance; baro_instance]
  /\ nth 1 (map snd (self_tests
                       (trace_of (SensorsTask_boot [accel_instance; baro_instance]
                                    failing_boot plain_globals))))
        false
     = false.
Proof.
  destruct (@every_instance_is_self_tested_in_order board_500Hz
              [accel_instance; baro_instance] failing_boot plain_globals)
    as [Hs [Hr _]].
  split; [ exact Hs | ].
  rewrite (Hr 1%nat) by (simpl; lia). reflexivity.
Defined.

(** X8. With no instance at all (or a number of instances that the [uint8_t]
    count takes for zero) the task stops at the assertion right after the
    tests: it raises no alarm, publishes nothing and never runs a loop,
    however long it is left. *)
Theorem empty_sensor_list_stops_at_the_assertion `{P : Platform}
    (sensors : list PIOS_SENSORS_Instance) (boot : boot_input)
    (inps : list cycle_input) (g : globals) :
  wrap_u8 (Z.of_nat (length sensors)) = 0 ->
  phase (result_of (SensorsTask sensors boot inps g)) = AssertFailed
  /\ trace_of (SensorsTask sensors boot inps g)
     = EvAlarmsClear :: EvSettingsUpdated
       :: test_events sensors (test_results boot) ++ [EvAssertFailed]
  /\ raised_severities (trace_of (SensorsTask sensors boot inps g)) = []
  /\ filter is_publication (trace_of (SensorsTask sensors boot inps g)) = [].
Proof.
  intros Hn.
  destruct (SensorsTask_boot_run sensors boot g) as [Hres Htr].
  cbv zeta in Hres, Htr. rewrite Hn in Hres, Htr. cbn [Z.eqb] in Hres, Htr.
  assert (Hall : SensorsTask sensors boot inps g
                 = (mkTask AssertFailed initial_locals,
                    state_of (SensorsTask_boot sensors boot g),
                    EvAlarmsClear :: EvSettingsUpdated
                    :: test_events sensors (test_results boot) ++ [EvAssertFailed])).
  { unfold SensorsTask, bind.
    destruct (SensorsTask_boot sensors boot g) as [[st g1] t1] eqn:E.
    unfold result_of, trace_of in Hres, Htr. cbn [fst snd] in Hres, Htr.
    subst st t1. rewrite steps_stopped by reflexivity.
    rewrite app_nil_r. reflexivity. }
  rewrite Hall, result_of_triple, trace_of_triple.
  split; [ reflexivity | split; [ reflexivity | split ] ].
  - cbn [raised_severities]. rewrite raised_severities_app, raised_in_tests.
    reflexivity.
  - cbn [filter is_publication].
    rewrite filter_app, filter_test_events by reflexivity. reflexivity.
Qed.

Lemma empty_sensor_list_stops_at_the_assertion_witness :
  phase (result_of (@SensorsTask board_500Hz [] passing_boot
                      [stalled_input; delivering_input] plain_globals))
  = AssertFailed
  /\ trace_of (@SensorsTask board_500Hz [] passing_boot
                 [stalled_input; delivering_input] plain_globals)
     = [EvAlarmsClear; EvSettingsUpdated; EvAssertFailed].
Proof.
  destruct (@empty_sensor_list_stops_at_the_assertion board_500Hz []
              passing_boot [stalled_input; delivering_input] plain_globals
              eq_refl) as [H1 [H2 _]].
  split; assumption.
Defined.

(* ------------------------------------------------------------------ *)
(** ** Iterations without a stall, the time base and the reset counter *)

Lemma wrap_u32_small (z : Z) : 0 <= z < 2 ^ 32 -> wrap_u32 z = z.
Proof. intros H. unfold wrap_u32. apply Z.mod_small. exact H. Qed.

Lemma wrap_u32_add_l (x y : Z) : wrap_u32 (wrap_u32 x + y) = wrap_u32 (x + y).
Proof. unfold wrap_u32. apply Zplus_mod_idemp_l. Qed.

Section NoStall.
Context {P : Platform}.

Lemma delivers_count feed ctx :
  delivers feed = true -> count ctx = 0 ->
  (count (drain_context (queued feed) ctx) =? 0) = false.
Proof.
  unfold delivers. intros Hd H0. apply andb_true_iff in Hd as [H1 H2].
  apply Z.ltb_lt in H1, H2.
  rewrite drain_count by (rewrite H0; lia). rewrite H0.
  apply Z.eqb_neq. rewrite wrap_u32_small; lia.
Qed.

Lemma visit_no_stall sensor feed l :
  count (sensor_context l) = 0 ->
  (if is_primary_instance sensor && negb (is_polled sensor)
   then delivers feed else true) = true ->
  error (fst (visit_outcome sensor feed l)) = error l
  /\ reset_counter (fst (visit_outcome sensor feed l)) = reset_counter l
  /\ filter is_reset (snd (visit_outcome sensor feed l)) = [].
Proof.
  intros H0 Hd.
  destruct (is_primary_instance sensor) eqn:Hp;
    [ | apply visit_nonprimary; exact Hp ].
  unfold visit_outcome.
  destruct (negb _ || _); [ | auto ].
  destruct (is_polled sensor); cbn [negb andb] in *.
  - destruct (poll_ready feed); [ | auto ].
    destruct (type_has _ PIOS_SENSORS_TYPE_3D); auto.
  - rewrite (delivers_count feed _ Hd H0). cbn [negb fst snd].
    rewrite filter_app, filter_reset_drain. auto.
Qed.

Lemma foreach_no_stall_all sensors : forall fs l,
  count (sensor_context l) = 0 ->
  primaries_deliver sensors fs = true ->
  error (fst (foreach_outcome sensors fs l)) = error l
  /\ reset_counter (fst (foreach_outcome sensors fs l)) = reset_counter l
  /\ filter is_reset (snd (foreach_outcome sensors fs l)) = [].
Proof.
  induction sensors as [| sensor rest IH]; intros fs l H0 Hd; [ auto | ].
  cbn [primaries_deliver] in Hd. apply andb_true_iff in Hd as [Hd1 Hd2].
  cbn [foreach_outcome].
  destruct (visit_no_stall sensor (hd empty_feed fs) l H0 Hd1) as [He [Hr Hf]].
  destruct (visit_keeps sensor (hd empty_feed fs) l) as [_ [_ Hc]].
  destruct (visit_outcome sensor (hd empty_feed fs) l) as [l1 t1].
  destruct (IH (tl fs) l1 (Hc H0) Hd2) as [He' [Hr' Hf']].
  destruct (foreach_outcome rest (tl fs) l1) as [l2 t2].
  cbn [fst snd] in *. rewrite filter_app, Hf, Hf'.
  repeat split; congruence.
Qed.

Lemma filter_reset_cycle sensors inp l g :
  filter is_reset (trace_of (SensorsTask_cycle sensors inp l g))
  = filter is_reset
      (snd (foreach_outcome sensors (feeds inp) (at_loop_entry (tick_now inp) l))).
Proof.
  destruct (SensorsTask_cycle_outcome sensors inp l g) as [_ [rest [Ht Hl]]].
  rewrite Ht, filter_app.
  replace (filter is_reset (prologue_events (tick_now inp) l)) with (@nil event)
    by (unfold prologue_events; destruct (error l); reflexivity).
  rewrite <- filter_loud by (intros [] ?; try discriminate; reflexivity).
  rewrite Hl, filter_app. cbn [filter is_reset app]. apply app_nil_r.
Qed.

Lemma cycle_no_stall sensors inp l g :
  primaries_deliver sensors (feeds inp) = true ->
  error (result_of (SensorsTask_cycle sensors inp l g)) = false
  /\ reset_counter (result_of (SensorsTask_cycle sensors inp l g))
     = reset_counter l
  /\ filter is_reset (trace_of (SensorsTask_cycle sensors inp l g)) = [].
Proof.
  intros Hd.
  destruct (SensorsTask_cycle_outcome sensors inp l g) as [Hres _].
  cbv zeta in Hres. rewrite Hres, filter_reset_cycle.
  destruct (foreach_no_stall_all sensors (feeds inp)
              (at_loop_entry (tick_now inp) l) (at_loop_entry_context _ _) Hd)
    as [He [Hr Hf]].
  cbn [error reset_counter set_lastSysTime]. rewrite He, Hr, Hf.
  unfold at_loop_entry.
  destruct (error l) eqn:E;
    cbn [error reset_counter set_aux_mag_skip set_sensor_context set_error
         set_lastSysTime];
    repeat split; try reflexivity; exact E.
Qed.

Lemma cycle_time_base sensors inp l g :
  lastSysTime (result_of (SensorsTask_cycle sensors inp l g))
  = wrap_u32 ((if error l then wrap_u32 (tick_now inp + sensor_period_ticks)
               else lastSysTime l) + sensor_period_ticks).
Proof.
  destruct (SensorsTask_cycle_outcome sensors inp l g) as [Hres _].
  cbv zeta in Hres. rewrite Hres. cbn [lastSysTime set_lastSysTime].
  destruct (foreach_keeps sensors (feeds inp) (at_loop_entry (tick_now inp) l))
    as [_ [Hlast _]].
  rewrite Hlast. unfold at_loop_entry. destruct (error l); reflexivity.
Qed.

Lemma cycle_delays sensors inp l g :
  error l = false ->
  filter is_delay_until (trace_of (SensorsTask_cycle sensors inp l g))
  = [EvTaskDelayUntil (wrap_u32 (lastSysTime l + sensor_period_ticks))].
Proof.
  intros He.
  rewrite filter_cycle by (intros [] ?; try discriminate; reflexivity).
  unfold prologue_events, at_loop_entry. rewrite He. reflexivity.
Qed.

Lemma step_running sensors inp l g :
  SensorsTask_step sensors inp (mkTask Running l) g
  = (mkTask Running (result_of (SensorsTask_cycle sensors inp l g)),
     state_of (SensorsTask_cycle sensors inp l g),
     trace_of (SensorsTask_cycle sensors inp l g)).
Proof.
  unfold SensorsTask_step, bind, result_of, state_of, trace_of.
  cbn [phase locals ret].
  destruct (SensorsTask_cycle sensors inp l g) as [[l1 g1] t1].
  cbn [fst snd]. rewrite app_nil_r. reflexivity.
Qed.

Lemma steps_without_stall sensors inps : forall l g,
  error l = false ->
  0 <= lastSysTime l < 2 ^ 32 ->
  Forall (fun inp => primaries_deliver sensors (feeds inp) = true) inps ->
  let r := SensorsTask_steps sensors inps (mkTask Running l) g in
  phase (result_of r) = Running
  /\ error (locals (result_of r)) = false
  /\ lastSysTime (locals (result_of r))
     = wrap_u32 (lastSysTime l + Z.of_nat (length inps) * sensor_period_ticks)
  /\ filter is_delay_until (trace_of r)
     = map (fun k => EvTaskDelayUntil
                       (wrap_u32 (lastSysTime l + Z.of_nat k * sensor_period_ticks)))
           (seq 1 (length inps))
  /\ filter is_reset (trace_of r) = [].
Proof.
  induction inps as [| inp rest IH]; intros l g He Hl Hall; cbv zeta.
  - cbn. rewrite Z.add_0_r, wrap_u32_small by exact Hl. repeat split; auto.
  - inversion Hall as [| ? ? Hd Hrest]; subst.
    cbn [SensorsTask_steps].
    rewrite result_of_bind, trace_of_bind, step_running.
    rewrite result_of_triple, state_of_triple, trace_of_triple.
    destruct (cycle_no_stall sensors inp l g Hd) as [He1 [_ Hf1]].
    pose proof (cycle_time_base sensors inp l g) as Ht1. rewrite He in Ht1.
    pose proof (cycle_delays sensors inp l g He) as Hd1.
    destruct (IH (result_of (SensorsTask_cycle sensors inp l g))
                (state_of (SensorsTask_cycle sensors inp l g)) He1
                ltac:(rewrite Ht1; apply wrap_u32_range)
                Hrest) as [Hp [He2 [Ht2 [Hd2 Hf2]]]].
    split; [ exact Hp | split; [ exact He2 | split; [ | split ] ] ].
    + rewrite Ht2, Ht1, wrap_u32_add_l. f_equal. cbn [length].
      rewrite Nat2Z.inj_succ. lia.
    + rewrite filter_app, Hd1, Hd2. cbn [length seq map app].
      f_equal; [ repeat f_equal; lia | ].
      rewrite <- (seq_shift (length rest) 1), map_map. apply map_ext. intros k.
      rewrite Ht1, wrap_u32_add_l. do 2 f_equal. lia.
    + rewrite filter_app, Hf1, Hf2. reflexivity.
Qed.

End NoStall.

(** X9. Absolute-time scheduling.  Over any run of iterations in which every
    queue-fed instance carrying the accelerometer delivers, starting with
    the error flag clear, the task stays in the main loop with the flag
    clear, requests no reset, and its wake-up times are the successive
    multiples of the period after the initial time base (modulo 2^32),
    whatever the sensors deliver and however long the handlers take. *)
Theorem wakeups_are_multiples_of_the_period `{P : Platform}
    (sensors : list PIOS_SENSORS_Instance) (inps : list cycle_input)
    (l : task_locals) (g : globals) :
  error l = false ->
  0 <= lastSysTime l < 2 ^ 32 ->
  Forall (fun inp => primaries_deliver sensors (feeds inp) = true) inps ->
  let r := SensorsTask_steps sensors inps (mkTask Running l) g in
  phase (result_of r) = Running
  /\ error (locals (result_of r)) = false
  /\ lastSysTime (locals (result_of r))
     = wrap_u32 (lastSysTime l + Z.of_nat (length inps) * sensor_period_ticks)
  /\ filter is_delay_until (trace_of r)
     = map (fun k => EvTaskDelayUntil
                       (wrap_u32 (lastSysTime l + Z.of_nat k * sensor_period_ticks)))
           (seq 1 (length inps))
  /\ filter is_reset (trace_of r) = [].
Proof. apply steps_without_stall. Qed.

Lemma wakeups_are_multiples_of_the_period_witness :
  filter is_delay_until
    (trace_of (@SensorsTask_steps board_500Hz [accel_instance; baro_instance]
                 three_inputs (mkTask Running running_locals) plain_globals))
  = [EvTaskDelayUntil 102; EvTaskDelayUntil 104; EvTaskDelayUntil 106].
Proof.
  destruct (@wakeups_are_multiples_of_the_period board_500Hz
              [accel_instance; baro_instance] three_inputs running_locals
              plain_globals eq_refl ltac:(simpl; lia)
              ltac:(repeat constructor)) as [_ [_ [_ [H _]]]].
  rewrite H. reflexivity.
Defined.

(** X10. The wake-up time an iteration ends on depends only on the time base and
    the error flag it starts with: one period after the previous wake-up, or,
    when it opens with the recovery delay, two periods after the tick count
    read at that moment.  Nothing the sensors deliver changes it. *)
Theorem wakeup_time_ignores_the_sensors `{P : Platform}
    (sensors sensors' : list PIOS_SENSORS_Instance) (inp inp' : cycle_input)
    (l : task_locals) (g g' : globals) :
  lastSysTime (result_of (SensorsTask_cycle sensors inp l g))
  = wrap_u32 ((if error l then wrap_u32 (tick_now inp + sensor_period_ticks)
               else lastSysTime l) + sensor_period_ticks)
  /\ (error l = false \/ tick_now inp = tick_now inp' ->
      lastSysTime (result_of (SensorsTask_cycle sensors inp l g))
      = lastSysTime (result_of (SensorsTask_cycle sensors' inp' l g'))).
Proof.
  split; [ apply cycle_time_base | ].
  intros H. rewrite !cycle_time_base.
  destruct H as [H | H]; [ rewrite H | rewrite H ]; reflexivity.
Qed.

(** An iteration in which the accelerometer delivers and one with no
    instances at all wake at the same tick. *)
Lemma wakeup_time_ignores_the_sensors_witness :
  lastSysTime
    (result_of (@SensorsTask_cycle board_500Hz [accel_instance]
                  delivering_input running_locals plain_globals))
  = 102
  /\ lastSysTime
       (result_of (@SensorsTask_cycle board_500Hz [] stalled_input
                     running_locals plain_globals))
     = 102.
Proof.
  destruct (@wakeup_time_ignores_the_sensors board_500Hz [accel_instance] []
              delivering_input stalled_input running_locals plain_globals
              plain_globals) as [H1 H2].
  split; [ rewrite H1; reflexivity | ].
  rewrite <- (H2 (or_introl eq_refl)), H1. reflexivity.
Defined.

(* ------------------------------------------------------------------ *)
(** ** The reset counter *)

Section ResetCounter.
Context {P : Platform}.

Lemma visit_reset_counter sensor feed l :
  0 <= reset_counter l < 2 ^ 32 ->
  reset_counter (fst (visit_outcome sensor feed l))
  = wrap_u32 (reset_counter l
              + Z.of_nat (length (filter is_reset
                                    (snd (visit_outcome sensor feed l))))).
Proof.
  intros Hr. unfold visit_outcome.
  assert (H0 : reset_counter l = wrap_u32 (reset_counter l + 0))
    by (rewrite Z.add_0_r, wrap_u32_small; auto).
  destruct (negb _ || _); [ | exact H0 ].
  destruct (is_polled sensor); cbn [negb].
  - destruct (poll_ready feed); [ | exact H0 ].
    destruct (type_has _ PIOS_SENSORS_TYPE_3D); exact H0.
  - destruct (count _ =? 0); cbn [negb fst snd];
      [ destruct (type_has _ ACCEL_FLAG); cbn [fst snd] | ];
      rewrite ?filter_app, filter_reset_drain; try exact H0.
    reflexivity.
Qed.

Lemma foreach_reset_counter sensors : forall fs l,
  0 <= reset_counter l < 2 ^ 32 ->
  reset_counter (fst (foreach_outcome sensors fs l))
  = wrap_u32 (reset_counter l
              + Z.of_nat (length (filter is_reset
                                    (snd (foreach_outcome sensors fs l))))).
Proof.
  induction sensors as [| sensor rest IH]; intros fs l Hr.
  - cbn. rewrite Z.add_0_r, wrap_u32_small; auto.
  - cbn [foreach_outcome].
    pose proof (visit_reset_counter sensor (hd empty_feed fs) l Hr) as Hv.
    destruct (visit_outcome sensor (hd empty_feed fs) l) as [l1 t1].
    cbn [fst snd] in Hv.
    specialize (IH (tl fs) l1 ltac:(rewrite Hv; apply wrap_u32_range)).
    destruct (foreach_outcome rest (tl fs) l1) as [l2 t2]. cbn [fst snd] in *.
    rewrite IH, Hv, wrap_u32_add_l, filter_app, length_app, Nat2Z.inj_add.
    f_equal. lia.
Qed.

Lemma cycle_reset_counter sensors inp l g :
  0 <= reset_counter l < 2 ^ 32 ->
  reset_counter (result_of (SensorsTask_cycle sensors inp l g))
  = wrap_u32 (reset_counter l
              + Z.of_nat (length (filter is_reset
                                    (trace_of (SensorsTask_cycle sensors inp l g))))).
Proof.
  intros Hr.
  destruct (SensorsTask_cycle_outcome sensors inp l g) as [Hres _].
  cbv zeta in Hres. rewrite Hres, filter_reset_cycle.
  cbn [reset_counter set_lastSysTime].
  rewrite foreach_reset_counter;
    unfold at_loop_entry; destruct (error l); try exact Hr; reflexivity.
Qed.

Lemma steps_reset_counter sensors inps : forall st g,
  0 <= reset_counter (locals st) < 2 ^ 32 ->
  reset_counter (locals (result_of (SensorsTask_steps sensors inps st g)))
  = wrap_u32 (reset_counter (locals st)
              + Z.of_nat (length (filter is_reset
                                    (trace_of (SensorsTask_steps sensors inps st g))))).
Proof.
  induction inps as [| inp rest IH]; intros st g Hr.
  - cbn. rewrite Z.add_0_r, wrap_u32_small; auto.
  - destruct st as [ph l]. cbn [locals] in *. destruct ph.
    + cbn [SensorsTask_steps]. rewrite result_of_bind, trace_of_bind.
      rewrite step_running, result_of_triple, state_of_triple, trace_of_triple.
      pose proof (cycle_reset_counter sensors inp l g Hr) as Hc.
      rewrite IH by (cbn [locals]; rewrite Hc; apply wrap_u32_range).
      cbn [locals]. rewrite Hc, wrap_u32_add_l, filter_app, length_app, Nat2Z.inj_add.
      f_equal. lia.
    + rewrite steps_halted by reflexivity.
      rewrite result_of_triple, trace_of_triple.
      rewrite filter_repeat_false by reflexivity.
      cbn [locals length]. rewrite Z.add_0_r, wrap_u32_small; auto.
    + rewrite steps_stopped by reflexivity.
      rewrite result_of_triple, trace_of_triple.
      cbn [locals filter length]. rewrite Z.add_0_r, wrap_u32_small; auto.
Qed.

End ResetCounter.

(** X11. The reset counter counts the resets: over any run of the task, it
    equals the number of driver resets requested so far, modulo 2^32. *)
Theorem reset_counter_counts_the_resets `{P : Platform}
    (sensors : list PIOS_SENSORS_Instance) (boot : boot_input)
    (inps : list cycle_input) (g : globals) :
  reset_counter (locals (result_of (SensorsTask sensors boot inps g)))
  = wrap_u32 (Z.of_nat (length (filter is_reset
                                  (trace_of (SensorsTask sensors boot inps g))))).
Proof.
  unfold SensorsTask. rewrite result_of_bind, trace_of_bind.
  destruct (SensorsTask_boot_run sensors boot g) as [Hres Htr].
  cbv zeta in Hres, Htr.
  assert (Hrc : reset_counter (locals (result_of (SensorsTask_boot sensors boot g)))
                = 0).
  { rewrite Hres. destruct (_ =? 0); [ reflexivity | ].
    destruct (all_passed _ _); reflexivity. }
  assert (Hnone : filter is_reset (trace_of (SensorsTask_boot sensors boot g)) = []).
  { rewrite Htr. cbn [filter is_reset].
    rewrite filter_app, filter_test_events by reflexivity.
    destruct (_ =? 0); [ reflexivity | ].
    destruct (all_passed _ _); reflexivity. }
  rewrite steps_reset_counter by (rewrite Hrc; lia).
  rewrite Hrc, filter_app, Hnone. reflexivity.
Qed.

(* ------------------------------------------------------------------ *)
(** ** One instance in one iteration *)

Lemma receive_timeouts_app t1 t2 :
  receive_timeouts (t1 ++ t2) = receive_timeouts t1 ++ receive_timeouts t2.
Proof.
  induction t1 as [| e t1 IH]; [ reflexivity | ].
  destruct e; cbn [app receive_timeouts]; rewrite ?IH; reflexivity.
Qed.

Lemma receive_timeouts_loud t : receive_timeouts (loud t) = receive_timeouts t.
Proof.
  induction t as [| e t IH]; [ reflexivity | ].
  destruct e; cbn [loud filter quiet negb receive_timeouts]; fold (loud t);
    rewrite ?IH; reflexivity.
Qed.

Lemma division_counts_app t1 t2 :
  division_counts (t1 ++ t2) = division_counts t1 ++ division_counts t2.
Proof.
  induction t1 as [| e t1 IH]; [ reflexivity | ].
  destruct e; cbn [app division_counts]; rewrite ?IH; reflexivity.
Qed.

Lemma division_counts_loud t : division_counts (loud t) = division_counts t.
Proof.
  induction t as [| e t IH]; [ reflexivity | ].
  destruct e; cbn [loud filter quiet negb division_counts]; fold (loud t);
    rewrite ?IH; reflexivity.
Qed.

Section OneInstance.
Context {P : Platform}.

Lemma drain_timeouts_later sensor pr items : forall ctx,
  0 < count ctx -> count ctx + Z.of_nat (length items) < 2 ^ 32 ->
  receive_timeouts (drain_events sensor pr items ctx)
  = repeat 0 (S (length items)).
Proof.
  induction items as [| item rest IH]; intros ctx Hc Hlen;
    cbn [drain_events receive_timeouts repeat length] in *;
    replace (count ctx =? 0) with false by (symmetry; apply Z.eqb_neq; lia);
    rewrite andb_false_r; [ reflexivity | ].
  f_equal. apply IH; cbn [accumulateSamples count];
    rewrite wrap_u32_small; lia.
Qed.

Lemma drain_timeouts sensor pr items ctx :
  count ctx = 0 -> Z.of_nat (length items) < 2 ^ 32 ->
  receive_timeouts (drain_events sensor pr items ctx)
  = (if pr then sensor_period_ticks else 0) :: repeat 0 (length items).
Proof.
  intros H0 Hlen.
  destruct items as [| item rest]; cbn [drain_events receive_timeouts repeat length];
    rewrite H0; cbn [Z.eqb]; rewrite andb_true_r; [ reflexivity | ].
  f_equal. cbn [length] in Hlen.
  apply drain_timeouts_later; cbn [accumulateSamples count]; rewrite H0;
    rewrite wrap_u32_small; lia.
Qed.

Lemma division_counts_drain sensor pr items : forall ctx,
  division_counts (drain_events sensor pr items ctx) = [].
Proof.
  induction items as [| item rest IH]; intros ctx; cbn; auto.
Qed.

Lemma filter_publication_drain sensor pr items : forall ctx,
  filter is_publication (drain_events sensor pr items ctx) = [].
Proof.
  induction items as [| item rest IH]; intros ctx; cbn; auto.
Qed.

End OneInstance.

(** X12. The task blocks on a queue at most once per instance and iteration:
    only the first receive on the queue of an instance carrying the
    accelerometer waits, for one period; every other receive, on any queue,
    returns at once. *)
Theorem only_the_first_receive_of_the_primary_blocks `{P : Platform}
    (sensor : PIOS_SENSORS_Instance) (feed : sensor_feed) (l : task_locals)
    (g : globals) :
  count (sensor_context l) = 0 ->
  Z.of_nat (length (queued feed)) < 2 ^ 32 ->
  receive_timeouts (trace_of (visit_sensor sensor feed l g))
  = if (negb (is_auxmag sensor) || (aux_mag_skip l =? 0))
       && negb (is_polled sensor)
    then (if is_primary_instance sensor then sensor_period_ticks else 0)
         :: repeat 0 (length (queued feed))
    else [].
Proof.
  intros H0 Hlen.
  destruct (visit_sensor_outcome sensor feed l g) as [_ Ht].
  rewrite <- receive_timeouts_loud, Ht.
  unfold visit_outcome, is_auxmag, is_primary_instance.
  destruct (negb _ || _); [ | reflexivity ].
  destruct (is_polled sensor); cbn [negb andb].
  - destruct (poll_ready feed); [ | reflexivity ].
    destruct (type_has _ PIOS_SENSORS_TYPE_3D); reflexivity.
  - destruct (count _ =? 0); cbn [negb snd];
      [ destruct (type_has _ ACCEL_FLAG) eqn:E; cbn [snd] | ];
      rewrite ?receive_timeouts_app, drain_timeouts by assumption;
      cbn [receive_timeouts]; rewrite ?app_nil_r; try rewrite E; reflexivity.
Qed.

Lemma only_the_first_receive_of_the_primary_blocks_witness :
  receive_timeouts
    (trace_of (@visit_sensor board_500Hz accel_instance two_sample_feed
                 initial_locals plain_globals))
  = [2; 0; 0].
Proof.
  rewrite (@only_the_first_receive_of_the_primary_blocks board_500Hz
             accel_instance two_sample_feed initial_locals plain_globals
             eq_refl ltac:(simpl; lia)).
  reflexivity.
Defined.

(** X13. The count a mean divides by is the number of samples the instance
    itself delivered in this iteration: the length of its queue for a
    queue-fed instance, one for a polled 3-axis instance; an instance that
    delivers nothing, and the barometer, never reach the division. *)
Theorem mean_is_over_the_instances_own_samples `{P : Platform}
    (sensor : PIOS_SENSORS_Instance) (feed : sensor_feed) (l : task_locals)
    (g : globals) :
  count (sensor_context l) = 0 ->
  Z.of_nat (length (queued feed)) < 2 ^ 32 ->
  division_counts (trace_of (visit_sensor sensor feed l g))
  = if negb (is_auxmag sensor) || (aux_mag_skip l =? 0)
    then if is_polled sensor
         then if poll_ready feed
                 && type_has (sensor_type sensor) PIOS_SENSORS_TYPE_3D
              then [1] else []
         else match queued feed with
              | [] => []
              | _ => [Z.of_nat (length (queued feed))]
              end
    else [].
Proof.
  intros H0 Hlen.
  destruct (visit_sensor_outcome sensor feed l g) as [_ Ht].
  rewrite <- division_counts_loud, Ht.
  unfold visit_outcome, is_auxmag.
  destruct (negb _ || _); [ | reflexivity ].
  destruct (is_polled sensor); cbn [negb].
  - destruct (poll_ready feed); [ | reflexivity ].
    destruct (type_has _ PIOS_SENSORS_TYPE_3D); cbn [andb snd division_counts];
      [ | reflexivity ].
    cbn [accumulateSamples count]. rewrite H0. reflexivity.
  - rewrite drain_count by (rewrite H0; lia). rewrite H0, Z.add_0_l.
    rewrite wrap_u32_small by lia.
    destruct (queued feed) as [| item rest] eqn:Hq.
    + cbn [length Z.of_nat Z.eqb negb].
      destruct (type_has _ ACCEL_FLAG); reflexivity.
    + replace (Z.of_nat (length (item :: rest)) =? 0) with false
        by (symmetry; apply Z.eqb_neq; cbn [length]; lia).
      cbn [negb snd]. rewrite division_counts_app, division_counts_drain.
      reflexivity.
Qed.

Lemma mean_is_over_the_instances_own_samples_witness :
  division_counts
    (trace_of (@visit_sensor board_500Hz accel_instance two_sample_feed
                 initial_locals plain_globals))
  = [2].
Proof.
  rewrite (@mean_is_over_the_instances_own_samples board_500Hz
             accel_instance two_sample_feed initial_locals plain_globals
             eq_refl ltac:(simpl; lia)).
  reflexivity.
Defined.

(** X14. An instance that has no data for the task in this iteration changes
    nothing: the local variables and the module state stay as they are,
    nothing is published, and the only trace is the one unsuccessful poll or
    non-blocking receive (none at all for an auxiliary magnetometer on a
    skipped turn). *)
Theorem instance_without_data_changes_nothing `{P : Platform}
    (sensor : PIOS_SENSORS_Instance) (feed : sensor_feed) (l : task_locals)
    (g : globals) :
  count (sensor_context l) = 0 ->
  no_data sensor feed l = true ->
  result_of (visit_sensor sensor feed l g) = l
  /\ state_of (visit_sensor sensor feed l g) = g
  /\ trace_of (visit_sensor sensor feed l g)
     = if is_auxmag sensor && negb (aux_mag_skip l =? 0) then []
       else if is_polled sensor then [EvSensorPoll sensor false]
       else [EvQueueReceive sensor 0 false].
Proof.
  intros H0. unfold no_data, visit_sensor, is_auxmag, is_primary_instance.
  destruct (type_is _ PIOS_SENSORS_TYPE_3AXIS_AUXMAG);
    destruct (aux_mag_skip l =? 0); cbn [negb andb orb];
    try (intros _; repeat split; reflexivity);
    (destruct (is_polled sensor); cbn [negb andb orb];
     [ destruct (poll_ready feed); cbn [negb];
       [ discriminate | intros _; repeat split; reflexivity ]
     | destruct (type_has _ ACCEL_FLAG); cbn [negb andb];
       [ discriminate | ];
       destruct (queued feed); [ intros _ | discriminate ];
       cbn [drain_queue]; autorewrite with run;
       cbn [emit ret result_of state_of trace_of fst snd bind];
       rewrite H0; cbn [Z.eqb negb];
       destruct l; repeat split; reflexivity ]).
Qed.

Lemma instance_without_data_changes_nothing_witness :
  @visit_sensor board_500Hz mag_instance empty_feed initial_locals plain_globals
  = (initial_locals, plain_globals, [EvQueueReceive mag_instance 0 false]).
Proof.
  destruct (@instance_without_data_changes_nothing board_500Hz mag_instance
              empty_feed initial_locals plain_globals eq_refl eq_refl)
    as [Hr [Hs Ht]].
  destruct (@visit_sensor board_500Hz mag_instance empty_feed initial_locals
              plain_globals) as [[r s] t].
  cbn [result_of state_of trace_of fst snd] in Hr, Hs, Ht.
  rewrite Hr, Hs, Ht. reflexivity.
Defined.

Section ClearedContext.
Context {P : Platform}.

Lemma visit_zero_context sensor feed l :
  sensor_context l = zero_context -> short_queue feed ->
  sensor_context (fst (visit_outcome sensor feed l)) = zero_context.
Proof.
  unfold short_queue. intros Hz Hlen. unfold visit_outcome.
  destruct (negb _ || _); [ | exact Hz ].
  destruct (is_polled sensor); cbn [negb].
  - destruct (poll_ready feed); [ reflexivity | exact Hz ].
  - destruct (count (drain_context _ _) =? 0) eqn:Hc; cbn [negb];
      [ | reflexivity ].
    apply Z.eqb_eq in Hc.
    rewrite drain_count in Hc by (rewrite Hz; cbn; lia).
    rewrite Hz in Hc. cbn [zero_context count] in Hc.
    rewrite Z.add_0_l, wrap_u32_small in Hc by lia.
    destruct (queued feed); [ | cbn [length] in Hc; lia ].
    destruct (type_has _ ACCEL_FLAG); cbn; exact Hz.
Qed.

Lemma foreach_zero_context sensors : forall fs l,
  sensor_context l = zero_context -> Forall short_queue fs ->
  sensor_context (fst (foreach_outcome sensors fs l)) = zero_context.
Proof.
  induction sensors as [| sensor rest IH]; intros fs l Hz Hf; [ exact Hz | ].
  cbn [foreach_outcome].
  assert (Hh : short_queue (hd empty_feed fs))
    by (destruct Hf; [ unfold short_queue; cbn; lia | assumption ]).
  assert (Ht : Forall short_queue (tl fs))
    by (destruct Hf; [ constructor | assumption ]).
  pose proof (visit_zero_context sensor (hd empty_feed fs) l Hz Hh) as Hv.
  destruct (visit_outcome sensor (hd empty_feed fs) l) as [l1 t1].
  pose proof (IH (tl fs) l1 Hv Ht) as Hr.
  destruct (foreach_outcome rest (tl fs) l1) as [l2 t2]. exact Hr.
Qed.

End ClearedContext.

(** X15. No sample outlives the iteration it arrived in: whatever the queues
    deliver (fewer than 2^32 items each), an iteration ends with both
    accumulators, the temperature sum and the count at zero. *)
Theorem iteration_ends_with_a_cleared_context `{P : Platform}
    (sensors : list PIOS_SENSORS_Instance) (inp : cycle_input)
    (l : task_locals) (g : globals) :
  Forall short_queue (feeds inp) ->
  sensor_context (result_of (SensorsTask_cycle sensors inp l g)) = zero_context.
Proof.
  intros Hf.
  destruct (SensorsTask_cycle_outcome sensors inp l g) as [Hr _].
  rewrite Hr. cbn [set_lastSysTime sensor_context].
  apply foreach_zero_context; [ reflexivity | exact Hf ].
Qed.

Lemma iteration_ends_with_a_cleared_context_witness :
  sensor_context
    (result_of (@SensorsTask_cycle board_500Hz [accel_instance; mag_instance]
                  delivering_input initial_locals plain_globals))
  = zero_context.
Proof.
  apply (@iteration_ends_with_a_cleared_context board_500Hz).
  repeat constructor; unfold short_queue; simpl; lia.
Defined.

(** X16. From queue to publication, for a queue-fed magnetometer: the record
    published is the board rotation applied to the mean of the samples its
    own queue delivered in this iteration minus the bias, with the mean of
    their temperatures; exactly one record is published and the module state
    is not touched. *)
Theorem magnetometer_publishes_the_calibrated_mean `{P : Platform}
    (sensor : PIOS_SENSORS_Instance) (feed : sensor_feed) (l : task_locals)
    (g : globals) :
  sensor_type sensor = PIOS_SENSORS_TYPE_3AXIS_MAG ->
  is_polled sensor = false ->
  sensor_context l = zero_context ->
  delivers feed = true ->
  let items := queued feed in
  let n := Z.of_nat (length items) in
  let sums := mkV32 (wrap_i32 (sum_over (slot0 x16) items))
                    (wrap_i32 (sum_over (slot0 y16) items))
                    (wrap_i32 (sum_over (slot0 z16) items)) in
  let m := mean_vector sums n (scales0 sensor) in
  let b := mag_bias (cal g) in
  let out := rot_mult (mag_transform (cal g))
               (mkV3 (v0 m - v0 b) (v1 m - v1 b) (v2 m - v2 b))%f32 in
  let mt := mean_temperature (wrap_i32 (sum_over raw_temperature items)) n in
  filter is_publication (trace_of (visit_sensor sensor feed l g))
  = [EvMagSensorSet (mkMagSensor (v0 out) (v1 out) (v2 out) mt)]
  /\ state_of (visit_sensor sensor feed l g) = g.
Proof.
  intros Hty Hq Hz Hd items n sums m b out mt.
  unfold delivers in Hd. apply andb_prop in Hd. destruct Hd as [Hpos Hlt].
  apply Z.ltb_lt in Hpos, Hlt. fold items in Hpos, Hlt. fold n in Hpos, Hlt.
  destruct (accumulated_sums items (sensor_context l)) as [Hc [Ht [Ha _]]].
  change (clearContext (sensor_context l)) with zero_context in *.
  rewrite wrap_u32_small in Hc by (fold n; lia). fold n in Hc.
  unfold visit_sensor. rewrite Hty, Hq.
  replace (type_is PIOS_SENSORS_TYPE_3AXIS_MAG PIOS_SENSORS_TYPE_3AXIS_AUXMAG)
    with false by reflexivity.
  cbn [negb orb].
  rewrite state_of_bind, trace_of_bind, drain_queue_run.
  rewrite result_of_triple, state_of_triple, trace_of_triple.
  fold items. rewrite Hz, Hc.
  replace (n =? 0) with false by (symmetry; apply Z.eqb_neq; lia).
  cbn [negb]. unfold processSamples3d. rewrite Hty.
  replace (type_is PIOS_SENSORS_TYPE_3AXIS_MAG PIOS_SENSORS_TYPE_3AXIS_MAG)
    with true by reflexivity.
  rewrite orb_true_r. cbn [orb].
  rewrite Hc, Ht, Ha. fold sums. fold m. fold mt.
  unfold handleMag, get_cal, bind, emit, ret.
  cbn [state_of trace_of result_of fst snd].
  rewrite !filter_app, filter_publication_drain.
  split; reflexivity.
Qed.

Lemma magnetometer_publishes_the_calibrated_mean_witness :
  filter is_publication
    (trace_of (@visit_sensor board_500Hz mag_instance two_sample_feed
                 initial_locals plain_globals))
  = [EvMagSensorSet (mkMagSensor f_2 f_2 f_2 f_25)].
Proof.
  destruct (@magnetometer_publishes_the_calibrated_mean board_500Hz
              mag_instance two_sample_feed initial_locals plain_globals
              eq_refl eq_refl eq_refl eq_refl) as [Hp _].
  rewrite Hp. vm_compute. reflexivity.
Defined.

(* ------------------------------------------------------------------ *)
(** ** The schedule of the bias recomputation *)

Section Period.
Variable B : Type.
Variable update : calibration -> float -> temp_tracking -> temp_tracking.
Variable enabled : calibration -> bool.
Variable countdown : temp_tracking -> Z.
Variable bias : temp_tracking -> B.
Variable fresh : calibration -> float -> temp_tracking -> B.
Variable N : Z.
Hypothesis N_range : 1 <= N <= 256.
Hypothesis countdown_step : forall c x t,
  countdown (update c x t) =
  wrap_u8 ((if enabled c && (countdown t =? 0) then N else countdown t) - 1).
Hypothesis bias_step : forall c x t,
  bias (update c x t) =
  if enabled c && (countdown t =? 0) then fresh c x t else bias t.

Lemma countdown_step_modulo (flag : bool) c x t :
  let M := if flag then N else 256 in
  enabled c = flag -> 0 <= countdown t < M ->
  countdown (update c x t) = (countdown t - 1) mod M.
Proof.
  intros M Hf Hr. rewrite countdown_step, Hf. unfold wrap_u8, M in *.
  destruct flag; cbn [andb].
  - destruct (countdown t =? 0) eqn:E.
    + apply Z.eqb_eq in E. rewrite E.
      rewrite Z.mod_small by lia.
      replace (0 - 1) with (N - 1 + (-1) * N) by lia.
      rewrite Z.mod_add by lia. rewrite Z.mod_small; lia.
    + apply Z.eqb_neq in E. rewrite !Z.mod_small; lia.
  - reflexivity.
Qed.

Lemma countdown_modulo_holds (flag : bool) :
  countdown_modulo update enabled countdown flag (if flag then N else 256).
Proof.
  set (M := if flag then N else 256).
  assert (HM : 0 < M) by (unfold M; destruct flag; lia).
  intros calls. induction calls as [| [c x] rest IH]; intros t Hall Hr.
  - cbn [tracker_after fold_left length Z.of_nat].
    rewrite Z.sub_0_r, Z.mod_small; lia.
  - inversion_clear Hall as [| ? ? Hf Hrest]. cbn [fst] in Hf.
    cbn [tracker_after fold_left fst snd].
    fold (tracker_after update rest (update c x t)).
    pose proof (countdown_step_modulo flag c x t Hf Hr) as Hs. cbv zeta in Hs.
    fold M in Hs.
    rewrite IH; [ | exact Hrest | rewrite Hs; apply Z.mod_pos_bound; exact HM ].
    rewrite Hs, Zminus_mod_idemp_l. f_equal. cbn [length]. lia.
Qed.

Lemma recompute_schedule_holds :
  recompute_schedule update enabled countdown bias fresh N.
Proof.
  intros calls c x t Hall Hc Hr. cbv zeta.
  pose proof (countdown_modulo_holds true calls t Hall Hr) as Hs.
  split; [ exact Hs | ].
  rewrite bias_step, Hc, Hs. reflexivity.
Qed.

(** While the countdown has not run out, no call touches the bias. *)
Lemma counting_keeps_bias calls : forall s,
  0 <= countdown s < 256 ->
  Z.of_nat (length calls) <= countdown s ->
  bias (tracker_after update calls s) = bias s
  /\ countdown (tracker_after update calls s)
     = countdown s - Z.of_nat (length calls).
Proof.
  induction calls as [| [c x] rest IH]; intros s Hr Hlen.
  - cbn [tracker_after fold_left length Z.of_nat]. split; [ reflexivity | lia ].
  - cbn [length] in Hlen. rewrite Nat2Z.inj_succ in Hlen.
    assert (Hnz : (countdown s =? 0) = false) by (apply Z.eqb_neq; lia).
    assert (Hc : countdown (update c x s) = countdown s - 1).
    { rewrite countdown_step, Hnz, andb_false_r. unfold wrap_u8.
      apply Z.mod_small. lia. }
    assert (Hb : bias (update c x s) = bias s)
      by (rewrite bias_step, Hnz, andb_false_r; reflexivity).
    cbn [tracker_after fold_left fst snd].
    fold (tracker_after update rest (update c x s)).
    destruct (IH (update c x s)) as [Hb' Hc']; [ lia | lia | ].
    rewrite Hb', Hc', Hb, Hc. cbn [length]. split; [ reflexivity | lia ].
Qed.

Lemma disabled_keeps_bias calls : forall t,
  Forall (fun call => enabled (fst call) = false) calls ->
  bias (tracker_after update calls t) = bias t.
Proof.
  induction calls as [| [c x] rest IH]; intros t Hall; [ reflexivity | ].
  inversion_clear Hall as [| ? ? Hf Hrest]. cbn [fst] in Hf.
  cbn [tracker_after fold_left fst snd].
  fold (tracker_after update rest (update c x t)).
  rewrite IH by exact Hrest. rewrite bias_step, Hf. reflexivity.
Qed.

Lemma deferred_enabling_holds :
  deferred_enabling update enabled countdown bias fresh.
Proof.
  intros off later c x t Hoff Hc Hr. cbv zeta.
  pose proof (countdown_modulo_holds false off t Hoff Hr) as Hs.
  pose proof (disabled_keeps_bias off t Hoff) as Hb.
  assert (Hd : 0 <= (countdown t - Z.of_nat (length off)) mod 256 < 256)
    by (apply Z.mod_pos_bound; lia).
  cbv iota in Hs.
  split; [ exact Hs | ]. split; [ exact Hb | ]. split; intros Hlen.
  - destruct (counting_keeps_bias later (tracker_after update off t))
      as [Hk _]; [ rewrite Hs; exact Hd | rewrite Hs; exact Hlen | ].
    rewrite Hk. exact Hb.
  - destruct (counting_keeps_bias later (tracker_after update off t))
      as [_ Hk]; [ rewrite Hs; exact Hd | rewrite Hs; lia | ].
    rewrite bias_step, Hc, Hk, Hs, Hlen, Z.sub_diag. reflexivity.
Qed.

End Period.

(** X17. With its calibration enabled, a tracker recomputes its bias with an
    exact period, the interval of its channel (30 calls for the
    accelerometer and the gyro, 10 for the barometer): after [n] enabled
    calls the countdown stands at [(countdown - n) mod interval], and the
    next enabled call stores the polynomial at the freshly filtered, bounded
    temperature exactly when that is zero and leaves the bias as it is
    otherwise. *)
Theorem enabled_tracker_recomputes_with_exact_period `{P : Platform} :
  recompute_schedule updateAccelTempBias accel_temp_calibrated
    accel_temp_calibration_count accel_temp_bias accel_fresh_bias 30
  /\ recompute_schedule updateGyroTempBias gyro_temp_calibrated
       gyro_temp_calibration_count gyro_temp_bias gyro_fresh_bias 30
  /\ recompute_schedule updateBaroTempBias baro_temp_correction_enabled
       baro_temp_calibration_count baro_temp_bias baro_fresh_bias 10.
Proof.
  split; [ | split ].
  - apply recompute_schedule_holds;
      [ lia | apply accel_count_update | apply accel_bias_update ].
  - apply recompute_schedule_holds;
      [ lia | apply gyro_count_update | apply gyro_bias_update ].
  - apply recompute_schedule_holds;
      [ lia | apply baro_count_update | apply baro_bias_update ].
Qed.

(** From the initial state, the call after thirty enabled calls of the
    accelerometer tracker changes the bias; the call after twenty-nine does
    not. *)
Lemma enabled_tracker_recomputes_with_exact_period_witness :
  let after n :=
    tracker_after (@updateAccelTempBias board_500Hz)
      (repeat (sample_calibration, f_25) n) initial_tracking in
  accel_temp_bias
    (@updateAccelTempBias board_500Hz sample_calibration (float_of_Z 50)
       (after 30%nat))
  <> accel_temp_bias (after 30%nat)
  /\ accel_temp_bias
       (@updateAccelTempBias board_500Hz sample_calibration (float_of_Z 50)
          (after 29%nat))
     = accel_temp_bias (after 29%nat).
Proof.
  cbv zeta.
  destruct (@enabled_tracker_recomputes_with_exact_period board_500Hz)
    as [Ha _].
  assert (Hall : forall n,
             Forall (fun call : calibration * float =>
                       accel_temp_calibrated (fst call) = true)
               (repeat (sample_calibration, f_25) n))
    by (intros n; apply Forall_forall; intros call Hin;
        apply repeat_spec in Hin; subst; reflexivity).
  destruct (Ha (repeat (sample_calibration, f_25) 30) sample_calibration
              (float_of_Z 50) initial_tracking (Hall 30%nat) eq_refl
              ltac:(simpl; lia)) as [_ H30].
  destruct (Ha (repeat (sample_calibration, f_25) 29) sample_calibration
              (float_of_Z 50) initial_tracking (Hall 29%nat) eq_refl
              ltac:(simpl; lia)) as [_ H29].
  split.
  - rewrite H30. vm_compute. discriminate.
  - rewrite H29. reflexivity.
Defined.

(** X18. With its calibration disabled, a tracker leaves its bias alone while
    its 8-bit countdown keeps running, modulo 256.  A correction switched
    on at run time therefore does not take effect at once: with the
    countdown standing at [d], up to 255, the next [d] calls leave the bias
    alone and the enabled call after them is the first to store a fresh
    one. *)
Theorem disabled_tracker_countdown_wraps_at_256 `{P : Platform} :
  deferred_enabling updateAccelTempBias accel_temp_calibrated
    accel_temp_calibration_count accel_temp_bias accel_fresh_bias
  /\ deferred_enabling updateGyroTempBias gyro_temp_calibrated
       gyro_temp_calibration_count gyro_temp_bias gyro_fresh_bias
  /\ deferred_enabling updateBaroTempBias baro_temp_correction_enabled
       baro_temp_calibration_count baro_temp_bias baro_fresh_bias.
Proof.
  split; [ | split ].
  - apply (deferred_enabling_holds _ _ _ _ _ _ 30);
      [ lia | apply accel_count_update | apply accel_bias_update ].
  - apply (deferred_enabling_holds _ _ _ _ _ _ 30);
      [ lia | apply gyro_count_update | apply gyro_bias_update ].
  - apply (deferred_enabling_holds _ _ _ _ _ _ 10);
      [ lia | apply baro_count_update | apply baro_bias_update ].
Qed.

(** One barometer call with the correction off leaves the countdown at 255;
    with the correction then on, 255 further calls leave the bias at its
    initial zero and the one after them changes it. *)
Lemma disabled_tracker_countdown_wraps_at_256_witness :
  let s :=
    tracker_after (@updateBaroTempBias board_500Hz)
      [(plain_calibration, f_25)] initial_tracking in
  let s' :=
    tracker_after (@updateBaroTempBias board_500Hz)
      (repeat (sample_calibration, f_25) 255) s in
  baro_temp_calibration_count s = 255
  /\ baro_temp_bias s' = f_0
  /\ baro_temp_bias
       (@updateBaroTempBias board_500Hz sample_calibration f_25 s')
     <> f_0.
Proof.
  cbv zeta.
  destruct (@disabled_tracker_countdown_wraps_at_256 board_500Hz)
    as [_ [_ Hb]].
  destruct (Hb [(plain_calibration, f_25)]
              (repeat (sample_calibration, f_25) 255) sample_calibration f_25
              initial_tracking ltac:(repeat constructor) eq_refl
              ltac:(simpl; lia)) as [Hc [_ [Hk Hf]]].
  split; [ rewrite Hc; reflexivity | ]. split.
  - rewrite Hk; [ reflexivity | rewrite repeat_length; vm_compute; discriminate ].
  - rewrite Hf; [ vm_compute; discriminate | rewrite repeat_length; reflexivity ].
Defined.

(* ------------------------------------------------------------------ *)
(** ** The temperature filter over several calls *)

Lemma lowpass_nan (alpha raw base : float) :
  isnan raw = true -> isnan (alpha * (raw - base) + base)%f32 = true.
Proof.
  destruct raw; try discriminate. intros _.
  destruct base, alpha; reflexivity.
Qed.

Section Filter.
Variable update : calibration -> float -> temp_tracking -> temp_tracking.
Variable estimate : temp_tracking -> float.
Variable alpha : float.
Hypothesis alpha_finite : is_finite alpha = true.
Hypothesis estimate_step : forall c x t,
  estimate (update c x t)
  = (alpha * (x - filter_base (estimate t) x) + filter_base (estimate t) x)%f32.

Lemma estimate_fixed c x t :
  is_finite x = true -> is_zero x = false ->
  isnan (estimate t) = true \/ estimate t = x ->
  estimate (update c x t) = x.
Proof.
  intros Hx Hnz Hst. rewrite estimate_step.
  assert (Hb : filter_base (estimate t) x = x).
  { unfold filter_base. destruct Hst as [Hn | He].
    - rewrite Hn. reflexivity.
    - rewrite He. destruct (isnan x); reflexivity. }
  rewrite Hb. apply lowpass_seed; assumption.
Qed.

Lemma estimate_constant x calls : forall t,
  is_finite x = true -> is_zero x = false ->
  isnan (estimate t) = true \/ estimate t = x ->
  Forall (fun call => snd call = x) calls -> calls <> [] ->
  estimate (tracker_after update calls t) = x.
Proof.
  induction calls as [| [c y] rest IH]; intros t Hx Hnz Hst Hall Hne;
    [ congruence | ].
  inversion_clear Hall as [| ? ? Hy Hrest]. cbn [snd] in Hy. subst y.
  cbn [tracker_after fold_left fst snd].
  fold (tracker_after update rest (update c x t)).
  pose proof (estimate_fixed c x t Hx Hnz Hst) as Hs.
  destruct rest as [| call rest']; [ exact Hs | ].
  apply IH; auto. discriminate.
Qed.

Lemma estimate_reseeded c c' raw next t :
  isnan raw = true -> is_finite next = true -> is_zero next = false ->
  isnan (estimate (update c raw t)) = true
  /\ estimate (update c' next (update c raw t)) = next.
Proof.
  intros Hraw Hx Hnz.
  assert (Hn : isnan (estimate (update c raw t)) = true)
    by (rewrite estimate_step; apply lowpass_nan; exact Hraw).
  split; [ exact Hn | ].
  apply estimate_fixed; auto.
Qed.

End Filter.

(** X19. A steady reading is a fixed point of the filter: while a tracker is
    fed the same finite non-zero temperature, from its first call on or from
    an estimate already equal to it, its estimate is exactly that
    temperature, with no rounding drift, whatever the calibration. *)
Theorem constant_reading_keeps_the_estimate `{P : Platform}
    (x : float) (calls : list (calibration * float)) (t : temp_tracking) :
  is_finite temp_alpha_gyro_accel = true ->
  is_finite temp_alpha_baro = true ->
  is_finite x = true -> is_zero x = false ->
  Forall (fun call => snd call = x) calls -> calls <> [] ->
  (isnan (accel_temperature t) = true \/ accel_temperature t = x ->
   accel_temperature (tracker_after updateAccelTempBias calls t) = x)
  /\ (isnan (gyro_temperature t) = true \/ gyro_temperature t = x ->
      gyro_temperature (tracker_after updateGyroTempBias calls t) = x)
  /\ (isnan (baro_temperature t) = true \/ baro_temperature t = x ->
      baro_temperature (tracker_after updateBaroTempBias calls t) = x).
Proof.
  intros Hga Hb Hx Hnz Hall Hne. split; [ | split ]; intros Hst.
  - apply (estimate_constant updateAccelTempBias accel_temperature
             temp_alpha_gyro_accel Hga accel_temperature_update); assumption.
  - apply (estimate_constant updateGyroTempBias gyro_temperature
             temp_alpha_gyro_accel Hga gyro_temperature_update); assumption.
  - apply (estimate_constant updateBaroTempBias baro_temperature
             temp_alpha_baro Hb baro_temperature_update); assumption.
Qed.

Lemma constant_reading_keeps_the_estimate_witness :
  let calls := repeat (sample_calibration, f_25) 40 in
  accel_temperature
    (tracker_after (@updateAccelTempBias board_500Hz) calls initial_tracking)
  = f_25
  /\ gyro_temperature
       (tracker_after (@updateGyroTempBias board_500Hz) calls initial_tracking)
     = f_25
  /\ baro_temperature
       (tracker_after (@updateBaroTempBias board_500Hz) calls initial_tracking)
     = f_25.
Proof.
  cbv zeta.
  assert (Hall : Forall (fun call : calibration * float => snd call = f_25)
                   (repeat (sample_calibration, f_25) 40))
    by (apply Forall_forall; intros call Hin; apply repeat_spec in Hin;
        subst; reflexivity).
  destruct (@constant_reading_keeps_the_estimate board_500Hz f_25
              (repeat (sample_calibration, f_25) 40) initial_tracking
              eq_refl eq_refl eq_refl eq_refl Hall ltac:(discriminate))
    as [Ha [Hg Hb]].
  split; [ | split ]; [ apply Ha | apply Hg | apply Hb ]; left; reflexivity.
Defined.

(** X20. A NaN reading does not poison a tracker for good: it turns the estimate
    into NaN, and the next call, finding NaN, starts afresh from its own
    reading. *)
Theorem nan_reading_reseeds_the_filter `{P : Platform}
    (c c' : calibration) (raw next : float) (t : temp_tracking) :
  is_finite temp_alpha_gyro_accel = true ->
  is_finite temp_alpha_baro = true ->
  isnan raw = true -> is_finite next = true -> is_zero next = false ->
  (isnan (accel_temperature (updateAccelTempBias c raw t)) = true
   /\ accel_temperature
        (updateAccelTempBias c' next (updateAccelTempBias c raw t)) = next)
  /\ (isnan (gyro_temperature (updateGyroTempBias c raw t)) = true
      /\ gyro_temperature
           (updateGyroTempBias c' next (updateGyroTempBias c raw t)) = next)
  /\ (isnan (baro_temperature (updateBaroTempBias c raw t)) = true
      /\ baro_temperature
           (updateBaroTempBias c' next (updateBaroTempBias c raw t)) = next).
Proof.
  intros Hga Hb Hraw Hx Hnz. split; [ | split ].
  - apply (estimate_reseeded updateAccelTempBias accel_temperature
             temp_alpha_gyro_accel Hga accel_temperature_update); assumption.
  - apply (estimate_reseeded updateGyroTempBias gyro_temperature
             temp_alpha_gyro_accel Hga gyro_temperature_update); assumption.
  - apply (estimate_reseeded updateBaroTempBias baro_temperature
             temp_alpha_baro Hb baro_temperature_update); assumption.
Qed.

Lemma nan_reading_reseeds_the_filter_witness :
  baro_temperature
    (@updateBaroTempBias board_500Hz sample_calibration f_25
       (@updateBaroTempBias board_500Hz sample_calibration NAN
          (set_baro_temperature f_1 initial_tracking)))
  = f_25.
Proof.
  apply (@nan_reading_reseeds_the_filter board_500Hz sample_calibration
           sample_calibration NAN f_25
           (set_baro_temperature f_1 initial_tracking)
           eq_refl eq_refl eq_refl eq_refl eq_refl).
Defined.

(* ------------------------------------------------------------------ *)
(** ** What the settings decide for the whole run *)

(** A property of the tracking state that every tracker update keeps under
    the calibration [c0] is kept by the main loop run under [c0]. *)
Section TrackerInvariant.
Context {P : Platform}.
Variable c0 : calibration.
Variable Inv : temp_tracking -> Prop.
Hypothesis Inv_accel : forall x t, Inv t -> Inv (updateAccelTempBias c0 x t).
Hypothesis Inv_gyro : forall x t, Inv t -> Inv (updateGyroTempBias c0 x t).
Hypothesis Inv_baro : forall x t, Inv t -> Inv (updateBaroTempBias c0 x t).

Lemma holds_processSamples3d ctx sensor g :
  cal g = c0 /\ Inv (trk g) ->
  cal (state_of (processSamples3d ctx sensor g)) = c0
  /\ Inv (trk (state_of (processSamples3d ctx sensor g))).
Proof.
  intros [Hc Hi]. rewrite state_of_processSamples3d.
  destruct (sensor_type sensor); split; cbn [cal trk]; auto;
    rewrite Hc; auto.
Qed.

Lemma holds_processSamples1d sample sensor g :
  cal g = c0 /\ Inv (trk g) ->
  cal (state_of (processSamples1d sample sensor g)) = c0
  /\ Inv (trk (state_of (processSamples1d sample sensor g))).
Proof.
  intros [Hc Hi]. unfold processSamples1d.
  destruct (sensor_type sensor); try (split; assumption).
  rewrite state_of_bind, state_of_handleBaro.
  cbn [emit state_of fst snd cal trk]. split; cbn [cal trk]; auto.
  rewrite Hc. auto.
Qed.

Lemma holds_visit_sensor sensor feed l g :
  cal g = c0 /\ Inv (trk g) ->
  cal (state_of (visit_sensor sensor feed l g)) = c0
  /\ Inv (trk (state_of (visit_sensor sensor feed l g))).
Proof.
  intros H. unfold visit_sensor.
  destruct (negb _ || _); [ | exact H ].
  destruct (is_polled sensor); cbn [negb].
  - destruct (poll_ready feed); [ | exact H ].
    destruct (type_has _ PIOS_SENSORS_TYPE_3D); autorewrite with run;
      cbn [emit ret state_of result_of fst snd];
      [ apply holds_processSamples3d | apply holds_processSamples1d ]; exact H.
  - rewrite state_of_bind, drain_queue_run.
    rewrite result_of_triple, state_of_triple.
    destruct (count _ =? 0); cbn [negb].
    + destruct (type_has _ ACCEL_FLAG); exact H.
    + autorewrite with run. cbn [ret state_of fst snd].
      apply holds_processSamples3d. exact H.
Qed.

Lemma holds_foreach_sensor sensors : forall fs l g,
  cal g = c0 /\ Inv (trk g) ->
  cal (state_of (foreach_sensor sensors fs l g)) = c0
  /\ Inv (trk (state_of (foreach_sensor sensors fs l g))).
Proof.
  induction sensors as [| sensor rest IH]; intros fs l g H; [ exact H | ].
  cbn [foreach_sensor]. rewrite state_of_bind. apply IH.
  apply holds_visit_sensor. exact H.
Qed.

Lemma holds_cycle sensors inp l g :
  cal g = c0 /\ Inv (trk g) ->
  cal (state_of (SensorsTask_cycle sensors inp l g)) = c0
  /\ Inv (trk (state_of (SensorsTask_cycle sensors inp l g))).
Proof.
  intros H. unfold SensorsTask_cycle.
  rewrite state_of_bind, cycle_prologue_run.
  rewrite result_of_triple, state_of_triple.
  autorewrite with run. cbn [emit vTaskDelayUntil ret state_of fst snd].
  unfold vTaskDelayUntil. autorewrite with run. cbn [emit ret state_of fst snd].
  apply holds_foreach_sensor. exact H.
Qed.

Lemma holds_steps sensors inps : forall st g,
  cal g = c0 /\ Inv (trk g) ->
  cal (state_of (SensorsTask_steps sensors inps st g)) = c0
  /\ Inv (trk (state_of (SensorsTask_steps sensors inps st g))).
Proof.
  induction inps as [| inp rest IH]; intros st g H; [ exact H | ].
  cbn [SensorsTask_steps]. rewrite state_of_bind. apply IH.
  unfold SensorsTask_step. destruct (phase st); try exact H.
  rewrite state_of_bind. cbn [ret state_of fst snd]. apply holds_cycle. exact H.
Qed.

Lemma holds_step sensors inp st g :
  cal g = c0 /\ Inv (trk g) ->
  cal (state_of (SensorsTask_step sensors inp st g)) = c0
  /\ Inv (trk (state_of (SensorsTask_step sensors inp st g))).
Proof.
  intros H. unfold SensorsTask_step. destruct (phase st); try exact H.
  rewrite state_of_bind. cbn [ret state_of fst snd]. apply holds_cycle. exact H.
Qed.

End TrackerInvariant.

Section Boot.
Context {P : Platform}.

Lemma state_of_boot sensors boot g :
  state_of (SensorsTask_boot sensors boot g)
  = state_of (settingsUpdatedCb (boot_settings boot) g).
Proof.
  unfold SensorsTask_boot. autorewrite with run.
  rewrite test_sensors_run by lia. autorewrite with run.
  cbn [emit state_of result_of fst snd].
  destruct (_ =? 0); [ reflexivity | ].
  destruct (negb _); reflexivity.
Qed.

End Boot.

Section GyroFlag.
Context {P : Platform}.

Lemma gyro_flag_after_update s g :
  gyro_tested_negligible s = true ->
  gyro_temp_calibrated (cal (state_of (settingsUpdatedCb s g))) = false
  /\ trk (state_of (settingsUpdatedCb s g)) = trk g.
Proof.
  unfold gyro_tested_negligible. cbv zeta. intros H.
  apply negb_true_iff in H.
  cbn [settingsUpdatedCb state_of fst snd cal trk gyro_temp_calibrated].
  rewrite H. split; [ apply andb_false_r | reflexivity ].
Qed.

Lemma gyro_bias_kept_by_step sensors inp st g :
  gyro_temp_calibrated (cal g) = false ->
  gyro_temp_calibrated (cal (state_of (SensorsTask_step sensors inp st g)))
  = false
  /\ gyro_temp_bias (trk (state_of (SensorsTask_step sensors inp st g)))
     = gyro_temp_bias (trk g).
Proof.
  intros Hoff.
  destruct (holds_step (cal g)
              (fun t => gyro_temp_bias t = gyro_temp_bias (trk g)))
    with (sensors := sensors) (inp := inp) (st := st) (g := g)
    as [Hc Hb].
  - intros x t H. rewrite <- H.
    pose proof (proj1 (updateAccelTempBias_frame (cal g) x t)) as Hf.
    unfold gyro_part in Hf. congruence.
  - intros x t H. rewrite gyro_bias_update, Hoff. exact H.
  - intros x t H. rewrite <- H.
    pose proof (proj2 (updateBaroTempBias_frame (cal g) x t)) as Hf.
    unfold gyro_part in Hf. congruence.
  - split; reflexivity.
  - rewrite Hc. split; [ exact Hoff | exact Hb ].
Qed.

Lemma gyro_bias_kept_by_run sensors ins : forall st g,
  gyro_temp_calibrated (cal g) = false ->
  updates_gyro_negligible ins ->
  gyro_temp_bias (trk (state_of (SensorsTask_run sensors ins st g)))
  = gyro_temp_bias (trk g).
Proof.
  unfold updates_gyro_negligible.
  induction ins as [| [inp | s] rest IH]; intros st g Hoff Hall;
    [ reflexivity | | ];
    inversion_clear Hall as [| ? ? Hi Hrest];
    cbn [SensorsTask_run]; rewrite state_of_bind.
  - destruct (gyro_bias_kept_by_step sensors inp st g Hoff) as [Hc Hb].
    rewrite IH by assumption. exact Hb.
  - destruct (gyro_flag_after_update s g Hi) as [Hc Ht].
    rewrite IH by assumption. rewrite Ht. reflexivity.
Qed.

End GyroFlag.

(** X21. The gyro correction is switched on by the linear coefficients and
    by the quadratic one of the third axis only.  While these four are
    negligible in the settings of the start-up and of every update that
    arrives between turns of the loop, the gyro bias stays where it was,
    whatever the quadratic coefficients of the first two axes are, however
    wide the calibrated extent and whatever the sensors deliver. *)
Theorem gyro_calibration_in_X2_Y2_alone_is_never_applied `{P : Platform}
    (sensors : list PIOS_SENSORS_Instance) (boot : boot_input)
    (ins : list task_input) (g : globals) :
  gyro_tested_negligible (boot_settings boot) = true ->
  updates_gyro_negligible ins ->
  gyro_temp_bias
    (trk (state_of (SensorsTask_with_updates sensors boot ins g)))
  = gyro_temp_bias (trk g).
Proof.
  intros Hboot Hall.
  unfold SensorsTask_with_updates. rewrite state_of_bind.
  destruct (gyro_flag_after_update (boot_settings boot) g Hboot) as [Hoff Ht].
  rewrite gyro_bias_kept_by_run.
  - rewrite state_of_boot, Ht. reflexivity.
  - rewrite state_of_boot. exact Hoff.
  - exact Hall.
Qed.

Lemma gyro_calibration_in_X2_Y2_alone_is_never_applied_witness :
  gyro_temp_bias
    (trk (state_of (@SensorsTask_with_updates board_500Hz
                      [accel_instance; gyro_instance] quadratic_xy_boot
                      updated_run plain_globals)))
  = zero3.
Proof.
  apply (@gyro_calibration_in_X2_Y2_alone_is_never_applied board_500Hz
           [accel_instance; gyro_instance] quadratic_xy_boot updated_run
           plain_globals eq_refl).
  unfold updates_gyro_negligible, updated_run.
  repeat constructor.
Defined.

(* ------------------------------------------------------------------ *)
(** ** The extent of an enabled correction *)

Lemma f_0_1_value : f_0_1 = S754_finite false 13421773 (-27).
Proof. vm_compute. reflexivity. Qed.

(** A result of rounding with the sign set is not above one tenth. *)
Lemma negative_round_not_above (m : positive) (e : Z) :
  SFltb (S754_finite false 13421773 (-27))
    (binary_round prec32 emax32 true m e) = false.
Proof.
  unfold binary_round, binary_round_aux.
  destruct (shl_align _ _ _) as [mz ez].
  destruct (shr_fexp _ _ _ _ _) as [mrs' e'].
  destruct (shr_fexp _ _ _ _ _) as [mrs'' e''].
  destruct (shr_m mrs''); [ reflexivity | | reflexivity ].
  destruct (_ <=? _); reflexivity.
Qed.

Lemma digits2_pos_bounds (m : positive) :
  2 ^ (Zpos (digits2_pos m) - 1) <= Zpos m < 2 ^ Zpos (digits2_pos m).
Proof.
  induction m as [m IH | m IH |]; cbn [digits2_pos].
  - rewrite Pos2Z.inj_succ.
    replace (Z.succ (Zpos (digits2_pos m)) - 1) with (Zpos (digits2_pos m)) by lia.
    rewrite Z.pow_succ_r by lia.
    assert (0 < Zpos (digits2_pos m)) by lia.
    replace (2 ^ Zpos (digits2_pos m)) with (2 * 2 ^ (Zpos (digits2_pos m) - 1)) in *
      by (rewrite <- Z.pow_succ_r by lia; f_equal; lia).
    lia.
  - rewrite Pos2Z.inj_succ.
    replace (Z.succ (Zpos (digits2_pos m)) - 1) with (Zpos (digits2_pos m)) by lia.
    rewrite Z.pow_succ_r by lia.
    assert (0 < Zpos (digits2_pos m)) by lia.
    replace (2 ^ Zpos (digits2_pos m)) with (2 * 2 ^ (Zpos (digits2_pos m) - 1)) in *
      by (rewrite <- Z.pow_succ_r by lia; f_equal; lia).
    lia.
  - cbn. lia.
Qed.

Lemma shl_align_value (m : positive) (e ez : Z) :
  ez <= e -> Zpos (fst (shl_align m e ez)) = Zpos m * 2 ^ (e - ez).
Proof.
  intros H. unfold shl_align.
  destruct (ez - e) as [| d | d] eqn:E; cbn [fst].
  - replace (e - ez) with 0 by lia. lia.
  - lia.
  - replace (e - ez) with (Zpos d) by lia.
    change (Pos.iter xO m d) with (shift_pos d m).
    rewrite shift_pos_correct, Z.pow_pos_fold. lia.
Qed.

(** Among canonical numbers the one with the larger exponent has the larger
    magnitude. *)
Lemma canonical_magnitudes (m1 m2 : positive) (e1 e2 : Z) :
  bounded prec32 emax32 m1 e1 = true ->
  bounded prec32 emax32 m2 e2 = true ->
  e1 < e2 ->
  Zpos m1 < Zpos m2 * 2 ^ (e2 - e1).
Proof.
  unfold bounded, canonical_mantissa, fexp, emin, prec32, emax32.
  intros H1 H2 Hlt.
  apply andb_prop in H1, H2. destruct H1 as [H1 _], H2 as [H2 _].
  apply Z.eqb_eq in H1, H2.
  pose proof (digits2_pos_bounds m1) as [_ Hu].
  pose proof (digits2_pos_bounds m2) as [Hl _].
  assert (Hd1 : Zpos (digits2_pos m1) <= 24) by lia.
  assert (Hd2 : Zpos (digits2_pos m2) = 24) by lia.
  rewrite Hd2 in Hl.
  assert (Zpos m1 < 2 ^ 24).
  { eapply Z.lt_le_trans; [ exact Hu | ].
    apply Z.pow_le_mono_r; lia. }
  assert (2 ^ 1 <= 2 ^ (e2 - e1)) by (apply Z.pow_le_mono_r; lia).
  change (2 ^ (24 - 1)) with 8388608 in Hl.
  change (2 ^ 24) with 16777216 in *.
  change (2 ^ 1) with 2 in *.
  nia.
Qed.

(** A binary32 difference above one tenth orders its operands. *)
Lemma difference_orders (lo hi : float) :
  valid_float lo = true -> valid_float hi = true ->
  fgt (hi - lo)%f32 f_0_1 = true -> flt lo hi = true.
Proof.
  unfold fgt, flt, fsub, valid_float. rewrite f_0_1_value.
  intros Vlo Vhi H.
  destruct hi as [[] | [] | | sh mh eh], lo as [[] | [] | | sl ml el];
    try (cbn in H |- *; (discriminate || reflexivity));
    try (destruct sl; cbn in H |- *; (discriminate || reflexivity));
    try (destruct sh; cbn in H |- *; (discriminate || reflexivity)).
  cbn [valid_binary] in Vlo, Vhi.
  unfold SFsub in H.
  assert (Hh : Zpos (fst (shl_align mh eh (Z.min eh el)))
               = Zpos mh * 2 ^ (eh - Z.min eh el))
    by (apply shl_align_value; lia).
  assert (Hl : Zpos (fst (shl_align ml el (Z.min eh el)))
               = Zpos ml * 2 ^ (el - Z.min eh el))
    by (apply shl_align_value; lia).
  set (d := cond_Zopp sh (Z.pos (fst (shl_align mh eh (Z.min eh el))))
            - cond_Zopp sl (Z.pos (fst (shl_align ml el (Z.min eh el))))) in *.
  assert (Hd : 0 < d).
  { destruct d as [| p | p] eqn:E; [ discriminate | lia | ].
    cbn [binary_normalize] in H.
    rewrite negative_round_not_above in H. discriminate. }
  assert (Hph : 0 < 2 ^ (eh - Z.min eh el)) by (apply Z.pow_pos_nonneg; lia).
  assert (Hpl : 0 < 2 ^ (el - Z.min eh el)) by (apply Z.pow_pos_nonneg; lia).
  unfold SFltb, SFcompare.
  destruct sl, sh; unfold d in Hd; cbn [cond_Zopp] in Hd;
    rewrite Hh, Hl in Hd; try reflexivity; try lia.
  - destruct (Z.compare_spec el eh) as [He | He | He]; [ | | reflexivity ].
    + subst el. rewrite Z.min_id, Z.sub_diag in Hd.
      change (2 ^ 0) with 1 in Hd.
      rewrite Pos.compare_cont_spec. cbn [Pos.switch_Eq].
      assert (Hc : (ml ?= mh)%positive = Gt) by (apply Pos.compare_gt_iff; lia).
      rewrite Hc. reflexivity.
    + exfalso.
      pose proof (canonical_magnitudes ml mh el eh Vlo Vhi He).
      rewrite Z.min_r in Hd by lia. rewrite Z.sub_diag in Hd.
      change (2 ^ 0) with 1 in Hd. lia.
  - destruct (Z.compare_spec el eh) as [He | He | He]; [ | reflexivity | ].
    + subst el. rewrite Z.min_id, Z.sub_diag in Hd.
      change (2 ^ 0) with 1 in Hd.
      rewrite Pos.compare_cont_spec. cbn [Pos.switch_Eq].
      assert (Hc : (ml ?= mh)%positive = Lt) by (apply Pos.compare_lt_iff; lia).
      rewrite Hc. reflexivity.
    + exfalso.
      pose proof (canonical_magnitudes mh ml eh el Vhi Vlo He).
      rewrite Z.min_l in Hd by lia. rewrite Z.sub_diag in Hd.
      change (2 ^ 0) with 1 in Hd. lia.
Qed.

(** X22. A correction that the settings callback switches on always comes with
    a proper extent: the test [max - min > 0.1f], carried out in binary32,
    implies [min < max], so the temperature the polynomial is evaluated at
    is clamped into [[min, max]] and never into a reversed or empty
    interval. *)
Theorem enabled_correction_has_a_proper_extent
    (s : settings_snapshot) (g : globals) :
  let c := cal (state_of (settingsUpdatedCb s g)) in
  let e := temp_calibrated_extent (agcal c) in
  let eb := baroCorrectionExtent c in
  valid_float (min e) = true -> valid_float (max e) = true ->
  valid_float (min eb) = true -> valid_float (max eb) = true ->
  (accel_temp_calibrated c || gyro_temp_calibrated c = true ->
   flt (min e) (max e) = true
   /\ forall v, boundf v (max e) (min e) = clamp_to_extent v (min e) (max e))
  /\ (baro_temp_correction_enabled c = true ->
      flt (min eb) (max eb) = true
      /\ forall v, boundf v (max eb) (min eb)
                   = clamp_to_extent v (min eb) (max eb)).
Proof.
  cbv zeta.
  cbn [settingsUpdatedCb state_of fst snd cal agcal baroCorrectionExtent
       accel_temp_calibrated gyro_temp_calibrated baro_temp_correction_enabled].
  intros V1 V2 V3 V4. split; intros Hen.
  - assert (Hw : extent_wide (temp_calibrated_extent (store_agcal s)) = true).
    { destruct (extent_wide _); [ reflexivity | discriminate ]. }
    pose proof (difference_orders _ _ V1 V2 Hw) as Hlt.
    split; [ exact Hlt | intros v; apply boundf_clamp; exact Hlt ].
  - assert (Hw : extent_wide (store_baroCorrectionExtent s) = true).
    { destruct (extent_wide _); [ reflexivity | discriminate ]. }
    pose proof (difference_orders _ _ V3 V4 Hw) as Hlt.
    split; [ exact Hlt | intros v; apply boundf_clamp; exact Hlt ].
Qed.

Lemma enabled_correction_has_a_proper_extent_witness :
  flt f_0 (float_of_Z 50) = true
  /\ boundf (float_of_Z 60) (float_of_Z 50) f_0 = float_of_Z 50.
Proof.
  destruct (enabled_correction_has_a_proper_extent sample_settings
              plain_globals eq_refl eq_refl eq_refl eq_refl) as [H _].
  destruct (H eq_refl) as [Hlt Hb].
  split; [ exact Hlt | ].
  exact (eq_trans (Hb (float_of_Z 60)) eq_refl).
Defined.
